(** * outlook-policy-reporter: the ingestion and normalisation core of
      [fetch_policy_emails.py], embedded in Rocq.

    The development follows the Python source function by function.

    - Python [str] values are Rocq [string]s, one character per code
      point, for the code points 0 to 255.  The character predicates
      ([isspace], [isalnum], [lower], line boundaries) and the UTF-8
      encoding are the ones Python applies to these code points.
    - [datetime.datetime] is a record of its calendar fields with an
      optional UTC offset; naive values ([tzinfo is None]) have their own
      type [naive], which is what [to_naive_local] produces.
    - COM objects (messages, attachments, item collections, folders) are
      records of the attributes and methods the code touches.  An
      attribute that is there holds a value of its type; a missing one is
      [None].  A method that may raise returns an [option]; [None] stands
      for the exception.
    - Collaborators that are not part of the repository
      ([datetime.now], [astimezone], [email.utils.parsedate_to_datetime],
      [pathlib] joining, the file system, [json.loads]) are taken as
      parameters, bundled in [Env] or passed explicitly.
    - [hashlib.sha256] and a recogniser for the JSON grammar are written out
      so that concrete runs can be evaluated.
    - Effects (files written, log lines) are returned as a list of
      [event]s next to the ordinary result. *)

From Stdlib Require Import ZArith Lia Bool List Ascii String Sorted Permutation DecimalString.
From stdpp Require Import gmap strings list.
Import ListNotations.

Local Open Scope string_scope.
Local Open Scope list_scope.
Local Open Scope Z_scope.

(* ===================================================================== *)
(** * Python strings *)
(* ===================================================================== *)

Module PyStr.

Definition code (c : ascii) : Z := Z.of_N (N_of_ascii c).

Definition chr (z : Z) : ascii := ascii_of_N (Z.to_N z).

Definition in_range (lo hi : Z) (c : ascii) : bool :=
  (lo <=? code c) && (code c <=? hi).

(** [str.isspace] on one character: TAB, LF, VT, FF, CR, FS, GS, RS, US,
    the blank, NEL and the no-break space. *)
Definition isspace (c : ascii) : bool :=
  in_range 9 13 c || in_range 28 32 c || (code c =? 133) || (code c =? 160).

(** The line boundaries of [str.splitlines]: LF, VT, FF, CR, FS, GS, RS
    and NEL. *)
Definition is_linebreak (c : ascii) : bool :=
  in_range 10 13 c || in_range 28 30 c || (code c =? 133).

(** The digits [0] to [9]. *)
Definition is_ascii_digit (c : ascii) : bool := in_range 48 57 c.

(** The letters that [lower] changes: [A] to [Z], and the accented
    capitals 192 to 222 without the multiplication sign. *)
Definition isupper (c : ascii) : bool :=
  in_range 65 90 c || in_range 192 214 c || in_range 216 222 c.

(** [c.isalnum()]: the ASCII letters and digits, and among the code
    points above 127 the ordinal indicators, the superscript digits, the
    micro sign, the fractions and the accented letters. *)
Definition isalnum (c : ascii) : bool :=
  is_ascii_digit c || in_range 65 90 c || in_range 97 122 c ||
  (code c =? 170) || in_range 178 179 c || (code c =? 181) ||
  in_range 185 186 c || in_range 188 190 c ||
  in_range 192 214 c || in_range 216 246 c || in_range 248 255 c.

Definition lower_char (c : ascii) : ascii :=
  if isupper c then chr (code c + 32) else c.

(** [s.lower()] *)
Fixpoint lower (s : string) : string :=
  match s with
  | EmptyString => EmptyString
  | String c r => String (lower_char c) (lower r)
  end.

(** [s.lstrip()], [s.rstrip()], [s.strip()] *)
Fixpoint lstrip (s : string) : string :=
  match s with
  | EmptyString => EmptyString
  | String c r => if isspace c then lstrip r else s
  end.

Fixpoint rstrip (s : string) : string :=
  match s with
  | EmptyString => EmptyString
  | String c r =>
      match rstrip r with
      | EmptyString => if isspace c then EmptyString else String c EmptyString
      | r' => String c r'
      end
  end.

Definition strip (s : string) : string := lstrip (rstrip s).

(** [s.startswith(p)] *)
Definition startswith (p s : string) : bool := String.prefix p s.

(** [s.endswith(p)] *)
Definition endswith (p s : string) : bool :=
  let n := String.length s in
  let k := String.length p in
  (k <=? n)%nat && String.eqb (substring (n - k) k s) p.

(** [s.find(c)] and [s.rfind(c)] for a one-character needle: the index of
    the first (last) occurrence, [-1] when there is none. *)
Fixpoint find (c : ascii) (s : string) : Z :=
  match s with
  | EmptyString => -1
  | String d r =>
      if Ascii.eqb d c then 0
      else let i := find c r in if i <? 0 then -1 else i + 1
  end.

Fixpoint rfind (c : ascii) (s : string) : Z :=
  match s with
  | EmptyString => -1
  | String d r =>
      let i := rfind c r in
      if 0 <=? i then i + 1
      else if Ascii.eqb d c then 0 else -1
  end.

(** [s[a:b]] for indices that are not negative. *)
Definition slice (a b : Z) (s : string) : string :=
  substring (Z.to_nat a) (Z.to_nat (b - a)) s.

(** [s[:n]] *)
Definition take (n : nat) (s : string) : string := substring 0 n s.

(** [s.splitlines()]: CR LF counts as one boundary, and a final boundary
    does not open an empty last line. *)
Fixpoint splitlines (s : string) : list string :=
  match s with
  | EmptyString => []
  | String c r =>
      if is_linebreak c then
        match r with
        | String d r' =>
            if Ascii.eqb c "013" && Ascii.eqb d "010"
            then EmptyString :: splitlines r'
            else EmptyString :: splitlines r
        | EmptyString => [EmptyString]
        end
      else
        match splitlines r with
        | [] => [String c EmptyString]
        | l :: ls => String c l :: ls
        end
  end.

(** [s.split(c, 1)]: at most one cut, at the first [c]. *)
Fixpoint split1 (c : ascii) (s : string) : list string :=
  match s with
  | EmptyString => [EmptyString]
  | String d r =>
      if Ascii.eqb d c then [EmptyString; r]
      else match split1 c r with
           | h :: t => String d h :: t
           | [] => [String d EmptyString]
           end
  end.

(** [''.join(c for c in s if keep c)] *)
Fixpoint filter_chars (keep : ascii -> bool) (s : string) : string :=
  match s with
  | EmptyString => EmptyString
  | String c r =>
      if keep c then String c (filter_chars keep r) else filter_chars keep r
  end.

(** Truthiness of a string and of an optional string ([None] and [''] are
    both false). *)
Definition truthy (s : string) : bool := negb (String.eqb s EmptyString).

Definition otruthy (o : option string) : bool :=
  match o with Some s => truthy s | None => false end.

(** [a or b] on strings, and [getattr(obj, name, '') or b]. *)
Definition or_else (a b : string) : string := if truthy a then a else b.

Definition getattr_or (o : option string) (b : string) : string :=
  match o with Some s => or_else s b | None => b end.

(** Zero-padded decimal rendering on [w] digits ([%02d], [%04d], [%06d]). *)
Fixpoint zpad (w : nat) (n : Z) : string :=
  match w with
  | O => EmptyString
  | S w' => zpad w' (n / 10) +:+ String (chr (48 + n mod 10)) EmptyString
  end.

(** Two lower-case hexadecimal digits of a byte. *)
Definition hex_digit (n : Z) : ascii :=
  if n <? 10 then chr (48 + n) else chr (87 + n).

Definition hex_byte (b : Z) : string :=
  String (hex_digit (b / 16)) (String (hex_digit (b mod 16)) EmptyString).

(** [s.encode('utf-8')]: one byte for a code point below 128, two
    bytes for the others. *)
Definition encode_char (c : ascii) : list Z :=
  if code c <? 128 then [code c]
  else [192 + code c / 64; 128 + code c mod 64].

Fixpoint encode (s : string) : list Z :=
  match s with
  | EmptyString => []
  | String c r => encode_char c ++ encode r
  end.

End PyStr.

(* ===================================================================== *)
(** * hashlib.sha256 (FIPS 180-4) on byte lists *)
(* ===================================================================== *)

Module Sha256.

Definition mask32 (x : Z) : Z := Z.land x 4294967295.

Definition add32 (x y : Z) : Z := mask32 (x + y).

Definition rotr (n x : Z) : Z :=
  Z.lor (Z.shiftr x n) (mask32 (Z.shiftl x (32 - n))).

Definition shr (n x : Z) : Z := Z.shiftr x n.

Definition Ch (x y z : Z) : Z :=
  Z.lxor (Z.land x y) (Z.land (Z.lxor x 4294967295) z).

Definition Maj (x y z : Z) : Z :=
  Z.lxor (Z.lxor (Z.land x y) (Z.land x z)) (Z.land y z).

Definition Sigma0 (x : Z) : Z :=
  Z.lxor (Z.lxor (rotr 2 x) (rotr 13 x)) (rotr 22 x).

Definition Sigma1 (x : Z) : Z :=
  Z.lxor (Z.lxor (rotr 6 x) (rotr 11 x)) (rotr 25 x).

Definition sigma0 (x : Z) : Z :=
  Z.lxor (Z.lxor (rotr 7 x) (rotr 18 x)) (shr 3 x).

Definition sigma1 (x : Z) : Z :=
  Z.lxor (Z.lxor (rotr 17 x) (rotr 19 x)) (shr 10 x).

Definition K : list Z :=
  [ 1116352408; 1899447441; 3049323471; 3921009573;
    961987163; 1508970993; 2453635748; 2870763221;
    3624381080; 310598401; 607225278; 1426881987;
    1925078388; 2162078206; 2614888103; 3248222580;
    3835390401; 4022224774; 264347078; 604807628;
    770255983; 1249150122; 1555081692; 1996064986;
    2554220882; 2821834349; 2952996808; 3210313671;
    3336571891; 3584528711; 113926993; 338241895;
    666307205; 773529912; 1294757372; 1396182291;
    1695183700; 1986661051; 2177026350; 2456956037;
    2730485921; 2820302411; 3259730800; 3345764771;
    3516065817; 3600352804; 4094571909; 275423344;
    430227734; 506948616; 659060556; 883997877;
    958139571; 1322822218; 1537002063; 1747873779;
    1955562222; 2024104815; 2227730452; 2361852424;
    2428436474; 2756734187; 3204031479; 3329325298 ].

Definition H_init : list Z :=
  [ 1779033703; 3144134277; 1013904242; 2773480762;
    1359893119; 2600822924; 528734635; 1541459225 ].

(** Big-endian bytes of a number, on [n] bytes. *)
Fixpoint be_bytes (n : nat) (x : Z) : list Z :=
  match n with
  | O => []
  | S n' => be_bytes n' (Z.shiftr x 8) ++ [Z.land x 255]
  end.

(** Padding: a [1] bit, zeros up to 56 modulo 64 bytes, then the bit
    length on 64 bits. *)
Definition pad (msg : list Z) : list Z :=
  let len := Z.of_nat (length msg) in
  let zeros := Z.to_nat ((55 - len) mod 64) in
  msg ++ [128] ++ repeat 0 zeros ++ be_bytes 8 (8 * len).

(** The bytes cut into big-endian 32-bit words. *)
Fixpoint words (fuel : nat) (bs : list Z) : list Z :=
  match fuel with
  | O => []
  | S fuel' =>
      match bs with
      | b0 :: b1 :: b2 :: b3 :: rest =>
          (((b0 * 256 + b1) * 256 + b2) * 256 + b3) :: words fuel' rest
      | _ => []
      end
  end.

(** The words cut into blocks of sixteen. *)
Fixpoint blocks (fuel : nat) (ws : list Z) : list (list Z) :=
  match fuel with
  | O => []
  | S fuel' =>
      match ws with
      | [] => []
      | _ => firstn 16 ws :: blocks fuel' (skipn 16 ws)
      end
  end.

(** Message schedule, kept in reverse: the head is the latest word. *)
Fixpoint extend (n : nat) (rev_w : list Z) : list Z :=
  match n with
  | O => rev_w
  | S n' =>
      let w2 := nth 1 rev_w 0 in
      let w7 := nth 6 rev_w 0 in
      let w15 := nth 14 rev_w 0 in
      let w16 := nth 15 rev_w 0 in
      let w := add32 (add32 (add32 (sigma1 w2) w7) (sigma0 w15)) w16 in
      extend n' (w :: rev_w)
  end.

Definition schedule (block : list Z) : list Z :=
  rev (extend 48 (rev block)).

Record regs := Regs { ra : Z; rb : Z; rc : Z; rd : Z;
                      re : Z; rf : Z; rg : Z; rh : Z }.

Definition round (s : regs) (kw : Z * Z) : regs :=
  let t1 := add32 (add32 (add32 (add32 (rh s) (Sigma1 (re s)))
                                (Ch (re s) (rf s) (rg s))) (fst kw)) (snd kw) in
  let t2 := add32 (Sigma0 (ra s)) (Maj (ra s) (rb s) (rc s)) in
  Regs (add32 t1 t2) (ra s) (rb s) (rc s) (add32 (rd s) t1) (re s) (rf s) (rg s).

Definition regs_of (h : list Z) : regs :=
  Regs (nth 0 h 0) (nth 1 h 0) (nth 2 h 0) (nth 3 h 0)
       (nth 4 h 0) (nth 5 h 0) (nth 6 h 0) (nth 7 h 0).

Definition compress (h : list Z) (block : list Z) : list Z :=
  let s0 := regs_of h in
  let s := fold_left round (combine K (schedule block)) s0 in
  [ add32 (ra s0) (ra s); add32 (rb s0) (rb s);
    add32 (rc s0) (rc s); add32 (rd s0) (rd s);
    add32 (re s0) (re s); add32 (rf s0) (rf s);
    add32 (rg s0) (rg s); add32 (rh s0) (rh s) ].

Definition digest (msg : list Z) : list Z :=
  let bs := pad msg in
  let ws := words (length bs) bs in
  let h := fold_left compress (blocks (length ws) ws) H_init in
  flat_map (be_bytes 4) h.

(** [hashlib.sha256(data).hexdigest()] *)
Definition hexdigest (msg : list Z) : string :=
  fold_right (fun b acc => PyStr.hex_byte b +:+ acc) EmptyString (digest msg).

End Sha256.


(* ===================================================================== *)
(** * datetime.datetime *)
(* ===================================================================== *)

Module DateTime.

(** A naive datetime: the calendar fields, no time zone. *)
Record naive := Naive {
  year : Z; month : Z; day : Z;
  hour : Z; minute : Z; second : Z; microsecond : Z }.

(** A datetime as a collaborator hands it over: naive when [tzinfo] is
    [None], aware otherwise (the offset from UTC, in seconds). *)
Record datetime := DT { fields : naive; tzinfo : option Z }.

Definition tuple (a : naive) : list Z :=
  [year a; month a; day a; hour a; minute a; second a; microsecond a].

Fixpoint lex_compare (xs ys : list Z) : comparison :=
  match xs, ys with
  | [], [] => Eq
  | [], _ :: _ => Lt
  | _ :: _, [] => Gt
  | x :: xs', y :: ys' =>
      match x ?= y with
      | Eq => lex_compare xs' ys'
      | c => c
      end
  end.

(** Naive datetimes compare field by field, year first. *)
Definition compare (a b : naive) : comparison :=
  lex_compare (tuple a) (tuple b).

(** [a < b], [a > b], [a <= b], [a == b] *)
Definition ltb (a b : naive) : bool :=
  match compare a b with Lt => true | _ => false end.
Definition gtb (a b : naive) : bool := ltb b a.
Definition leb (a b : naive) : bool := negb (ltb b a).
Definition eqb (a b : naive) : bool :=
  match compare a b with Eq => true | _ => false end.

(** The builtins [min(a, b)] and [max(a, b)]: the first argument wins a
    tie. *)
Definition min2 (a b : naive) : naive := if ltb b a then b else a.
Definition max2 (a b : naive) : naive := if gtb b a then b else a.

(** [min(xs)] and [max(xs)] on a list whose first element is [x]. *)
Definition min_list (x : naive) (xs : list naive) : naive :=
  fold_left min2 xs x.
Definition max_list (x : naive) (xs : list naive) : naive :=
  fold_left max2 xs x.

Definition d2 := PyStr.zpad 2.
Definition d4 := PyStr.zpad 4.

(** [str(dt)] of a naive datetime: ISO format with a blank separator,
    the microseconds only when they are not zero. *)
Definition str (a : naive) : string :=
  d4 (year a) +:+ "-" +:+ d2 (month a) +:+ "-" +:+ d2 (day a) +:+ " " +:+
  d2 (hour a) +:+ ":" +:+ d2 (minute a) +:+ ":" +:+ d2 (second a) +:+
  (if microsecond a =? 0 then "" else "." +:+ PyStr.zpad 6 (microsecond a)).

(** The [strftime] formats the program uses. *)

(** ['%Y%m%d_%H%M%S'] *)
Definition fmt_compact (a : naive) : string :=
  d4 (year a) +:+ d2 (month a) +:+ d2 (day a) +:+ "_" +:+
  d2 (hour a) +:+ d2 (minute a) +:+ d2 (second a).

(** ['%Y-%m-%d %H:%M:%S'] *)
Definition fmt_iso (a : naive) : string :=
  d4 (year a) +:+ "-" +:+ d2 (month a) +:+ "-" +:+ d2 (day a) +:+ " " +:+
  d2 (hour a) +:+ ":" +:+ d2 (minute a) +:+ ":" +:+ d2 (second a).

(** ['%m/%d/%Y %I:%M %p'] *)
Definition hour12 (h : Z) : Z := if h mod 12 =? 0 then 12 else h mod 12.
Definition ampm (h : Z) : string := if h <? 12 then "AM" else "PM".
Definition fmt_us (a : naive) : string :=
  d2 (month a) +:+ "/" +:+ d2 (day a) +:+ "/" +:+ d4 (year a) +:+ " " +:+
  d2 (hour12 (hour a)) +:+ ":" +:+ d2 (minute a) +:+ " " +:+ ampm (hour a).

(** ['%y%m%d'] *)
Definition fmt_yymmdd (a : naive) : string :=
  d2 (year a mod 100) +:+ d2 (month a) +:+ d2 (day a).

End DateTime.

Import DateTime.

(* ===================================================================== *)
(** * Collaborators *)
(* ===================================================================== *)

(** What the program takes from its surroundings.

    - [astimezone d]: [d.astimezone()] on an aware datetime, the same
      instant on the local clock; [None] when the call raises.
    - [parsedate_to_datetime s]: [email.utils.parsedate_to_datetime];
      [None] when it raises or returns [None].
    - [joinpath dir name]: [str(dir / name)] of [pathlib].
    - [write_text_ok path]: whether the file at [path] can be opened for
      writing. *)
Record Env := {
  astimezone : datetime -> option datetime;
  parsedate_to_datetime : string -> option datetime;
  joinpath : string -> string -> string;
  write_text_ok : string -> bool }.

(** What the run leaves behind besides its result. *)
Inductive event :=
| EvWriteText (path content : string)
| EvSaveAsFile (name path : string)
| EvSetIncludeRecurrences
| EvSort
| EvRestrict (query : string)
| LogSkipAttachment (name ext : string)
| LogSaveFailed (name : string)
| LogDaslApplied (query : string)
| LogDaslFailed
| LogMapiApplied (query : string)
| LogMapiFailed
| LogOutOfWindow (raw_received : naive)
| LogSavedMail (txt : string)
| LogItemFailed
| LogDropDuplicate (mid : string).

(* ===================================================================== *)
(** * The mail store's objects *)
(* ===================================================================== *)

(** An attachment: its [FileName] ([None] when the attribute is missing)
    and the outcome of [SaveAsFile(path)] ([false] when it raises). *)
Record attachment := {
  FileName : option string;
  SaveAsFile : string -> bool }.

(** [msg.Attachments]: [AttCount] is [None] when reading [Count] raises,
    [AttItem i] is [None] when [Item(i)] raises. *)
Record attachment_collection := {
  AttCount : option Z;
  AttItem : Z -> option attachment }.

(** [msg.PropertyAccessor]: [GetProperty] is [None] when it raises. *)
Record property_accessor := {
  GetProperty : string -> option string }.

(** A raw message.  A field is [None] when [getattr] falls back to its
    default (the attribute is missing). *)
Record mail_item := {
  Subject : option string;
  ReceivedTime : option datetime;
  Body : option string;
  SenderName : option string;
  SenderEmailAddress : option string;
  InternetMessageID : option string;
  EntryID : option string;
  PropertyAccessor : option property_accessor;
  Attachments : option attachment_collection }.

(** Reading [Count] on an item collection. *)
Inductive count_attr :=
| CountIs (n : Z)
| CountMissing
| CountRaises.

#[local] Unset Elimination Schemes.

(** An item collection: [Item i] is [None] when [Item(i)] raises,
    [Restrict q] is [None] when the store rejects the filter [q]. *)
Inductive items :=
| Items (Count : count_attr)
        (Item : Z -> option mail_item)
        (Restrict : string -> option items).

#[local] Set Elimination Schemes.

Definition Count (it : items) : count_attr :=
  match it with Items c _ _ => c end.
Definition Item (it : items) : Z -> option mail_item :=
  match it with Items _ f _ => f end.
Definition Restrict (it : items) : string -> option items :=
  match it with Items _ _ r => r end.

(** A folder: [FolderItems] is [None] when it has no [Items]. *)
Record folder := { FolderItems : option items }.

(* ===================================================================== *)
(** * to_naive_local *)
(* ===================================================================== *)

(** The function on a datetime that is there: a naive one is returned as
    it is; an aware one is moved to the local clock and loses its zone, or
    only loses its zone when [astimezone] raises. *)
Definition to_naive_local_dt (env : Env) (d : datetime) : naive :=
  match tzinfo d with
  | None => fields d
  | Some _ =>
      match astimezone env d with
      | Some d' => fields d'
      | None => fields d
      end
  end.

(** The function itself: [None] stays [None]. *)
Definition to_naive_local (env : Env) (dt : option datetime) : option naive :=
  match dt with
  | None => None
  | Some d => Some (to_naive_local_dt env d)
  end.

(* ===================================================================== *)
(** * restrict_items_range *)
(* ===================================================================== *)

Definition dq : string := String "034" EmptyString.

Definition urn_datereceived : string :=
  dq +:+ "urn:schemas:httpmail:datereceived" +:+ dq.

(** The DASL filter on the two bounds, ISO-like. *)
Definition dasl_query (since_dt until_dt : naive) : string :=
  "@SQL=" +:+ urn_datereceived +:+ " >= '" +:+ fmt_iso since_dt +:+ "' " +:+
  "AND " +:+ urn_datereceived +:+ " <= '" +:+ fmt_iso until_dt +:+ "'".

(** The MAPI filter, month/day/year with AM or PM.  ([strftime] does not
    raise on these formats, so the date-only variant of the source's
    [except] branch is never built.) *)
Definition mapi_query (since_dt until_dt : naive) : string :=
  "[ReceivedTime] >= '" +:+ fmt_us since_dt +:+
  "' AND [ReceivedTime] <= '" +:+ fmt_us until_dt +:+ "'".

(** Step 2 of the resolver: the MAPI restriction, or the unfiltered
    collection when the store rejects it. *)
Definition restrict_mapi (its : items) (since_dt until_dt : naive)
  : items * list event :=
  let q := mapi_query since_dt until_dt in
  match Restrict its q with
  | Some filtered => (filtered, [EvRestrict q; LogMapiApplied q])
  | None => (its, [EvRestrict q; LogMapiFailed])
  end.

(** The whole resolver.  The DASL result is returned when its [Count] is
    positive or cannot be read; with a [Count] that is not positive the
    code goes on to step 2, as it does when the DASL restriction raises. *)
Definition restrict_items_range (f : folder) (since_dt until_dt : naive)
  : option items * list event :=
  match FolderItems f with
  | None => (None, [])
  | Some its =>
      let pre := [EvSetIncludeRecurrences; EvSort] in
      let dasl := dasl_query since_dt until_dt in
      let step2 := restrict_mapi its since_dt until_dt in
      match Restrict its dasl with
      | Some filtered =>
          let applied := pre ++ [EvRestrict dasl; LogDaslApplied dasl] in
          match Count filtered with
          | CountRaises => (Some filtered, applied)
          | CountIs n =>
              if 0 <? n then (Some filtered, applied)
              else (Some (fst step2), applied ++ snd step2)
          | CountMissing => (Some (fst step2), applied ++ snd step2)
          end
      | None =>
          (Some (fst step2), pre ++ [EvRestrict dasl; LogDaslFailed] ++ snd step2)
      end
  end.

(* ===================================================================== *)
(** * _parse_header_date_from_raw_headers *)
(* ===================================================================== *)

(** The loop over the header lines: the first line that starts with
    [date:] (any case) gives [line.split(':', 1)[1].strip()] and ends the
    loop. *)
Fixpoint first_date_line (lines : list string) : option string :=
  match lines with
  | [] => None
  | line :: rest =>
      if PyStr.startswith "date:" (PyStr.lower line)
      then Some (PyStr.strip (nth 1 (PyStr.split1 ":" line) EmptyString))
      else first_date_line rest
  end.

Definition _parse_header_date_from_raw_headers (env : Env) (raw_headers : string)
  : option naive :=
  if negb (PyStr.truthy raw_headers) then None
  else
    match first_date_line (PyStr.splitlines raw_headers) with
    | None => None
    | Some date_line =>
        if negb (PyStr.truthy date_line) then None
        else
          match parsedate_to_datetime env date_line with
          | None => None
          | Some dt => to_naive_local env (Some dt)
          end
    end.

(* ===================================================================== *)
(** * save_mail_and_attachments *)
(* ===================================================================== *)

(** The tuple the function returns:
    [(txt_path, saved_att, received, message_id, chosen_date, date_source)]. *)
Module Norm.
Record t := Make {
  txt_path : string;
  saved_att : list string;
  received : naive;
  message_id : string;
  chosen_date : naive;
  date_source : string }.
End Norm.

Definition nl : string := String "010" EmptyString.

(** [''.join(c for c in subj if c.isalnum() or c in ' _-').strip()[:100]] *)
Definition keep_in_name (c : ascii) : bool :=
  PyStr.isalnum c || Ascii.eqb c " " || Ascii.eqb c "_" || Ascii.eqb c "-".

Definition safe_subject (subj : string) : string :=
  PyStr.take 100 (PyStr.strip (PyStr.filter_chars keep_in_name subj)).

(** [os.path.splitext] of [ntpath]: the extension starts at the last dot
    when that dot comes after the last separator and some character
    between the two is not a dot. *)
Fixpoint has_non_dot (s : string) : bool :=
  match s with
  | EmptyString => false
  | String c r => negb (Ascii.eqb c ".") || has_non_dot r
  end.

Definition splitext (p : string) : string * string :=
  let sepIndex := Z.max (PyStr.rfind "\" p) (PyStr.rfind "/" p) in
  let dotIndex := PyStr.rfind "." p in
  if (sepIndex <? dotIndex) && has_non_dot (PyStr.slice (sepIndex + 1) dotIndex p)
  then (PyStr.slice 0 dotIndex p,
        PyStr.slice dotIndex (Z.of_nat (String.length p)) p)
  else (p, EmptyString).

Definition allowed_exts : list string :=
  [".pdf"; ".docx"; ".doc"; ".xlsx"; ".xls"; ".pptx"; ".ppt"; ".txt"; ".csv"].

Definition str_in (x : string) (l : list string) : bool :=
  existsb (String.eqb x) l.

(** [ext.lower() in allowed_exts] for the extension of [att_name]. *)
Definition ext_allowed (att_name : string) : bool :=
  str_in (PyStr.lower (snd (splitext att_name))) allowed_exts.

(** One turn of the attachment loop, after [attachments.Item(i)] has
    returned [att]: the paths appended to [saved_att] and the events. *)
Definition save_one_attachment (env : Env) (outdir base_name : string)
    (att : attachment) : list string * list event :=
  match FileName att with
  | None => ([], [])
  | Some att_name =>
      if negb (PyStr.truthy att_name) then ([], [])
      else if negb (ext_allowed att_name)
      then ([], [LogSkipAttachment att_name (snd (splitext att_name))])
      else
        let att_path := joinpath env outdir (base_name +:+ "_" +:+ att_name) in
        if SaveAsFile att att_path
        then ([att_path], [EvSaveAsFile att_name att_path])
        else ([], [LogSaveFailed att_name])
  end.

(** [range(1, count + 1)] *)
Definition range1 (count : Z) : list Z :=
  map Z.of_nat (seq 1 (Z.to_nat count)).

(** The attachment loop over the indices; [None] when [Item(i)] raises,
    which ends the function. *)
Fixpoint save_attachments (env : Env) (outdir base_name : string)
    (atts : attachment_collection) (idxs : list Z)
  : option (list string) * list event :=
  match idxs with
  | [] => (Some [], [])
  | i :: rest =>
      match AttItem atts i with
      | None => (None, [])
      | Some att =>
          let step := save_one_attachment env outdir base_name att in
          let tail := save_attachments env outdir base_name atts rest in
          (option_map (app (fst step)) (fst tail), snd step ++ snd tail)
      end
  end.

(** [count = attachments.Count], [0] when reading it raises. *)
Definition attachment_count (atts : attachment_collection) : Z :=
  match AttCount atts with Some n => n | None => 0 end.

Definition PR_TRANSPORT_MESSAGE_HEADERS : string :=
  "http://schemas.microsoft.com/mapi/proptag/0x007D001E".

(** The raw header block, when the message has a property accessor and
    reading the property does not raise. *)
Definition raw_headers_of (msg : mail_item) : option string :=
  match PropertyAccessor msg with
  | None => None
  | Some pa => GetProperty pa PR_TRANSPORT_MESSAGE_HEADERS
  end.

(** [parsed_header_date] of the source: the header date, when there is a
    non-empty header block and a date is read from it. *)
Definition parsed_header_date (env : Env) (msg : mail_item) : option naive :=
  match raw_headers_of msg with
  | None => None
  | Some raw_headers =>
      if PyStr.truthy raw_headers
      then _parse_header_date_from_raw_headers env raw_headers
      else None
  end.

(** [received]: the receipt time on the local clock, the current time
    [now] when the message has no [ReceivedTime]. *)
Definition received_of (env : Env) (now : naive) (msg : mail_item) : naive :=
  to_naive_local_dt env
    (match ReceivedTime msg with Some d => d | None => DT now None end).

(** The key the fallback identity hashes. *)
Definition fingerprint_key (subj sender : string) (received : naive)
    (body : string) : string :=
  subj +:+ "|" +:+ sender +:+ "|" +:+ DateTime.str received +:+ "|" +:+
  PyStr.take 500 body.

(** [message_id]: the internet message id, else the entry id, else the
    SHA-256 of the fingerprint key. *)
Definition identity_of (msg : mail_item) (subj : string) (received : naive)
    (body : string) : string :=
  if PyStr.otruthy (InternetMessageID msg)
  then PyStr.getattr_or (InternetMessageID msg) EmptyString
  else if PyStr.otruthy (EntryID msg)
  then PyStr.getattr_or (EntryID msg) EmptyString
  else
    let sender :=
      PyStr.or_else (PyStr.getattr_or (SenderEmailAddress msg) EmptyString)
        (PyStr.getattr_or (SenderName msg) EmptyString) in
    Sha256.hexdigest (PyStr.encode (fingerprint_key subj sender received body)).

(** [now] is what [datetime.datetime.now()] returns during the call. *)
Definition save_mail_and_attachments (env : Env) (now : naive)
    (msg : mail_item) (outdir : string) : option Norm.t * list event :=
  let subj := PyStr.getattr_or (Subject msg) "no_subject" in
  let received := received_of env now msg in
  let safe_subj := safe_subject subj in
  let base_name := fmt_compact received +:+ "_" +:+ safe_subj in
  let txt_path := joinpath env outdir (base_name +:+ ".txt") in
  let body := PyStr.getattr_or (Body msg) EmptyString in
  if negb (write_text_ok env txt_path) then (None, [])
  else
    let content :=
      "Subject: " +:+ subj +:+ nl +:+
      "From: " +:+ match SenderName msg with Some s => s | None => EmptyString end
               +:+ nl +:+
      "Received: " +:+ DateTime.str received +:+ nl +:+ nl +:+ body in
    let written := [EvWriteText txt_path content] in
    let message_id := identity_of msg subj received body in
    let parsed := parsed_header_date env msg in
    let date_source :=
      match parsed with Some _ => "header_date" | None => "received_time" end in
    let chosen_date := match parsed with Some d => d | None => received end in
    let atts :=
      match Attachments msg with
      | None => (Some [], [])
      | Some a =>
          save_attachments env outdir base_name a (range1 (attachment_count a))
      end in
    match fst atts with
    | None => (None, written ++ snd atts)
    | Some saved_att =>
        (Some (Norm.Make txt_path saved_att received message_id chosen_date
                         date_source),
         written ++ snd atts)
    end.

(* ===================================================================== *)
(** * main: collecting the window's messages *)
(* ===================================================================== *)

(** One dictionary of [saved_emails].  A field read with [rec.get] is an
    [option]: [None] when the key is missing or holds [None]. *)
Record saved_email := {
  txt : string;
  attachments : list string;
  received : option naive;
  message_id : option string;
  date_source : string;
  raw_received : option naive;
  chosen_date : option naive }.

Definition record_of (r : Norm.t) : saved_email :=
  {| txt := Norm.txt_path r;
     attachments := Norm.saved_att r;
     received := Some (Norm.chosen_date r);
     message_id := Some (Norm.message_id r);
     date_source := Norm.date_source r;
     raw_received := Some (Norm.received r);
     chosen_date := Some (Norm.chosen_date r) |}.

(** What happened to one item of the collection. *)
Inductive outcome :=
| NoReceivedTime
| OutOfWindow (raw_received : naive)
| Failed
| Saved (rec : saved_email).

(** The body of the loop for a message [msg]; [until] is the [now] of the
    source at that point. *)
Definition process_item (env : Env) (now since until : naive)
    (outdir : string) (msg : mail_item) : outcome * list event :=
  match to_naive_local env (ReceivedTime msg) with
  | None => (NoReceivedTime, [])
  | Some raw_received =>
      if ltb raw_received since || gtb raw_received until
      then (OutOfWindow raw_received, [LogOutOfWindow raw_received])
      else
        match save_mail_and_attachments env now msg outdir with
        | (Some r, ev) => (Saved (record_of r), ev ++ [LogSavedMail (Norm.txt_path r)])
        | (None, ev) => (Failed, ev ++ [LogItemFailed])
        end
  end.

Definition kept (o : outcome) : list saved_email :=
  match o with Saved rec => [rec] | _ => [] end.

(** The loop over [range(1, count + 1)]; [clock i] is the time read while
    item [i] is processed. *)
Fixpoint collect_loop (env : Env) (clock : Z -> naive) (since until : naive)
    (outdir : string) (its : items) (idxs : list Z)
  : list saved_email * list event :=
  match idxs with
  | [] => ([], [])
  | i :: rest =>
      let step :=
        match Item its i with
        | None => ([], [])
        | Some msg =>
            let r := process_item env (clock i) since until outdir msg in
            (kept (fst r), snd r)
        end in
      let tail := collect_loop env clock since until outdir its rest in
      (fst step ++ fst tail, snd step ++ snd tail)
  end.

(** [getattr(items, 'Count', 0) or 0]; [None] when reading [Count] raises,
    which ends the run. *)
Definition item_count (its : option items) : option Z :=
  match its with
  | None => Some 0
  | Some it =>
      match Count it with
      | CountIs n => Some n
      | CountMissing => Some 0
      | CountRaises => None
      end
  end.

Definition collect (env : Env) (clock : Z -> naive) (since until : naive)
    (outdir : string) (its : option items)
  : option (list saved_email) * list event :=
  match item_count its with
  | None => (None, [])
  | Some count =>
      match its with
      | None => (Some [], [])
      | Some it =>
          let r := collect_loop env clock since until outdir it (range1 count) in
          (Some (fst r), snd r)
      end
  end.

(** The resolver followed by the loop, as [main] chains them. *)
Definition fetch (env : Env) (clock : Z -> naive) (since until : naive)
    (outdir : string) (f : folder)
  : option (list saved_email) * list event :=
  let r := restrict_items_range f since until in
  let c := collect env clock since until outdir (fst r) in
  (fst c, snd r ++ snd c).

(* ===================================================================== *)
(** * main: deduplication, ordering, period label *)
(* ===================================================================== *)

(** One turn of the deduplication loop; the state is the dictionary
    [unique], the list [deduped] and the log. *)
Definition dedupe_step
    (st : gmap string bool * list saved_email * list event)
    (rec : saved_email) : gmap string bool * list saved_email * list event :=
  let '(unique, deduped, log) := st in
  if negb (PyStr.otruthy (message_id rec)) then (unique, deduped ++ [rec], log)
  else
    let mid := PyStr.getattr_or (message_id rec) EmptyString in
    match unique !! mid with
    | Some _ => (unique, deduped, log ++ [LogDropDuplicate mid])
    | None => (<[mid := true]> unique, deduped ++ [rec], log)
    end.

Definition dedupe_loop (saved_emails : list saved_email)
  : gmap string bool * list saved_email * list event :=
  fold_left dedupe_step saved_emails (∅, [], []).

Definition dedupe (saved_emails : list saved_email) : list saved_email :=
  snd (fst (dedupe_loop saved_emails)).

(** [list.sort(key=...)]: a stable sort that compares keys with [<] only.
    An element goes in front of the first one whose key is not smaller
    than its own. *)
Section ListSort.
Context {A K : Type} (lt : K -> K -> bool) (key : A -> K).

Fixpoint sort_insert (x : A) (l : list A) : list A :=
  match l with
  | [] => [x]
  | y :: l' =>
      if lt (key y) (key x) then y :: sort_insert x l' else x :: y :: l'
  end.

Fixpoint list_sort (l : list A) : list A :=
  match l with
  | [] => []
  | x :: l' => sort_insert x (list_sort l')
  end.
End ListSort.

(** [r.get('received') or since] *)
Definition sort_key (since : naive) (r : saved_email) : naive :=
  match received r with Some d => d | None => since end.

Definition sort_by_received (since : naive) (saved_emails : list saved_email)
  : list saved_email :=
  list_sort ltb (sort_key since) saved_emails.

(** [[r.get('received') for r in saved_emails if r.get('received')]] *)
Definition dates_of (saved_emails : list saved_email) : list naive :=
  omap received saved_emails.

(** [start_dt] and [end_dt], [since] and [until] when there is no date. *)
Definition period_bounds (since until : naive) (saved_emails : list saved_email)
  : naive * naive :=
  match dates_of saved_emails with
  | [] => (since, until)
  | d :: ds => (max2 (min_list d ds) since, min2 (max_list d ds) until)
  end.

(** [start] and [end], the two ['%y%m%d'] labels. *)
Definition period_labels (since until : naive) (saved_emails : list saved_email)
  : string * string :=
  let b := period_bounds since until saved_emails in
  (fmt_yymmdd (fst b), fmt_yymmdd (snd b)).

Definition report_basename (since until : naive) (saved_emails : list saved_email)
  : string :=
  let l := period_labels since until saved_emails in
  "Weekly_report_" +:+ fst l +:+ "-" +:+ snd l.

(** Deduplication, ordering and label, in the order of [main]. *)
Definition aggregate (since until : naive) (saved_emails : list saved_email)
  : list saved_email * (naive * naive) :=
  let sorted := sort_by_received since (dedupe saved_emails) in
  (sorted, period_bounds since until sorted).

(* ===================================================================== *)
(** * The JSON grammar of json.loads *)
(* ===================================================================== *)

(** A recogniser for the texts [json.loads] accepts, after the scanner of
    the [json] module.  The properties below hold for any such test; this
    one serves to run them.  Limits on nesting depth and on the length of
    integers are not part of it. *)

Module Json.

Definition is_ws (c : ascii) : bool :=
  Ascii.eqb c " " || Ascii.eqb c "009" || Ascii.eqb c "010" || Ascii.eqb c "013".

Fixpoint skip_ws (s : string) : string :=
  match s with
  | String c r => if is_ws c then skip_ws r else s
  | EmptyString => EmptyString
  end.

Definition is_hex (c : ascii) : bool :=
  PyStr.is_ascii_digit c || PyStr.in_range 65 70 c || PyStr.in_range 97 102 c.

Definition is_escape (c : ascii) : bool :=
  Ascii.eqb c "034" || Ascii.eqb c "\" || Ascii.eqb c "/" || Ascii.eqb c "b" ||
  Ascii.eqb c "f" || Ascii.eqb c "n" || Ascii.eqb c "r" || Ascii.eqb c "t".

(** The rest of the text after the closing quote of a string whose
    opening quote has been read. *)
Fixpoint scan_string (s : string) : option string :=
  match s with
  | EmptyString => None
  | String c r =>
      if Ascii.eqb c "034" then Some r
      else if PyStr.code c <? 32 then None
      else if Ascii.eqb c "\" then
        match r with
        | String e r' =>
            if Ascii.eqb e "u" then
              match r' with
              | String h1 (String h2 (String h3 (String h4 r''))) =>
                  if is_hex h1 && is_hex h2 && is_hex h3 && is_hex h4
                  then scan_string r'' else None
              | _ => None
              end
            else if is_escape e then scan_string r' else None
        | EmptyString => None
        end
      else scan_string r
  end.

Fixpoint skip_digits (s : string) : string :=
  match s with
  | String c r => if PyStr.is_ascii_digit c then skip_digits r else s
  | EmptyString => EmptyString
  end.

Definition starts_digit (s : string) : bool :=
  match s with String c _ => PyStr.is_ascii_digit c | EmptyString => false end.

(** An optional minus sign, then a single zero or a digit other than
    zero followed by any digits. *)
Definition scan_int (s : string) : option string :=
  let s1 := match s with
            | String c r => if Ascii.eqb c "-" then r else s
            | EmptyString => s
            end in
  match s1 with
  | String c r =>
      if Ascii.eqb c "0" then Some r
      else if PyStr.is_ascii_digit c then Some (skip_digits r) else None
  | EmptyString => None
  end.

(** An optional fraction: a dot and at least one digit. *)
Definition scan_frac (s : string) : string :=
  match s with
  | String c r =>
      if Ascii.eqb c "." && starts_digit r then skip_digits r else s
  | EmptyString => s
  end.

(** An optional exponent: e or E, an optional sign, at least one digit. *)
Definition scan_exp (s : string) : string :=
  match s with
  | String c r =>
      if Ascii.eqb c "e" || Ascii.eqb c "E" then
        let r1 := match r with
                  | String g r' =>
                      if Ascii.eqb g "+" || Ascii.eqb g "-" then r' else r
                  | EmptyString => r
                  end in
        if starts_digit r1 then skip_digits r1 else s
      else s
  | EmptyString => s
  end.

Definition scan_number (s : string) : option string :=
  option_map (fun r => scan_exp (scan_frac r)) (scan_int s).

(** [s] without the prefix [p], when it has it. *)
Fixpoint drop_prefix (p s : string) : option string :=
  match p, s with
  | EmptyString, _ => Some s
  | String a p', String b s' =>
      if Ascii.eqb a b then drop_prefix p' s' else None
  | String _ _, EmptyString => None
  end.

Definition first_some (a b : option string) : option string :=
  match a with Some _ => a | None => b end.

(** The constants and numbers, tried in the scanner's order. *)
Definition scan_atom (s : string) : option string :=
  first_some (drop_prefix "null" s)
 (first_some (drop_prefix "true" s)
 (first_some (drop_prefix "false" s)
 (first_some (scan_number s)
 (first_some (drop_prefix "NaN" s)
 (first_some (drop_prefix "Infinity" s)
             (drop_prefix "-Infinity" s)))))).

Inductive mode := Value | ArrayElems | ObjectMembers.

(** The rest of the text after one value ([Value]), after the elements
    and the closing bracket of an array ([ArrayElems], at the start of an
    element), or after the members and the closing brace of an object
    ([ObjectMembers], at the quote of a key). *)
Fixpoint scan (fuel : nat) (m : mode) (s : string) : option string :=
  match fuel with
  | O => None
  | S f =>
      match m with
      | Value =>
          match s with
          | EmptyString => None
          | String c r =>
              if Ascii.eqb c "034" then scan_string r
              else if Ascii.eqb c "{" then
                match skip_ws r with
                | String d r2 =>
                    if Ascii.eqb d "}" then Some r2
                    else if Ascii.eqb d "034" then scan f ObjectMembers (String d r2)
                    else None
                | EmptyString => None
                end
              else if Ascii.eqb c "[" then
                match skip_ws r with
                | String d r2 =>
                    if Ascii.eqb d "]" then Some r2
                    else scan f ArrayElems (String d r2)
                | EmptyString => None
                end
              else scan_atom s
          end
      | ArrayElems =>
          match scan f Value s with
          | None => None
          | Some r =>
              match skip_ws r with
              | String d r2 =>
                  if Ascii.eqb d "]" then Some r2
                  else if Ascii.eqb d "," then scan f ArrayElems (skip_ws r2)
                  else None
              | EmptyString => None
              end
          end
      | ObjectMembers =>
          match s with
          | String q r =>
              if Ascii.eqb q "034" then
                match scan_string r with
                | None => None
                | Some r1 =>
                    match skip_ws r1 with
                    | String d r2 =>
                        if Ascii.eqb d ":" then
                          match scan f Value (skip_ws r2) with
                          | None => None
                          | Some r3 =>
                              match skip_ws r3 with
                              | String e r4 =>
                                  if Ascii.eqb e "}" then Some r4
                                  else if Ascii.eqb e ","
                                  then scan f ObjectMembers (skip_ws r4)
                                  else None
                              | EmptyString => None
                              end
                          end
                        else None
                    | EmptyString => None
                    end
                end
              else None
          | EmptyString => None
          end
      end
  end.

(** Whether [json.loads(s)] returns: one value, surrounded by white
    space only. *)
Definition loads_ok (s : string) : bool :=
  match scan (2 * String.length s + 2) Value (skip_ws s) with
  | Some r => String.eqb (skip_ws r) EmptyString
  | None => false
  end.

End Json.

(* ===================================================================== *)
(** * The extraction stage's handling of the response *)
(* ===================================================================== *)

(** [re.search(r'\{.*\}', text, re.S)]: the leftmost opening brace that has
    a closing brace after it, up to the last closing brace. *)
Fixpoint re_search_brace_block (text : string) : option string :=
  match text with
  | EmptyString => None
  | String c r =>
      if Ascii.eqb c "{" && (0 <=? PyStr.rfind "}" r)
      then Some (String c (PyStr.slice 0 (PyStr.rfind "}" r + 1) r))
      else re_search_brace_block r
  end.

(** [json_loads_ok s] tells whether [json.loads(s)] returns. *)
Definition _extract_first_json_block (json_loads_ok : string -> bool)
    (text : string) : string :=
  let start := PyStr.find "{" text in
  let end_ := PyStr.rfind "}" text in
  let candidate := PyStr.slice start (end_ + 1) text in
  if negb (start =? -1) && negb (end_ =? -1) && (start <? end_)
     && json_loads_ok candidate
  then candidate
  else
    match re_search_brace_block text with
    | Some m => if json_loads_ok m then m else m
    | None => text
    end.

(** What [call_openai_extract_updates] does with the response [content]. *)
Definition extractor_json_text (json_loads_ok : string -> bool)
    (content : string) : string :=
  let json_text := PyStr.strip content in
  if json_loads_ok json_text then json_text
  else _extract_first_json_block json_loads_ok json_text.

(** [generate user_text] is the text-generation collaborator's answer to
    the user message built around [user_text], [None] when the call
    raises. *)
Definition call_openai_extract_updates (json_loads_ok : string -> bool)
    (generate : string -> option string) (raw_text file_label : string)
  : option string :=
  let raw_with_hint := "[[FILE:" +:+ file_label +:+ "]]" +:+ nl +:+ raw_text in
  match generate raw_with_hint with
  | None => None
  | Some content => Some (extractor_json_text json_loads_ok content)
  end.

(* ===================================================================== *)
(** * A concrete store, used to run the definitions *)
(* ===================================================================== *)

Module Scenario.

(** A local clock ten hours ahead of UTC.  The conversion is defined
    when it stays within the day and raises otherwise. *)
Definition local_offset : Z := 36000.

Definition local_astimezone (d : datetime) : option datetime :=
  let a := fields d in
  let off := match tzinfo d with Some o => o | None => local_offset end in
  let secs := hour a * 3600 + minute a * 60 + second a + (local_offset - off) in
  if (0 <=? secs) && (secs <? 86400)
  then Some (DT (Naive (year a) (month a) (day a)
                       (secs / 3600) (secs / 60 mod 60) (secs mod 60)
                       (microsecond a))
                (Some local_offset))
  else None.

(** The two header dates that occur below. *)
Definition table_parsedate (s : string) : option datetime :=
  if String.eqb s "Fri, 15 Aug 2025 09:30:00 +1000"
  then Some (DT (Naive 2025 8 15 9 30 0 0) (Some 36000))
  else if String.eqb s "Tue, 05 Aug 2025 01:15:00 +0000"
  then Some (DT (Naive 2025 8 5 1 15 0 0) (Some 0))
  else None.

Definition win_joinpath (dir name : string) : string := dir +:+ "\" +:+ name.

Definition env : Env :=
  {| astimezone := local_astimezone;
     parsedate_to_datetime := table_parsedate;
     joinpath := win_joinpath;
     write_text_ok := fun _ => true |}.

Definition outdir : string := "C:\out\20250807_policy".

Definition since : naive := Naive 2025 8 1 0 0 0 0.
Definition until : naive := Naive 2025 8 7 23 59 59 999999.
Definition clock : naive := Naive 2025 8 8 9 0 0 0.

Definition utc (y mo d h mi s : Z) : datetime :=
  DT (Naive y mo d h mi s 0) (Some 0).

Definition crlf : string := String "013" (String "010" EmptyString).

Definition headers (date : string) : property_accessor :=
  {| GetProperty := fun name =>
       if String.eqb name PR_TRANSPORT_MESSAGE_HEADERS
       then Some ("Received: from mx.example" +:+ crlf +:+
                  "DATE: " +:+ date +:+ crlf +:+
                  "Subject: Rate change" +:+ crlf)
       else None |}.

Definition saves (ok : bool) (name : string) : attachment :=
  {| FileName := Some name; SaveAsFile := fun _ => ok |}.

Definition three_attachments : attachment_collection :=
  {| AttCount := Some 3;
     AttItem := fun i =>
       if i =? 1 then Some (saves true "report.PDF")
       else if i =? 2 then Some (saves true "report.exe")
       else if i =? 3 then Some (saves true "report.pdf")
       else None |}.

Definition one_failing_attachment : attachment_collection :=
  {| AttCount := Some 1;
     AttItem := fun i =>
       if i =? 1 then Some (saves false "report.pdf") else None |}.

(** Received on 5 August (local clock), header date 15 August, no
    identifier from the store. *)
Definition misdated : mail_item :=
  {| Subject := Some "Rate change";
     ReceivedTime := Some (utc 2025 8 5 0 30 0);
     Body := Some "Variable rates rise by 0.10% from 18 August.";
     SenderName := Some "Lender Updates";
     SenderEmailAddress := Some "updates@lender.example";
     InternetMessageID := None;
     EntryID := None;
     PropertyAccessor := Some (headers "Fri, 15 Aug 2025 09:30:00 +1000");
     Attachments := Some three_attachments |}.

(** The same content and header date, received two hours later. *)
Definition misdated_again : mail_item :=
  {| Subject := Subject misdated;
     ReceivedTime := Some (utc 2025 8 5 2 30 0);
     Body := Body misdated;
     SenderName := SenderName misdated;
     SenderEmailAddress := SenderEmailAddress misdated;
     InternetMessageID := None;
     EntryID := None;
     PropertyAccessor := PropertyAccessor misdated;
     Attachments := None |}.

(** No header block, an entry id, received inside the window. *)
Definition plain : mail_item :=
  {| Subject := Some "Fee schedule";
     ReceivedTime := Some (utc 2025 8 3 4 0 0);
     Body := Some "New fee schedule attached.";
     SenderName := Some "Lender Updates";
     SenderEmailAddress := None;
     InternetMessageID := None;
     EntryID := Some "00000000A1B2";
     PropertyAccessor := None;
     Attachments := Some one_failing_attachment |}.

(** Received on 20 July, before the window. *)
Definition stale : mail_item :=
  {| Subject := Some "Old news";
     ReceivedTime := Some (utc 2025 7 20 3 0 0);
     Body := None;
     SenderName := None;
     SenderEmailAddress := None;
     InternetMessageID := None;
     EntryID := Some "00000000FFFF";
     PropertyAccessor := None;
     Attachments := None |}.

(** No receipt time, no header block, no identifier. *)
Definition undated : mail_item :=
  {| Subject := None;
     ReceivedTime := None;
     Body := None;
     SenderName := None;
     SenderEmailAddress := None;
     InternetMessageID := None;
     EntryID := None;
     PropertyAccessor := None;
     Attachments := None |}.

Definition listing (msgs : list mail_item)
    (restrict : string -> option items) : items :=
  Items (CountIs (Z.of_nat (length msgs)))
        (fun i => if 1 <=? i then nth_error msgs (Z.to_nat (i - 1)) else None)
        restrict.

Definition no_restrict : string -> option items := fun _ => None.

(** A store that rejects both filters: the whole folder comes back. *)
Definition unfiltered_inbox : folder :=
  {| FolderItems := Some (listing [stale; misdated; plain] no_restrict) |}.

(** A store whose DASL filter answers an empty collection without an
    error, and whose MAPI filter finds two messages (one of them outside
    the window). *)
Definition empty_dasl_inbox : folder :=
  {| FolderItems :=
       Some (listing [stale; misdated; plain]
               (fun q =>
                  if String.eqb q (dasl_query since until)
                  then Some (listing [] no_restrict)
                  else if String.eqb q (mapi_query since until)
                  then Some (listing [misdated; stale] no_restrict)
                  else None)) |}.

(** A store whose DASL filter answers, but lets a stale message through. *)
Definition leaky_dasl_inbox : folder :=
  {| FolderItems :=
       Some (listing [stale; misdated; plain]
               (fun q =>
                  if String.eqb q (dasl_query since until)
                  then Some (listing [plain; stale] no_restrict)
                  else None)) |}.

(** The run of [main]'s loop on the unfiltered folder. *)
Definition fetch_unfiltered : option (list saved_email) * list event :=
  fetch env (fun _ => clock) since until outdir unfiltered_inbox.

Definition record (id : option string) (day : Z) : saved_email :=
  {| txt := "mail.txt";
     attachments := [];
     received := Some (Naive 2025 8 day 12 0 0 0);
     message_id := id;
     date_source := "received_time";
     raw_received := Some (Naive 2025 8 day 12 0 0 0);
     chosen_date := Some (Naive 2025 8 day 12 0 0 0) |}.

(** A record that carries no timestamp. *)
Definition timeless (id : option string) : saved_email :=
  {| txt := "mail.txt";
     attachments := [];
     received := None;
     message_id := id;
     date_source := "mock";
     raw_received := None;
     chosen_date := None |}.

End Scenario.

(* ===================================================================== *)
(** * Vocabulary of the properties *)
(* ===================================================================== *)

(** [x] may stand before [y] in a sorted list: the key of [y] is not
    smaller than the key of [x]. *)
Definition key_le {A K : Type} (lt : K -> K -> bool) (key : A -> K)
    (x y : A) : Prop :=
  lt (key y) (key x) = false.

(** The elements whose key is [k]. *)
Definition with_key {A K : Type} (key : A -> K) (keq : K -> K -> bool)
    (k : K) (r : A) : bool :=
  keq (key r) k.

(** The effective timestamp of [a] is not after that of [b]. *)
Definition effective_le (since : naive) (a b : saved_email) : Prop :=
  leb (sort_key since a) (sort_key since b) = true.

Definition same_effective (since k : naive) (r : saved_email) : bool :=
  DateTime.eqb (sort_key since r) k.

(** A record has no identity when [message_id] is missing or empty. *)
Definition no_identity (r : saved_email) : bool :=
  negb (PyStr.otruthy (message_id r)).

(** A record has the identity [m]. *)
Definition has_identity (m : string) (r : saved_email) : bool :=
  PyStr.otruthy (message_id r) &&
  String.eqb (PyStr.getattr_or (message_id r) EmptyString) m.

(** The records the loop appends when it starts with the dictionary
    [unique]. *)
Fixpoint dedupe_from (unique : gmap string bool) (l : list saved_email)
  : list saved_email :=
  match l with
  | [] => []
  | r :: l' =>
      if no_identity r then r :: dedupe_from unique l'
      else
        let mid := PyStr.getattr_or (message_id r) EmptyString in
        match unique !! mid with
        | Some _ => dedupe_from unique l'
        | None => r :: dedupe_from (<[mid := true]> unique) l'
        end
  end.

(** The header block of [msg] has a date line that the parser reads as
    [dt]: the block is there, its first line that starts with [date:]
    has a non-empty value, and [parsedate_to_datetime] accepts that
    value. *)
Definition header_date_parses (env : Env) (msg : mail_item) (dt : datetime)
  : Prop :=
  exists raw_headers date_line,
    raw_headers_of msg = Some raw_headers /\
    first_date_line (PyStr.splitlines raw_headers) = Some date_line /\
    date_line <> EmptyString /\
    parsedate_to_datetime env date_line = Some dt.

(** The four components of the fallback identity, as the code reads
    them from the message. *)
Definition subject_of (msg : mail_item) : string :=
  PyStr.getattr_or (Subject msg) "no_subject".

Definition sender_of (msg : mail_item) : string :=
  PyStr.or_else (PyStr.getattr_or (SenderEmailAddress msg) EmptyString)
    (PyStr.getattr_or (SenderName msg) EmptyString).

Definition body_of (msg : mail_item) : string :=
  PyStr.getattr_or (Body msg) EmptyString.

(** Neither an internet message id nor an entry id. *)
Definition lacks_provider_ids (msg : mail_item) : bool :=
  negb (PyStr.otruthy (InternetMessageID msg)) &&
  negb (PyStr.otruthy (EntryID msg)).

(** The records one item of the collection [its] contributes. *)
Definition item_records (env : Env) (clock : Z -> naive) (since until : naive)
    (outdir : string) (its : items) (i : Z) : list saved_email :=
  match Item its i with
  | Some msg => kept (fst (process_item env (clock i) since until outdir msg))
  | None => []
  end.

(** The resolver called the store's [Restrict] with the MAPI filter. *)
Definition legacy_attempted (since until : naive) (trace : list event) : Prop :=
  In (EvRestrict (mapi_query since until)) trace.

(** What step 2 of the resolver returns for the collection [its]. *)
Definition legacy_result (its : items) (since until : naive) : items :=
  match Restrict its (mapi_query since until) with
  | Some filtered => filtered
  | None => its
  end.

(** The text has an opening brace with a closing brace after it. *)
Definition has_brace_block (text : string) : bool :=
  (0 <=? PyStr.find "{" text) && (PyStr.find "{" text <? PyStr.rfind "}" text).

(** The text from its first opening brace to its last closing brace. *)
Definition brace_block (text : string) : string :=
  PyStr.slice (PyStr.find "{" text) (PyStr.rfind "}" text + 1) text.

(** [base_name] of the source: the receipt time and the cleaned subject. *)
Definition base_name_of (env : Env) (now : naive) (msg : mail_item) : string :=
  fmt_compact (received_of env now msg) +:+ "_" +:+ safe_subject (subject_of msg).

(** The path an attachment called [att_name] is saved under. *)
Definition att_path_of (env : Env) (outdir base_name att_name : string)
  : string :=
  joinpath env outdir (base_name +:+ "_" +:+ att_name).

(** The paths the attachment at index [i] adds to [saved_att]. *)
Definition persisted_paths (env : Env) (outdir base_name : string)
    (atts : attachment_collection) (i : Z) : list string :=
  match AttItem atts i with
  | Some att => fst (save_one_attachment env outdir base_name att)
  | None => []
  end.

(** No [SaveAsFile] went through. *)
Definition nothing_saved (trace : list event) : Prop :=
  forall name path, ~ In (EvSaveAsFile name path) trace.


(* ===================================================================== *)
(** * Further vocabulary: identities of records *)
(* ===================================================================== *)

(** The identity the deduplication loop reads from a record: its
    [message_id] when that is a non-empty string. *)
Definition record_identity (r : saved_email) : option string :=
  if PyStr.otruthy (message_id r)
  then Some (PyStr.getattr_or (message_id r) EmptyString)
  else None.

(** The identities of the records that have one, in order. *)
Definition identities (l : list saved_email) : list string :=
  omap record_identity l.

(** A lower-case hexadecimal digit. *)
Definition is_lower_hex (c : ascii) : bool :=
  PyStr.is_ascii_digit c || PyStr.in_range 97 102 c.

(** Every character of [s] passes the test [p]. *)
Fixpoint all_chars (p : ascii -> bool) (s : string) : bool :=
  match s with
  | EmptyString => true
  | String c r => p c && all_chars p r
  end.

(* ===================================================================== *)
(** * More of the concrete store *)
(* ===================================================================== *)

(** Three attachments, the second of which cannot be read. *)
Definition broken_attachments : attachment_collection :=
  {| AttCount := Some 3;
     AttItem := fun i =>
       if i =? 1 then Some (Scenario.saves true "rates.pdf")
       else if i =? 3 then Some (Scenario.saves true "late.pdf")
       else None |}.

Definition half_read : mail_item :=
  {| Subject := Some "Rates: update";
     ReceivedTime := Some (Scenario.utc 2025 8 4 1 0 0);
     Body := Some "See attached.";
     SenderName := Some "Lender Updates";
     SenderEmailAddress := None;
     InternetMessageID := Some "<1@lender.example>";
     EntryID := Some "00000000C3D4";
     PropertyAccessor := None;
     Attachments := Some broken_attachments |}.

(* ===================================================================== *)
(** * _split_folder_path *)
(* ===================================================================== *)

(** The characters of the class in the regular expression: backslash,
    slash, greater-than and the vertical bar. *)
Definition is_path_sep (c : ascii) : bool :=
  Ascii.eqb c "\" || Ascii.eqb c "/" || Ascii.eqb c ">" || Ascii.eqb c "|".

(** [re.sub] with a character class under [+]: every maximal run of
    separators becomes one slash.  [in_run] tells that the character
    before was a separator. *)
Fixpoint sub_separators (in_run : bool) (s : string) : string :=
  match s with
  | EmptyString => EmptyString
  | String c r =>
      if is_path_sep c
      then if in_run then sub_separators true r
           else String "/" (sub_separators true r)
      else String c (sub_separators false r)
  end.

(** [s.split(c)]: the pieces between the occurrences of [c]; there is
    always at least one piece. *)
Fixpoint split_on (c : ascii) (s : string) : list string :=
  match s with
  | EmptyString => [EmptyString]
  | String d r =>
      if Ascii.eqb d c then EmptyString :: split_on c r
      else match split_on c r with
           | h :: t => String d h :: t
           | [] => [String d EmptyString]
           end
  end.

(** [[p.strip() for p in pieces if p.strip()]] *)
Definition stripped_parts (pieces : list string) : list string :=
  flat_map (fun p => if PyStr.truthy (PyStr.strip p)
                     then [PyStr.strip p] else []) pieces.

Definition _split_folder_path (s : string) : list string :=
  if negb (PyStr.truthy s) then []
  else stripped_parts (split_on "/" (sub_separators false s)).

(** [c.join(parts)] for a one-character [c]. *)
Fixpoint join_with (c : ascii) (parts : list string) : string :=
  match parts with
  | [] => EmptyString
  | [p] => p
  | p :: rest => p +:+ String c (join_with c rest)
  end.

(** A folder name the splitter returns as it is: not empty, no white
    space at either end, no separator inside. *)
Definition clean_part (p : string) : Prop :=
  p <> EmptyString /\ PyStr.strip p = p /\
  all_chars (fun c => negb (is_path_sep c)) p = true.

(** Every separator of [s] replaced by a slash. *)
Fixpoint slashes_only (s : string) : string :=
  match s with
  | EmptyString => EmptyString
  | String c r => String (if is_path_sep c then "/"%char else c) (slashes_only r)
  end.

(* ===================================================================== *)
(** * main: the requested window *)
(* ===================================================================== *)

(** [strptime s fmt] is [datetime.datetime.strptime(s, fmt)], [None] when
    it raises [ValueError]; [sub_days d n] is [d - timedelta(days=n)],
    [None] when it overflows. *)
Record Calendar := {
  strptime : string -> string -> option naive;
  sub_days : naive -> Z -> option naive }.

Definition ymd_formats : list string := ["%Y-%m-%d"; "%Y/%m/%d"; "%Y.%m.%d"].

(** The loop of [parse_ymd] over the formats; [None] stands for
    [sys.exit(1)]. *)
Fixpoint parse_ymd_with (cal : Calendar) (fmts : list string) (s : string)
  : option naive :=
  match fmts with
  | [] => None
  | fmt :: rest =>
      match strptime cal s fmt with
      | Some d => Some d
      | None => parse_ymd_with cal rest s
      end
  end.

Definition parse_ymd (cal : Calendar) (s : string) : option naive :=
  parse_ymd_with cal ymd_formats s.

(** [d.replace(hour=23, minute=59, second=59, microsecond=999999)] and
    [d.replace(hour=0, minute=0, second=0, microsecond=0)]. *)
Definition end_of_day (d : naive) : naive :=
  Naive (year d) (month d) (day d) 23 59 59 999999.

Definition start_of_day (d : naive) : naive :=
  Naive (year d) (month d) (day d) 0 0 0 0.

(** How the computation of the window ends. *)
Inductive window_result :=
| WindowExit (code : Z)
| WindowOverflow
| Window (since until : naive).

(** [if since > until: since, until = until, since] *)
Definition ordered_window (since until : naive) : naive * naive :=
  if gtb since until then (until, since) else (since, until).

(** The window of [main] from [--until], [--since] and [--days]; [now] is
    what [datetime.datetime.now()] returned at that point. *)
Definition resolve_window (env : Env) (cal : Calendar) (now : naive)
    (until_arg since_arg : option string) (days : Z) : window_result :=
  let until_opt :=
    if PyStr.otruthy until_arg
    then option_map end_of_day
           (parse_ymd cal (PyStr.getattr_or until_arg EmptyString))
    else Some now in
  match until_opt with
  | None => WindowExit 1
  | Some until0 =>
      let since_res :=
        if PyStr.otruthy since_arg
        then match parse_ymd cal (PyStr.getattr_or since_arg EmptyString) with
             | Some d => Window (start_of_day d) until0
             | None => WindowExit 1
             end
        else match sub_days cal until0 days with
             | Some d => Window d until0
             | None => WindowOverflow
             end in
      match since_res with
      | Window since0 _ =>
          let since1 := to_naive_local_dt env (DT since0 None) in
          let until1 := to_naive_local_dt env (DT until0 None) in
          let w := ordered_window since1 until1 in
          Window (fst w) (snd w)
      | other => other
      end
  end.

(** A calendar that knows the dates used below. *)
Definition table_calendar : Calendar :=
  {| strptime := fun s fmt =>
       if String.eqb s "2025-08-01" && String.eqb fmt "%Y-%m-%d"
       then Some (Naive 2025 8 1 0 0 0 0)
       else if String.eqb s "2025/08/07" && String.eqb fmt "%Y/%m/%d"
       then Some (Naive 2025 8 7 0 0 0 0)
       else None;
     sub_days := fun d n =>
       if (0 <=? n) && (n <? day d)
       then Some (Naive (year d) (month d) (day d - n)
                        (hour d) (minute d) (second d) (microsecond d))
       else None |}.

(* ===================================================================== *)
(** * get_outlook_folder and the folder listing *)
(* ===================================================================== *)

#[local] Unset Elimination Schemes.

(** A folder of the store as the functions below see it: its [Name], its
    [Items], [Folders[part]] ([None] when the lookup raises) and the
    enumeration [Folders.Item(1)], [Folders.Item(2)], ... (the outer
    [None] when reading [Folders] raises, an inner [None] when [Item(i)]
    raises). *)
Inductive store_folder :=
| StoreFolder (Name : option string)
              (SfItems : option items)
              (Sub : string -> option store_folder)
              (Children : option (list (option store_folder))).

#[local] Set Elimination Schemes.

Definition Name (f : store_folder) : option string :=
  match f with StoreFolder n _ _ _ => n end.
Definition SfItems (f : store_folder) : option items :=
  match f with StoreFolder _ i _ _ => i end.
Definition Sub (f : store_folder) : string -> option store_folder :=
  match f with StoreFolder _ _ s _ => s end.
Definition Children (f : store_folder) : option (list (option store_folder)) :=
  match f with StoreFolder _ _ _ c => c end.

(** The MAPI namespace: the top-level folders in the order of
    [Folders.Item(i + 1)], and [Folders[name]] ([None] when it raises). *)
Record namespace := {
  Roots : list store_folder;
  RootByName : string -> option store_folder }.

(** What [get_outlook_folder] raises. *)
Inductive lookup_error :=
| NoPywin32
| MailboxNotFound (mailbox_name : string)
| FolderPartNotFound (part mailbox_name : string).

(** [getattr(root, 'Name', '').lower() == mailbox_name.lower()] *)
Definition names_mailbox (mailbox_name : string) (root : store_folder) : bool :=
  String.eqb
    (PyStr.lower (match Name root with Some n => n | None => EmptyString end))
    (PyStr.lower mailbox_name).

(** The first top-level folder with that name, any case. *)
Definition scan_roots (ns : namespace) (mailbox_name : string)
  : option store_folder :=
  List.find (names_mailbox mailbox_name) (Roots ns).

(** The walk down the folder path from [f]. *)
Fixpoint walk_path (mailbox_name : string) (f : store_folder)
    (folder_path : list string) {struct folder_path}
  : store_folder + lookup_error :=
  match folder_path with
  | [] => inl f
  | part :: rest =>
      match Sub f part with
      | Some sub => walk_path mailbox_name sub rest
      | None => inr (FolderPartNotFound part mailbox_name)
      end
  end.

(** [ns] is [None] when [win32com] could not be imported. *)
Definition get_outlook_folder (ns : option namespace) (mailbox_name : string)
    (folder_path : list string) : store_folder + lookup_error :=
  match ns with
  | None => inr NoPywin32
  | Some ns =>
      let acct :=
        match scan_roots ns mailbox_name with
        | Some root => Some root
        | None => RootByName ns mailbox_name
        end in
      match acct with
      | None => inr (MailboxNotFound mailbox_name)
      | Some root => walk_path mailbox_name root folder_path
      end
  end.

(** The folder handed to [restrict_items_range]. *)
Definition as_folder (f : store_folder) : folder :=
  {| FolderItems := SfItems f |}.

(** The children enumerated before the first [Item(i)] that raises. *)
Fixpoint readable_children (cs : list (option store_folder))
  : list store_folder :=
  match cs with
  | Some c :: rest => c :: readable_children rest
  | _ => []
  end.

(** The lines [_print_folder_tree] prints; [remaining] is
    [max_depth - level], zero when [level >= max_depth]. *)
Fixpoint tree_lines (remaining : nat) (f : store_folder) (prefix : string)
  : list string :=
  (prefix +:+ match Name f with Some n => n | None => "(unknown)" end)
  :: match remaining with
     | O => []
     | S n =>
         match Children f with
         | None => []
         | Some cs =>
             flat_map (fun c => tree_lines n c (prefix +:+ "  "))
               (readable_children cs)
         end
     end.

Definition _print_folder_tree (f : store_folder) (prefix : string)
    (level max_depth : Z) : list string :=
  tree_lines (Z.to_nat (max_depth - level)) f prefix.

(** The lines [list_outlook_folders] prints. *)
Definition list_outlook_folders (ns : option namespace) (mailbox_name : string)
    (max_depth : Z) : list string :=
  match ns with
  | None => ["pywin32 not available"]
  | Some n =>
      let root :=
        match get_outlook_folder ns mailbox_name [] with
        | inl f => Some f
        | inr _ => scan_roots n mailbox_name
        end in
      match root with
      | None => ["Mailbox not found: " +:+ mailbox_name]
      | Some f =>
          ("Folders under mailbox: " +:+ mailbox_name)
          :: _print_folder_tree f EmptyString 0 max_depth
      end
  end.

(** [k] times two blanks. *)
Fixpoint indent (k : nat) : string :=
  match k with
  | O => EmptyString
  | S k' => "  " +:+ indent k'
  end.

(** [getattr(folder, 'Name', '(unknown)')] *)
Definition display_name (f : store_folder) : string :=
  match Name f with Some n => n | None => "(unknown)" end.

(** [below k f g]: the folder [g] lies [k] levels below [f]; each step
    goes to a child that [Folders.Item] hands over before the first
    [Item(i)] that raises. *)
Inductive below : nat -> store_folder -> store_folder -> Prop :=
| below_self (f : store_folder) : below 0 f f
| below_child (k : nat) (f c g : store_folder)
              (cs : list (option store_folder)) :
    Children f = Some cs ->
    In c (readable_children cs) ->
    below k c g ->
    below (S k) f g.

(** A small store: one mailbox whose inbox holds the policy folder. *)
Definition leaf_folder (name : string) (its : option items) : store_folder :=
  StoreFolder (Some name) its (fun _ => None) (Some []).

Definition policy_folder : store_folder :=
  leaf_folder "2. Policy Update" (FolderItems Scenario.unfiltered_inbox).

Definition inbox_folder : store_folder :=
  StoreFolder (Some "Inbox") None
    (fun part => if String.eqb part "2. Policy Update"
                 then Some policy_folder else None)
    (Some [Some policy_folder; None; Some (leaf_folder "Drafts" None)]).

Definition mailbox_folder : store_folder :=
  StoreFolder (Some "Henry.Wen@Example.com") None
    (fun part => if String.eqb part "Inbox" then Some inbox_folder else None)
    (Some [Some inbox_folder; Some (leaf_folder "Sent" None)]).

Definition one_mailbox : namespace :=
  {| Roots := [mailbox_folder]; RootByName := fun _ => None |}.

(* ===================================================================== *)
(** * extract_text_from_pdf and build_package_from_saved_emails *)
(* ===================================================================== *)

(** What the payload builder reads.

    - [read_text path]: the text of the file, [None] when it cannot be
      read.
    - [pdfplumber]: whether the library could be imported.
    - [pdf_pages path]: the pages of the PDF, [None] when opening it
      or going through its pages raises; a page is [None] when
      [extract_text()] raises and holds the returned value otherwise
      ([None] again when that value is [None]).
    - [basename path]: [os.path.basename].

    Log lines are left out: these functions are followed for the text
    they return. *)
Record Reader := {
  read_text : string -> option string;
  pdfplumber : bool;
  pdf_pages : string -> option (list (option (option string)));
  basename : string -> string }.

(** [sep.join(parts)] *)
Fixpoint join_str (sep : string) (parts : list string) : string :=
  match parts with
  | [] => EmptyString
  | [p] => p
  | p :: rest => p +:+ sep +:+ join_str sep rest
  end.

(** [page.extract_text() or ''], [''] when the call raises. *)
Definition page_text (page : option (option string)) : string :=
  match page with
  | Some (Some s) => s
  | _ => EmptyString
  end.

(** ['\n'.join(filter(None, extracted))] *)
Definition pages_text (pages : list (option (option string))) : string :=
  join_str nl (List.filter PyStr.truthy (map page_text pages)).

Definition extract_text_from_pdf (rd : Reader) (path : string) : string :=
  if negb (pdfplumber rd) then EmptyString
  else match pdf_pages rd path with
       | Some pages => pages_text pages
       | None => EmptyString
       end.

(** The decimal digits of a number, as an f-string writes them. *)
Definition decimal (n : nat) : string :=
  NilZero.string_of_uint (Nat.to_uint n).

(** What one attachment adds to the block of its message. *)
Definition pdf_section (rd : Reader) (a : string) : string :=
  if PyStr.endswith ".pdf" (PyStr.lower a) then
    let pdf_text := extract_text_from_pdf rd a in
    if PyStr.truthy (PyStr.strip pdf_text)
    then nl +:+ nl +:+ "[PDF: " +:+ basename rd a +:+ "]" +:+ nl +:+
         pdf_text +:+ nl
    else EmptyString
  else EmptyString.

(** The block of the message at position [idx] (from zero) among [total]
    messages. *)
Definition email_block (rd : Reader) (total idx : nat) (rec : saved_email)
  : string :=
  let text := match read_text rd (txt rec) with
              | Some t => t
              | None => EmptyString
              end in
  let header := "---EMAIL " +:+ decimal (idx + 1) +:+ "/" +:+ decimal total
                +:+ "---" +:+ nl in
  fold_left (fun part a => part +:+ pdf_section rd a) (attachments rec)
    (header +:+ text).

Definition email_break : string :=
  nl +:+ nl +:+ "---EMAIL_BREAK---" +:+ nl +:+ nl.

Definition build_package_from_saved_emails (rd : Reader)
    (saved_emails : list saved_email) : string :=
  join_str email_break
    (imap (email_block rd (length saved_emails)) saved_emails).

(** The attachment adds something to the payload. *)
Definition contributes (rd : Reader) (a : string) : bool :=
  PyStr.truthy (pdf_section rd a).

(** The record with the attachments that add nothing taken out. *)
Definition without_silent_attachments (rd : Reader) (rec : saved_email)
  : saved_email :=
  {| txt := txt rec;
     attachments := List.filter (contributes rd) (attachments rec);
     received := received rec;
     message_id := message_id rec;
     date_source := date_source rec;
     raw_received := raw_received rec;
     chosen_date := chosen_date rec |}.

(** A reader for the files of the scenario. *)
Definition table_reader : Reader :=
  {| read_text := fun path =>
       if String.eqb path "mail.txt" then Some "Subject: x" else None;
     pdfplumber := true;
     pdf_pages := fun path =>
       if String.eqb path "a\RATES.PDF"
       then Some [Some (Some "page one"); None; Some None; Some (Some "page four")]
       else if String.eqb path "a\blank.pdf"
       then Some [Some (Some EmptyString); None]
       else None;
     basename := fun path => PyStr.slice 2 (Z.of_nat (String.length path)) path |}.

(* ===================================================================== *)
(** * main: from the merged payload to the report *)
(* ===================================================================== *)

(** The switches of the run: [--dump-payload] and [DUMP_PAYLOAD_PATH],
    [--only-dump], [SKIP_OPENAI], [OPENAI_API_KEY], [DETACH_OPENAI],
    [--json-input] and [--only-extract]. *)
Record Switches := {
  dump_payload : option string;
  dump_payload_env : option string;
  only_dump : bool;
  skip_openai : bool;
  openai_api_key : option string;
  detach_openai : bool;
  json_input : option string;
  only_extract : bool }.

(** The services of the two stages.

    - [extractor_reply user_text]: the answer of the text-generation
      service to the extraction request, [None] when the call raises.
    - [call_openai_generate_markdown json period]: the Markdown of the
      report stage, [None] when the call raises.
    - [json_loads_ok]: whether [json.loads] accepts a text.
    - [json_pretty s]: [json.dumps(json.loads(s), ensure_ascii=False,
      indent=2)].
    - [pretty_encodable s]: whether the text that [json.dumps] returns
      for [s] can be encoded as UTF-8.  With [ensure_ascii=False] a lone
      surrogate that [s] holds as an escape stands in that text as it
      is, and [write_text] raises on it.
    - [linesep_crlf]: whether [os.linesep] is a carriage return and a
      line feed, as on Windows. *)
Record Stages := {
  extractor_reply : string -> option string;
  call_openai_generate_markdown : string -> string -> option string;
  json_loads_ok : string -> bool;
  json_pretty : string -> string;
  pretty_encodable : string -> bool;
  linesep_crlf : bool }.

(** Files are opened in text mode.  [write_text] writes [os.linesep]
    for every line feed. *)
Fixpoint written_text (crlf_sep : bool) (s : string) : string :=
  match s with
  | EmptyString => EmptyString
  | String c r =>
      if Ascii.eqb c "010" && crlf_sep
      then String "013" (String "010" (written_text crlf_sep r))
      else String c (written_text crlf_sep r)
  end.

(** [read_text] gives a line feed for every carriage return followed by
    a line feed and for every other carriage return. *)
Fixpoint universal_newlines (s : string) : string :=
  match s with
  | EmptyString => EmptyString
  | String c r =>
      if Ascii.eqb c "013"
      then match r with
           | String d r' =>
               if Ascii.eqb d "010"
               then String "010" (universal_newlines r')
               else String "010" (universal_newlines r)
           | EmptyString => String "010" EmptyString
           end
      else String c (universal_newlines r)
  end.

(** [path.write_text(s)] followed by [path.read_text()]. *)
Definition read_back (crlf_sep : bool) (s : string) : string :=
  universal_newlines (written_text crlf_sep s).

(** [s] holds no carriage return. *)
Definition no_carriage_return (s : string) : bool :=
  all_chars (fun c => negb (Ascii.eqb c "013")) s.

(** What the stages leave behind. *)
Inductive stage_event :=
| WroteFile (path content : string)
| CalledExtractor (payload label : string)
| CalledGenerator (json period : string).

(** How the run ends: [main] returns, the process exits with a code, an
    exception escapes, or [main] returns with the report stage left to a
    background thread. *)
Inductive run_end :=
| Returned
| Exit (code : Z)
| Uncaught
| ReturnedDetached.

Definition placeholder_report : string :=
  "SKIPPED: OpenAI call was bypassed for testing." +:+ nl.

(** [args.dump_payload or os.getenv('DUMP_PAYLOAD_PATH')] *)
Definition dump_path_of (sw : Switches) : option string :=
  if PyStr.otruthy (dump_payload sw) then dump_payload sw
  else if PyStr.otruthy (dump_payload_env sw) then dump_payload_env sw
  else None.

(** [path.write_text(content)] followed by the rest of the run; an
    exception escapes when the file cannot be written. *)
Definition write_then (env : Env) (path content : string)
    (rest : run_end * list stage_event) : run_end * list stage_event :=
  if write_text_ok env path
  then (fst rest, WroteFile path content :: snd rest)
  else (Uncaught, []).

(** [_run_two_step_generate_sync] and [_gen_only] share their last two
    steps: ask for the Markdown, write the report.  In the former every
    exception is caught and logged ([guarded] is [true]). *)
Definition generate_report (env : Env) (st : Stages) (guarded : bool)
    (report_path json period : string) : run_end * list stage_event :=
  match call_openai_generate_markdown st json period with
  | None => (if guarded then Returned else Uncaught,
             [CalledGenerator json period])
  | Some md =>
      if write_text_ok env report_path
      then (Returned, [CalledGenerator json period; WroteFile report_path md])
      else (if guarded then Returned else Uncaught,
            [CalledGenerator json period])
  end.

(** The names of the artefacts of a run with the labels [start] and
    [end_]. *)
Definition period_tag (start end_ : string) : string :=
  start +:+ "-" +:+ end_.

Definition payload_name (start end_ : string) : string :=
  "ALL_" +:+ period_tag start end_ +:+ ".txt".

Definition payload_path (env : Env) (outdir start end_ : string) : string :=
  joinpath env outdir (payload_name start end_).

Definition extract_path_of (env : Env) (outdir start end_ : string) : string :=
  joinpath env outdir ("EXTRACT_" +:+ period_tag start end_ +:+ ".json").

Definition report_path_of (env : Env) (outdir start end_ : string) : string :=
  joinpath env outdir ("Weekly_report_" +:+ period_tag start end_ +:+ ".md").

(** What the extraction file holds in the end.  The [try] block parses
    the answer and writes it re-printed; its [except] branch writes the
    answer as it is, and is reached when [json.loads] raises and also
    when writing the re-printed text raises. *)
Definition persisted_extraction (st : Stages) (structured : string) : string :=
  if json_loads_ok st structured && pretty_encodable st structured
  then json_pretty st structured
  else structured.

(** The part of [main] after the payload has been built.  [start] and
    [end_] are the two labels, [full_text] the merged payload,
    [period_label] the text of the period and [read_json path] the
    content of the file given with [--json-input] ([None] when it cannot
    be read).  A file that cannot be opened for writing cannot be opened
    on the second attempt of the [except] branch either.  The extraction
    file, just written, can be read.  The wait with progress lines is
    followed by its outcome: when it ends, [_run_two_step_generate_sync]
    has run. *)
Definition run_stages (env : Env) (st : Stages) (sw : Switches)
    (read_json : string -> option string)
    (outdir start end_ full_text period_label : string)
  : run_end * list stage_event :=
  let report_path := report_path_of env outdir start end_ in
  let payload_name := payload_name start end_ in
  let payload_default := payload_path env outdir start end_ in
  let extract_path := extract_path_of env outdir start end_ in
  let after_extraction (structured : string) :=
    let persisted := persisted_extraction st structured in
    write_then env extract_path persisted
      (if only_extract sw then (Returned, [])
       else if detach_openai sw then (ReturnedDetached, [])
       else generate_report env st true report_path
              (read_back (linesep_crlf st) persisted) period_label) in
  let with_key :=
    if PyStr.otruthy (json_input sw) then
      match read_json (PyStr.getattr_or (json_input sw) EmptyString) with
      | None => (Exit 5, [])
      | Some structured =>
          if detach_openai sw then (ReturnedDetached, [])
          else generate_report env st false report_path structured period_label
      end
    else
      match call_openai_extract_updates (json_loads_ok st) (extractor_reply st)
              full_text payload_name with
      | None => (Exit 6, [CalledExtractor full_text payload_name])
      | Some structured =>
          let r := after_extraction structured in
          (fst r, CalledExtractor full_text payload_name :: snd r)
      end in
  let after_dump :=
    if skip_openai sw
    then write_then env report_path placeholder_report (Returned, [])
    else if negb (PyStr.otruthy (openai_api_key sw)) then (Exit 4, [])
    else with_key in
  write_then env payload_default full_text
    (match dump_path_of sw with
     | Some dump_path =>
         write_then env dump_path full_text
           (if only_dump sw then (Returned, []) else after_dump)
     | None => after_dump
     end).

(** The run called a text-generation service. *)
Definition is_service_call (e : stage_event) : bool :=
  match e with
  | WroteFile _ _ => false
  | CalledExtractor _ _ => true
  | CalledGenerator _ _ => true
  end.

(** The switches with [--only-dump] set to [b]. *)
Definition with_only_dump (b : bool) (sw : Switches) : Switches :=
  {| dump_payload := dump_payload sw;
     dump_payload_env := dump_payload_env sw;
     only_dump := b;
     skip_openai := skip_openai sw;
     openai_api_key := openai_api_key sw;
     detach_openai := detach_openai sw;
     json_input := json_input sw;
     only_extract := only_extract sw |}.

Definition is_extractor_call (e : stage_event) : bool :=
  match e with CalledExtractor _ _ => true | _ => false end.

Definition is_generator_call (e : stage_event) : bool :=
  match e with CalledGenerator _ _ => true | _ => false end.

(** Switches and services for the runs below: a key, no other switch; an
    extractor that answers with prose around an object; a generator that
    answers one line of Markdown. *)
Definition plain_switches : Switches :=
  {| dump_payload := None;
     dump_payload_env := None;
     only_dump := false;
     skip_openai := false;
     openai_api_key := Some "sk-test";
     detach_openai := false;
     json_input := None;
     only_extract := false |}.

Definition keyless_switches : Switches :=
  {| dump_payload := None;
     dump_payload_env := None;
     only_dump := true;
     skip_openai := false;
     openai_api_key := None;
     detach_openai := false;
     json_input := None;
     only_extract := false |}.

Definition table_stages : Stages :=
  {| extractor_reply := fun _ => Some "Here it is: {} done";
     call_openai_generate_markdown := fun json _ =>
       if String.eqb json "{}" then Some "# Weekly report" else None;
     json_loads_ok := Json.loads_ok;
     json_pretty := fun s => s;
     pretty_encodable := fun _ => true;
     linesep_crlf := true |}.

(** An answer that holds a lone surrogate as an escape: valid JSON whose
    re-printed text cannot be written. *)
Definition surrogate_answer : string :=
  "{" +:+ String "034" "a" +:+ String "034" ": " +:+
  String "034" (String "092" "ud800") +:+ String "034" "}".

Definition surrogate_stages : Stages :=
  {| extractor_reply := fun _ => Some surrogate_answer;
     call_openai_generate_markdown := fun _ _ => Some "# Weekly report";
     json_loads_ok := Json.loads_ok;
     json_pretty := fun _ => "{ re-printed }";
     pretty_encodable := fun _ => false;
     linesep_crlf := true |}.

(* ===================================================================== *)
(** * More of the concrete store: header dates and clocks *)
(* ===================================================================== *)

(** Received at 02:30 UTC on 5 August, header date 01:15 UTC; on the
    local clock of the scenario these are 12:30 and 11:15. *)
Definition utc_dated : mail_item :=
  {| Subject := Some "Rate change";
     ReceivedTime := Some (Scenario.utc 2025 8 5 2 30 0);
     Body := None;
     SenderName := None;
     SenderEmailAddress := None;
     InternetMessageID := None;
     EntryID := None;
     PropertyAccessor :=
       Some (Scenario.headers "Tue, 05 Aug 2025 01:15:00 +0000");
     Attachments := None |}.

(** No receipt time, but a header block with a date. *)
Definition undated_with_header : mail_item :=
  {| Subject := None;
     ReceivedTime := None;
     Body := None;
     SenderName := None;
     SenderEmailAddress := None;
     InternetMessageID := None;
     EntryID := None;
     PropertyAccessor :=
       Some (Scenario.headers "Tue, 05 Aug 2025 01:15:00 +0000");
     Attachments := None |}.

(** A platform whose [astimezone] raises for years before 1970 and moves
    every later instant to the local clock of the scenario. *)
Definition epoch_astimezone (d : datetime) : option datetime :=
  if year (fields d) <? 1970 then None else Scenario.local_astimezone d.

Definition antique_parsedate (s : string) : option datetime :=
  if String.eqb s "Wed, 01 Jan 1969 01:15:00 +0000"
  then Some (DT (Naive 1969 1 1 1 15 0 0) (Some 0))
  else Scenario.table_parsedate s.

Definition epoch_env : Env :=
  {| astimezone := epoch_astimezone;
     parsedate_to_datetime := antique_parsedate;
     joinpath := Scenario.win_joinpath;
     write_text_ok := fun _ => true |}.

(** Received at 02:30 UTC on 5 August 2025, with a header date of 1969. *)
Definition antique : mail_item :=
  {| Subject := Some "Rate change";
     ReceivedTime := Some (Scenario.utc 2025 8 5 2 30 0);
     Body := None;
     SenderName := None;
     SenderEmailAddress := None;
     InternetMessageID := None;
     EntryID := None;
     PropertyAccessor :=
       Some (Scenario.headers "Wed, 01 Jan 1969 01:15:00 +0000");
     Attachments := None |}.


(* ===================================================================== *)
(** * Properties *)
(* ===================================================================== *)

(** ** The order on naive datetimes *)

Section NaiveOrder.

Lemma lex_compare_refl xs : lex_compare xs xs = Eq.
Proof.
  induction xs as [|x xs IH]; simpl; [reflexivity|].
  rewrite Z.compare_refl. exact IH.
Qed.

Lemma lex_compare_eq xs ys : lex_compare xs ys = Eq -> xs = ys.
Proof.
  revert ys. induction xs as [|x xs IH]; intros [|y ys]; simpl; try discriminate.
  - reflexivity.
  - destruct (Z.compare_spec x y) as [-> | |]; try discriminate.
    intros H. f_equal. apply IH, H.
Qed.

Lemma lex_compare_antisym xs ys :
  lex_compare ys xs = CompOpp (lex_compare xs ys).
Proof.
  revert ys. induction xs as [|x xs IH]; intros [|y ys]; simpl; try reflexivity.
  rewrite (Z.compare_antisym x y).
  destruct (x ?= y); simpl; auto.
Qed.

Lemma lex_compare_trans xs ys zs :
  lex_compare xs ys = Lt -> lex_compare ys zs = Lt -> lex_compare xs zs = Lt.
Proof.
  revert ys zs.
  induction xs as [|x xs IH]; intros [|y ys] [|z zs]; simpl; try discriminate; auto.
  destruct (Z.compare_spec x y) as [-> | Hxy | Hxy]; try discriminate.
  - destruct (y ?= z); try discriminate; auto. apply IH.
  - intros _. destruct (Z.compare_spec y z) as [-> | Hyz | Hyz]; try discriminate.
    + intros _. apply Z.compare_lt_iff in Hxy. rewrite Hxy. reflexivity.
    + intros _. assert (H : x < z) by lia.
      apply Z.compare_lt_iff in H. rewrite H. reflexivity.
Qed.

Lemma tuple_inj a b : tuple a = tuple b -> a = b.
Proof.
  destruct a, b; unfold tuple; simpl. intros H. injection H. intros; subst. reflexivity.
Qed.

Lemma compare_eq a b : DateTime.compare a b = Eq <-> a = b.
Proof.
  unfold DateTime.compare. split.
  - intros H. apply tuple_inj, lex_compare_eq, H.
  - intros ->. apply lex_compare_refl.
Qed.

Lemma ltb_irrefl a : ltb a a = false.
Proof. unfold ltb, DateTime.compare. rewrite lex_compare_refl. reflexivity. Qed.

Lemma ltb_asym a b : ltb a b = true -> ltb b a = false.
Proof.
  unfold ltb, DateTime.compare. rewrite (lex_compare_antisym (tuple a) (tuple b)).
  destruct (lex_compare (tuple a) (tuple b)); simpl; congruence.
Qed.

Lemma ltb_trans a b c : ltb a b = true -> ltb b c = true -> ltb a c = true.
Proof.
  unfold ltb, DateTime.compare. intros H1 H2.
  rewrite (lex_compare_trans (tuple a) (tuple b) (tuple c)); auto.
  - destruct (lex_compare (tuple a) (tuple b)); congruence.
  - destruct (lex_compare (tuple b) (tuple c)); congruence.
Qed.

(** Two datetimes neither of which is before the other are equal. *)
Lemma ltb_total a b : ltb a b = false -> ltb b a = false -> a = b.
Proof.
  unfold ltb, DateTime.compare. rewrite (lex_compare_antisym (tuple a) (tuple b)).
  destruct (lex_compare (tuple a) (tuple b)) eqn:E; simpl; try congruence.
  intros _ _. apply tuple_inj, lex_compare_eq, E.
Qed.

Lemma leb_refl a : leb a a = true.
Proof. unfold leb. rewrite ltb_irrefl. reflexivity. Qed.

Lemma leb_trans a b c : leb a b = true -> leb b c = true -> leb a c = true.
Proof.
  unfold leb. intros H1 H2.
  apply negb_true_iff in H1, H2. apply negb_true_iff.
  destruct (ltb c a) eqn:Hca; [|reflexivity].
  destruct (ltb a b) eqn:Hab.
  - rewrite (ltb_trans c a b Hca Hab) in H2. discriminate.
  - rewrite (ltb_total a b Hab H1) in Hca. congruence.
Qed.

Lemma leb_total a b : leb a b = true \/ leb b a = true.
Proof.
  unfold leb. destruct (ltb b a) eqn:E; [right|left; reflexivity].
  rewrite (ltb_asym _ _ E). reflexivity.
Qed.

Lemma ltb_leb a b : ltb a b = true -> leb a b = true.
Proof. intros H. unfold leb. rewrite (ltb_asym _ _ H). reflexivity. Qed.

Lemma eqb_eq a b : DateTime.eqb a b = true <-> a = b.
Proof.
  unfold DateTime.eqb. rewrite <- compare_eq.
  destruct (DateTime.compare a b); split; congruence.
Qed.

End NaiveOrder.

(** ** list.sort *)

Section SortFacts.
Context {A K : Type} (lt : K -> K -> bool) (key : A -> K) (keq : K -> K -> bool).

Hypothesis lt_irrefl : forall k, lt k k = false.
Hypothesis lt_asym : forall a b, lt a b = true -> lt b a = false.
Hypothesis le_trans :
  forall a b c, lt b a = false -> lt c b = false -> lt c a = false.
Hypothesis keq_eq : forall a b, keq a b = true -> a = b.


Lemma sort_insert_perm x l : Permutation (sort_insert lt key x l) (x :: l).
Proof.
  induction l as [|y l IH]; simpl; [reflexivity|].
  destruct (lt (key y) (key x)); [|reflexivity].
  rewrite IH. apply perm_swap.
Qed.

Lemma list_sort_perm l : Permutation (list_sort lt key l) l.
Proof.
  induction l as [|x l IH]; simpl; [reflexivity|].
  rewrite sort_insert_perm. constructor. exact IH.
Qed.

Lemma sort_insert_sorted x l :
  StronglySorted (key_le lt key) l -> StronglySorted (key_le lt key) (sort_insert lt key x l).
Proof.
  induction l as [|y l IH]; simpl; intros Hs.
  - repeat constructor.
  - inversion Hs as [|? ? Hl Hy]; subst.
    destruct (lt (key y) (key x)) eqn:E.
    + constructor; [apply IH, Hl|].
      eapply Permutation_Forall; [symmetry; apply sort_insert_perm|].
      constructor; [|exact Hy]. unfold key_le. apply lt_asym, E.
    + constructor; [exact Hs|].
      constructor; [exact E|].
      eapply Forall_impl; [exact Hy|].
      intros z Hz. unfold key_le in *. eapply le_trans; eauto.
Qed.

Lemma list_sort_sorted l : StronglySorted (key_le lt key) (list_sort lt key l).
Proof.
  induction l as [|x l IH]; simpl; [constructor|].
  apply sort_insert_sorted, IH.
Qed.


Lemma sort_insert_stable k x l :
  List.filter (with_key key keq k) (sort_insert lt key x l)
  = List.filter (with_key key keq k) (x :: l).
Proof.
  induction l as [|y l IH]; [reflexivity|].
  cbn [sort_insert]. destruct (lt (key y) (key x)) eqn:E; [|reflexivity].
  cbn [List.filter] in *. rewrite IH.
  destruct (with_key key keq k y) eqn:Ey, (with_key key keq k x) eqn:Ex; try reflexivity.
  unfold with_key in *. apply keq_eq in Ey, Ex.
  rewrite Ey, Ex, lt_irrefl in E. discriminate.
Qed.

Lemma list_sort_stable k l :
  List.filter (with_key key keq k) (list_sort lt key l) = List.filter (with_key key keq k) l.
Proof.
  induction l as [|x l IH]; [reflexivity|].
  cbn [list_sort]. rewrite sort_insert_stable.
  cbn [List.filter]. rewrite IH. reflexivity.
Qed.

End SortFacts.

(** ** min and max *)

Lemma min2_le_l a b : leb (min2 a b) a = true.
Proof.
  unfold min2. destruct (ltb b a) eqn:E; [apply ltb_leb, E|apply leb_refl].
Qed.

Lemma min2_le_r a b : leb (min2 a b) b = true.
Proof.
  unfold min2. destruct (ltb b a) eqn:E; [apply leb_refl|].
  unfold leb. rewrite E. reflexivity.
Qed.

Lemma max2_ge_l a b : leb a (max2 a b) = true.
Proof.
  unfold max2, gtb. destruct (ltb a b) eqn:E; [apply ltb_leb, E|apply leb_refl].
Qed.

Lemma max2_ge_r a b : leb b (max2 a b) = true.
Proof.
  unfold max2, gtb. destruct (ltb a b) eqn:E; [apply leb_refl|].
  unfold leb. rewrite E. reflexivity.
Qed.

Lemma min2_choice a b : min2 a b = a \/ min2 a b = b.
Proof. unfold min2. destruct (ltb b a); auto. Qed.

Lemma max2_choice a b : max2 a b = a \/ max2 a b = b.
Proof. unfold max2. destruct (gtb b a); auto. Qed.

Lemma min_list_spec xs : forall x,
  In (min_list x xs) (x :: xs) /\
  Forall (fun y => leb (min_list x xs) y = true) (x :: xs).
Proof.
  induction xs as [|a xs IH]; intros x.
  - split; [left; reflexivity|]. constructor; [apply leb_refl|constructor].
  - change (min_list x (a :: xs)) with (min_list (min2 x a) xs).
    destruct (IH (min2 x a)) as [Hin Hall].
    inversion Hall as [|? ? Hm Hrest]; subst. split.
    + destruct Hin as [Hin|Hin]; [|right; right; exact Hin].
      rewrite <- Hin. destruct (min2_choice x a) as [-> | ->]; simpl; auto.
    + constructor; [eapply leb_trans; [exact Hm|apply min2_le_l]|].
      constructor; [eapply leb_trans; [exact Hm|apply min2_le_r]|exact Hrest].
Qed.

Lemma max_list_spec xs : forall x,
  In (max_list x xs) (x :: xs) /\
  Forall (fun y => leb y (max_list x xs) = true) (x :: xs).
Proof.
  induction xs as [|a xs IH]; intros x.
  - split; [left; reflexivity|]. constructor; [apply leb_refl|constructor].
  - change (max_list x (a :: xs)) with (max_list (max2 x a) xs).
    destruct (IH (max2 x a)) as [Hin Hall].
    inversion Hall as [|? ? Hm Hrest]; subst. split.
    + destruct Hin as [Hin|Hin]; [|right; right; exact Hin].
      rewrite <- Hin. destruct (max2_choice x a) as [-> | ->]; simpl; auto.
    + constructor; [eapply leb_trans; [apply max2_ge_l|exact Hm]|].
      constructor; [eapply leb_trans; [apply max2_ge_r|exact Hm]|exact Hrest].
Qed.

(** ** Ordering of the surviving records *)



Lemma key_le_effective since a b :
  key_le ltb (sort_key since) a b <-> effective_le since a b.
Proof.
  unfold key_le, effective_le, leb. rewrite negb_true_iff. reflexivity.
Qed.

Lemma StronglySorted_weaken {A : Type} (R S : A -> A -> Prop) (l : list A) :
  (forall a b, R a b -> S a b) -> StronglySorted R l -> StronglySorted S l.
Proof.
  intros HRS. induction 1 as [|x l Hl IH Hx]; constructor; [exact IH|].
  eapply Forall_impl; [exact Hx|]. intros y. apply HRS.
Qed.

(** C6. The sorted records are the input records in another order; their
    effective timestamps never decrease, where the effective timestamp of a
    record is its canonical timestamp, or [since] when it has none; and the
    records that share an effective timestamp stay in their input order. *)
Theorem C6_sort_by_received_ordered_and_stable :
  forall (since : naive) (saved_emails : list saved_email),
    let out := sort_by_received since saved_emails in
    Permutation out saved_emails /\
    StronglySorted (effective_le since) out /\
    (forall r, sort_key since r
               = match received r with Some d => d | None => since end) /\
    (forall k, List.filter (same_effective since k) out
               = List.filter (same_effective since k) saved_emails).
Proof.
  intros since l out. subst out. unfold sort_by_received.
  split; [apply list_sort_perm|]. split; [|split].
  - eapply StronglySorted_weaken; [|apply list_sort_sorted].
    + intros a b. apply key_le_effective.
    + apply ltb_asym.
    + intros a b c Hab Hbc.
      assert (H : leb a c = true).
      { apply (leb_trans a b c); unfold leb; [rewrite Hab|rewrite Hbc]; reflexivity. }
      unfold leb in H. apply negb_true_iff in H. exact H.
  - reflexivity.
  - intros k. apply (list_sort_stable ltb (sort_key since) DateTime.eqb).
    + apply ltb_irrefl.
    + intros a b H. apply eqb_eq, H.
Qed.

(** ** Period label bounds *)

(** C7. With at least one canonical timestamp among the records, the
    bounds are [max(lo, since)] and [min(hi, until)], where [lo] is the
    least and [hi] the greatest of all the canonical timestamps; with none
    they are [since] and [until].  In particular the end bound is [until]
    whenever the greatest timestamp lies after [until]. *)
Theorem C7_period_bounds_clamped :
  forall (since until : naive) (saved_emails : list saved_email),
    let b := period_bounds since until saved_emails in
    match dates_of saved_emails with
    | [] => b = (since, until)
    | d :: ds =>
        exists lo hi,
          In lo (d :: ds) /\ In hi (d :: ds) /\
          Forall (fun x => leb lo x = true /\ leb x hi = true) (d :: ds) /\
          b = (max2 lo since, min2 hi until) /\
          (fst b = lo \/ fst b = since) /\
          leb lo (fst b) = true /\ leb since (fst b) = true /\
          (snd b = hi \/ snd b = until) /\
          leb (snd b) hi = true /\ leb (snd b) until = true /\
          (ltb until hi = true -> snd b = until)
    end.
Proof.
  intros since until l b. subst b. unfold period_bounds.
  destruct (dates_of l) as [|d ds]; [reflexivity|].
  destruct (min_list_spec ds d) as [Hlo_in Hlo].
  destruct (max_list_spec ds d) as [Hhi_in Hhi].
  exists (min_list d ds), (max_list d ds). cbn [fst snd].
  repeat split; auto using max2_ge_l, max2_ge_r, min2_le_l, min2_le_r,
    max2_choice, min2_choice.
  - rewrite Forall_forall in *. intros x Hx. split; auto.
  - intros H. unfold min2. rewrite H. reflexivity.
Qed.

(** The end-to-end run of the second scenario: the message received on
    5 August with a header date of 15 August is kept, and the end label is
    capped at 7 August. *)
Example scenario_misdated_header_is_capped :
  let fetched := fst (Scenario.fetch_unfiltered) in
  exists recs,
    fetched = Some recs /\
    map received (fst (aggregate Scenario.since Scenario.until recs))
      = [Some (Naive 2025 8 3 14 0 0 0); Some (Naive 2025 8 15 9 30 0 0)] /\
    period_bounds Scenario.since Scenario.until
      (fst (aggregate Scenario.since Scenario.until recs))
      = (Naive 2025 8 3 14 0 0 0, Scenario.until) /\
    period_labels Scenario.since Scenario.until
      (fst (aggregate Scenario.since Scenario.until recs))
      = ("250803", "250807").
Proof. eexists. vm_compute. repeat split; reflexivity. Qed.

(** ** Deduplication *)




Lemma dedupe_loop_from l : forall unique deduped log,
  snd (fst (fold_left dedupe_step l (unique, deduped, log)))
  = deduped ++ dedupe_from unique l.
Proof.
  induction l as [|r l IH]; intros unique deduped log.
  - simpl. rewrite app_nil_r. reflexivity.
  - cbn [fold_left dedupe_from]. unfold dedupe_step at 2, no_identity.
    destruct (negb (PyStr.otruthy (message_id r))).
    + rewrite IH, <- app_assoc. reflexivity.
    + destruct (unique !! PyStr.getattr_or (message_id r) EmptyString).
      * apply IH.
      * rewrite IH, <- app_assoc. reflexivity.
Qed.

Lemma dedupe_unfold l : dedupe l = dedupe_from ∅ l.
Proof. unfold dedupe, dedupe_loop. rewrite dedupe_loop_from. reflexivity. Qed.

Lemma dedupe_from_sublist l : forall unique, sublist (dedupe_from unique l) l.
Proof.
  induction l as [|r l IH]; intros unique; simpl; [constructor|].
  destruct (no_identity r); [apply sublist_skip, IH|].
  destruct (unique !! _); [apply sublist_cons, IH|apply sublist_skip, IH].
Qed.

Lemma dedupe_from_no_identity l : forall unique,
  List.filter no_identity (dedupe_from unique l) = List.filter no_identity l.
Proof.
  induction l as [|r l IH]; intros unique; [reflexivity|].
  cbn [dedupe_from List.filter].
  destruct (no_identity r) eqn:E.
  - cbn [List.filter]. rewrite E, IH. reflexivity.
  - destruct (unique !! _); [apply IH|].
    cbn [List.filter]. rewrite E. apply IH.
Qed.

Lemma has_identity_spec m r :
  has_identity m r = true <->
  no_identity r = false /\ PyStr.getattr_or (message_id r) EmptyString = m.
Proof.
  unfold has_identity, no_identity. rewrite andb_true_iff, negb_false_iff.
  split; intros [H1 H2]; split; auto.
  - apply String.eqb_eq, H2.
  - apply String.eqb_eq, H2.
Qed.

Lemma dedupe_from_seen m l : forall unique,
  is_Some (unique !! m) ->
  List.filter (has_identity m) (dedupe_from unique l) = [].
Proof.
  induction l as [|r l IH]; intros unique Hm; [reflexivity|].
  cbn [dedupe_from].
  destruct (no_identity r) eqn:E.
  - cbn [List.filter].
    destruct (has_identity m r) eqn:Eh; [|apply IH, Hm].
    apply has_identity_spec in Eh. destruct Eh; congruence.
  - destruct (unique !! PyStr.getattr_or (message_id r) EmptyString) eqn:Eu;
      [apply IH, Hm|].
    cbn [List.filter].
    destruct (has_identity m r) eqn:Eh.
    + apply has_identity_spec in Eh. destruct Eh as [_ Eh].
      rewrite Eh in Eu. rewrite Eu in Hm. destruct Hm; discriminate.
    + apply IH. destruct (decide (PyStr.getattr_or (message_id r) EmptyString = m))
        as [->|Hne].
      * rewrite lookup_insert_eq. eauto.
      * rewrite lookup_insert_ne; auto.
Qed.

Lemma dedupe_from_first m l : forall unique,
  unique !! m = None ->
  List.filter (has_identity m) (dedupe_from unique l)
  = firstn 1 (List.filter (has_identity m) l).
Proof.
  induction l as [|r l IH]; intros unique Hm; [reflexivity|].
  cbn [dedupe_from List.filter].
  destruct (no_identity r) eqn:E.
  - cbn [List.filter].
    destruct (has_identity m r) eqn:Eh.
    + apply has_identity_spec in Eh. destruct Eh; congruence.
    + apply IH, Hm.
  - destruct (has_identity m r) eqn:Eh.
    + apply has_identity_spec in Eh. destruct Eh as [_ Eh]. rewrite Eh, Hm.
      cbn [List.filter]. assert (Eh' : has_identity m r = true).
      { apply has_identity_spec. auto. }
      rewrite Eh'. cbn [firstn]. f_equal.
      apply dedupe_from_seen. rewrite lookup_insert_eq. eauto.
    + assert (Hne : PyStr.getattr_or (message_id r) EmptyString <> m).
      { intros H. rewrite (proj2 (has_identity_spec m r)) in Eh; auto. discriminate. }
      destruct (unique !! PyStr.getattr_or (message_id r) EmptyString) eqn:Eu;
        [apply IH, Hm|].
      cbn [List.filter]. rewrite Eh. apply IH.
      rewrite lookup_insert_ne; auto.
Qed.

(** C5. The deduplicated list is a subsequence of the input (so the input
    order is kept); every record without an identity survives; for every
    identity, the survivors that carry it are exactly the first input
    record that carries it; and two records with identity [A] leave the
    earlier one only. *)
Theorem C5_dedupe_keeps_first_seen :
  forall (saved_emails : list saved_email),
    sublist (dedupe saved_emails) saved_emails /\
    List.filter no_identity (dedupe saved_emails)
      = List.filter no_identity saved_emails /\
    (forall m, List.filter (has_identity m) (dedupe saved_emails)
               = firstn 1 (List.filter (has_identity m) saved_emails)) /\
    dedupe [Scenario.record (Some "A") 10; Scenario.record (Some "A") 12]
      = [Scenario.record (Some "A") 10].
Proof.
  intros l. split; [|split; [|split]].
  - rewrite dedupe_unfold. apply dedupe_from_sublist.
  - rewrite dedupe_unfold. apply dedupe_from_no_identity.
  - intros m. rewrite dedupe_unfold. apply dedupe_from_first. apply lookup_empty.
  - vm_compute. reflexivity.
Qed.

(** ** The canonical timestamp *)

Lemma truthy_true s : PyStr.truthy s = true <-> s <> EmptyString.
Proof.
  unfold PyStr.truthy. rewrite negb_true_iff.
  destruct (String.eqb_spec s EmptyString); split; congruence.
Qed.

Lemma first_date_line_nonempty raw line :
  first_date_line (PyStr.splitlines raw) = Some line -> PyStr.truthy raw = true.
Proof. destruct raw; [discriminate|reflexivity]. Qed.

(** The parser returns a date exactly when the header date parses, and
    then it is that date on the local clock. *)
Lemma parsed_header_date_spec env msg d :
  parsed_header_date env msg = Some d <->
  exists dt, header_date_parses env msg dt /\ d = to_naive_local_dt env dt.
Proof.
  unfold parsed_header_date, header_date_parses,
    _parse_header_date_from_raw_headers. split.
  - destruct (raw_headers_of msg) as [raw|]; [|discriminate].
    destruct (PyStr.truthy raw); [|discriminate]. cbn [negb].
    destruct (first_date_line (PyStr.splitlines raw)) as [line|] eqn:El;
      [|discriminate].
    destruct (PyStr.truthy line) eqn:Et; [|discriminate]. cbn [negb].
    destruct (parsedate_to_datetime env line) as [dt|] eqn:Ep; [|discriminate].
    cbn [to_naive_local]. intros [= <-].
    exists dt. split; [|reflexivity].
    exists raw, line. repeat split; auto. apply truthy_true, Et.
  - intros (dt & (raw & line & Hraw & Hline & Hne & Hp) & ->).
    rewrite Hraw, (first_date_line_nonempty raw line Hline). cbn [negb].
    rewrite Hline. apply truthy_true in Hne. rewrite Hne. cbn [negb].
    rewrite Hp. reflexivity.
Qed.

Lemma parsed_header_date_none env msg :
  (forall dt, ~ header_date_parses env msg dt) ->
  parsed_header_date env msg = None.
Proof.
  intros H. destruct (parsed_header_date env msg) as [d|] eqn:E; [|reflexivity].
  apply parsed_header_date_spec in E. destruct E as (dt & Hdt & _).
  destruct (H dt Hdt).
Qed.

(** What a returned tuple holds. *)
Lemma save_mail_and_attachments_result env now msg outdir r ev :
  save_mail_and_attachments env now msg outdir = (Some r, ev) ->
  Norm.received r = received_of env now msg /\
  Norm.message_id r
    = identity_of msg (subject_of msg) (received_of env now msg) (body_of msg) /\
  Norm.chosen_date r
    = match parsed_header_date env msg with
      | Some d => d
      | None => received_of env now msg
      end /\
  Norm.date_source r
    = match parsed_header_date env msg with
      | Some _ => "header_date"
      | None => "received_time"
      end.
Proof.
  unfold save_mail_and_attachments, subject_of, body_of.
  destruct (write_text_ok env _); cbn [negb]; [|discriminate].
  destruct (fst _) as [saved|]; [|discriminate].
  intros [= <- _]. cbn. auto.
Qed.

(** The three ways [to_naive_local] treats a datetime. *)
Lemma to_naive_local_dt_cases env d :
  (tzinfo d = None -> to_naive_local_dt env d = fields d) /\
  (forall local, tzinfo d <> None -> astimezone env d = Some local ->
     to_naive_local_dt env d = fields local) /\
  (tzinfo d <> None -> astimezone env d = None ->
     to_naive_local_dt env d = fields d).
Proof.
  unfold to_naive_local_dt. destruct (tzinfo d) as [z|].
  - split; [discriminate|]. split.
    + intros local _ ->. reflexivity.
    + intros _ ->. reflexivity.
  - split; [reflexivity|]. split.
    + intros local H. destruct H. reflexivity.
    + intros H. destruct H. reflexivity.
Qed.

(** C1. When the header date of a normalised message parses, the source
    is [header_date] and the chosen date is the parsed value: as it is
    when it carries no zone, moved to the local clock by [astimezone]
    when it carries one, and with its zone dropped, its wall clock
    unchanged, when [astimezone] raises.  When the header date does not
    parse, the source is [received_time] and the chosen date is the
    receipt time, treated in the same three ways, or the current time
    when the store gives none. *)
Theorem C1_chosen_date_prefers_header_date :
  forall (env : Env) (now : naive) (msg : mail_item) (outdir : string)
         (r : Norm.t) (ev : list event),
    save_mail_and_attachments env now msg outdir = (Some r, ev) ->
    (forall dt, header_date_parses env msg dt ->
       Norm.date_source r = "header_date" /\
       (tzinfo dt = None -> Norm.chosen_date r = fields dt) /\
       (forall local, tzinfo dt <> None -> astimezone env dt = Some local ->
          Norm.chosen_date r = fields local) /\
       (tzinfo dt <> None -> astimezone env dt = None ->
          Norm.chosen_date r = fields dt)) /\
    ((forall dt, ~ header_date_parses env msg dt) ->
       Norm.date_source r = "received_time" /\
       Norm.chosen_date r = Norm.received r /\
       (ReceivedTime msg = None -> Norm.chosen_date r = now) /\
       (forall rt, ReceivedTime msg = Some rt ->
          to_naive_local env (ReceivedTime msg) = Some (Norm.chosen_date r) /\
          (tzinfo rt = None -> Norm.chosen_date r = fields rt) /\
          (forall local, tzinfo rt <> None -> astimezone env rt = Some local ->
             Norm.chosen_date r = fields local) /\
          (tzinfo rt <> None -> astimezone env rt = None ->
             Norm.chosen_date r = fields rt))).
Proof.
  intros env now msg outdir r ev Hsave.
  destruct (save_mail_and_attachments_result _ _ _ _ _ _ Hsave)
    as (Hrec & _ & Hchosen & Hsrc).
  split.
  - intros dt Hdt.
    assert (E : parsed_header_date env msg = Some (to_naive_local_dt env dt)).
    { apply parsed_header_date_spec. eauto. }
    rewrite E in Hchosen, Hsrc. split; [exact Hsrc|].
    rewrite Hchosen. apply to_naive_local_dt_cases.
  - intros Hnone. rewrite (parsed_header_date_none env msg Hnone) in Hchosen, Hsrc.
    split; [exact Hsrc|]. split; [congruence|]. split.
    + intros Hrt. rewrite Hchosen. unfold received_of. rewrite Hrt. reflexivity.
    + intros rt Hrt. rewrite Hchosen. unfold received_of. rewrite Hrt.
      split; [reflexivity|]. apply to_naive_local_dt_cases.
Qed.

Lemma C1_witness :
  exists r,
    fst (save_mail_and_attachments Scenario.env Scenario.clock
           utc_dated Scenario.outdir) = Some r /\
    Norm.date_source r = "header_date" /\
    Norm.chosen_date r = Naive 2025 8 5 11 15 0 0.
Proof.
  destruct (save_mail_and_attachments Scenario.env Scenario.clock
              utc_dated Scenario.outdir) as [[r|] ev] eqn:E.
  2: { vm_compute in E. discriminate. }
  exists r. split; [reflexivity|].
  destruct (proj1 (C1_chosen_date_prefers_header_date _ _ _ _ _ _ E)
              (DT (Naive 2025 8 5 1 15 0 0) (Some 0)))
    as (Hsrc & _ & Hlocal & _).
  - eexists _, _. split; [vm_compute; reflexivity|].
    split; [vm_compute; reflexivity|]. split; [discriminate|].
    vm_compute. reflexivity.
  - split; [exact Hsrc|].
    apply (Hlocal (DT (Naive 2025 8 5 11 15 0 0) (Some 36000)));
      [discriminate|vm_compute; reflexivity].
Defined.

(** C1 as stated fails: the header date of the message below parses to
    01:15 on 1 January 1969 at UTC, [astimezone] raises on it, and the
    chosen date is that wall clock with the zone dropped, whereas the
    same instant on the local clock, ten hours ahead, is 11:15.  The
    receipt time of the same message is converted. *)
Lemma C1_counterexample :
  exists r dt local,
    fst (save_mail_and_attachments epoch_env Scenario.clock antique
           Scenario.outdir) = Some r /\
    header_date_parses epoch_env antique dt /\
    dt = DT (Naive 1969 1 1 1 15 0 0) (Some 0) /\
    astimezone epoch_env dt = None /\
    Scenario.local_astimezone dt = Some local /\
    fields local = Naive 1969 1 1 11 15 0 0 /\
    Norm.date_source r = "header_date" /\
    Norm.chosen_date r = Naive 1969 1 1 1 15 0 0 /\
    Norm.chosen_date r <> fields local /\
    Norm.received r = Naive 2025 8 5 12 30 0 0.
Proof.
  eexists _, _, _. split; [vm_compute; reflexivity|]. split.
  - eexists _, _. split; [vm_compute; reflexivity|].
    split; [vm_compute; reflexivity|]. split; [discriminate|].
    vm_compute. reflexivity.
  - split; [reflexivity|]. split; [reflexivity|].
    split; [vm_compute; reflexivity|]. split; [reflexivity|].
    split; [reflexivity|]. split; [reflexivity|].
    split; [vm_compute; discriminate|reflexivity].
Qed.

(** C10. The source of a normalised message is [header_date] or
    [received_time], never [synthetic], and it is [header_date] exactly
    when the header date parses.  A message without a receipt time gets
    the current time as its receipt time; its source is [received_time]
    and its chosen date the current time when its header date does not
    parse, and [header_date] when it does. *)
Theorem C10_date_source_is_never_synthetic :
  forall (env : Env) (now : naive) (msg : mail_item) (outdir : string)
         (r : Norm.t) (ev : list event),
    save_mail_and_attachments env now msg outdir = (Some r, ev) ->
    (Norm.date_source r = "header_date" \/
     Norm.date_source r = "received_time") /\
    Norm.date_source r <> "synthetic" /\
    (Norm.date_source r = "header_date" <->
     exists dt, header_date_parses env msg dt) /\
    (ReceivedTime msg = None ->
       Norm.received r = now /\
       ((forall dt, ~ header_date_parses env msg dt) ->
          Norm.chosen_date r = now /\ Norm.date_source r = "received_time") /\
       (forall dt, header_date_parses env msg dt ->
          Norm.date_source r = "header_date")).
Proof.
  intros env now msg outdir r ev Hsave.
  destruct (save_mail_and_attachments_result _ _ _ _ _ _ Hsave)
    as (Hrec & _ & Hchosen & Hsrc).
  assert (Hnow : ReceivedTime msg = None -> received_of env now msg = now).
  { intros H. unfold received_of. rewrite H. reflexivity. }
  assert (Hiff : Norm.date_source r = "header_date" <->
                 exists dt, header_date_parses env msg dt).
  { rewrite Hsrc. destruct (parsed_header_date env msg) as [d|] eqn:E.
    - split; [|reflexivity]. intros _.
      apply parsed_header_date_spec in E. destruct E as (dt & Hdt & _). eauto.
    - split; [discriminate|]. intros (dt & Hdt).
      assert (E' : parsed_header_date env msg = Some (to_naive_local_dt env dt))
        by (apply parsed_header_date_spec; eauto).
      congruence. }
  split; [|split; [|split; [exact Hiff|]]].
  - rewrite Hsrc. destruct (parsed_header_date env msg); auto.
  - rewrite Hsrc. destruct (parsed_header_date env msg); discriminate.
  - intros Hnone. split; [rewrite Hrec; auto|]. split.
    + intros Hno.
      rewrite (parsed_header_date_none env msg Hno) in Hchosen, Hsrc.
      split; [rewrite Hchosen; auto|exact Hsrc].
    + intros dt Hdt. apply Hiff. eauto.
Qed.

Lemma C10_witness :
  exists r,
    fst (save_mail_and_attachments Scenario.env Scenario.clock
           Scenario.undated Scenario.outdir) = Some r /\
    Norm.received r = Scenario.clock /\
    Norm.chosen_date r = Scenario.clock /\
    Norm.date_source r = "received_time".
Proof.
  destruct (save_mail_and_attachments Scenario.env Scenario.clock
              Scenario.undated Scenario.outdir) as [[r|] ev] eqn:E.
  2: { vm_compute in E. discriminate. }
  exists r. split; [reflexivity|].
  destruct (C10_date_source_is_never_synthetic _ _ _ _ _ _ E) as (_ & _ & _ & H).
  destruct (H eq_refl) as (Hrec & Hrest & _). split; [exact Hrec|].
  apply Hrest. intros dt (raw & line & Hraw & _). vm_compute in Hraw. discriminate.
Defined.

(** C10 as stated fails: the message below has no receipt time, so the
    current time becomes its receipt timestamp, and its header date
    parses; it is tagged [header_date], not [received_time]. *)
Lemma C10_counterexample :
  exists r dt,
    fst (save_mail_and_attachments Scenario.env Scenario.clock
           undated_with_header Scenario.outdir) = Some r /\
    ReceivedTime undated_with_header = None /\
    Norm.received r = Scenario.clock /\
    header_date_parses Scenario.env undated_with_header dt /\
    Norm.date_source r = "header_date" /\
    Norm.date_source r <> "received_time" /\
    Norm.chosen_date r = Naive 2025 8 5 11 15 0 0.
Proof.
  eexists _, (DT (Naive 2025 8 5 1 15 0 0) (Some 0)).
  split; [vm_compute; reflexivity|].
  split; [reflexivity|]. split; [reflexivity|]. split.
  - eexists _, _. split; [vm_compute; reflexivity|].
    split; [vm_compute; reflexivity|]. split; [discriminate|].
    vm_compute. reflexivity.
  - split; [reflexivity|]. split; [discriminate|reflexivity].
Qed.

(** ** The client-side window filter *)

Lemma collect_loop_records env clock since until outdir its idxs :
  fst (collect_loop env clock since until outdir its idxs)
  = flat_map (item_records env clock since until outdir its) idxs.
Proof.
  induction idxs as [|i idxs IH]; [reflexivity|].
  cbn [collect_loop flat_map fst]. rewrite IH. unfold item_records.
  destruct (Item its i); reflexivity.
Qed.

(** A message outside the window leaves a log line and nothing else. *)
Lemma process_item_outside env now since until outdir msg raw :
  to_naive_local env (ReceivedTime msg) = Some raw ->
  ltb raw since = true \/ gtb raw until = true ->
  process_item env now since until outdir msg
  = (OutOfWindow raw, [LogOutOfWindow raw]).
Proof.
  intros Hraw Hout. unfold process_item. rewrite Hraw.
  destruct Hout as [-> | ->]; [reflexivity|].
  rewrite orb_true_r. reflexivity.
Qed.

(** A message inside the window goes to the normaliser. *)
Lemma process_item_inside env now since until outdir msg raw :
  to_naive_local env (ReceivedTime msg) = Some raw ->
  leb since raw = true -> leb raw until = true ->
  fst (process_item env now since until outdir msg)
  = match fst (save_mail_and_attachments env now msg outdir) with
    | Some r => Saved (record_of r)
    | None => Failed
    end.
Proof.
  intros Hraw H1 H2. unfold process_item. rewrite Hraw.
  unfold leb, gtb in *. apply negb_true_iff in H1, H2. rewrite H1, H2.
  cbn [orb]. destruct (save_mail_and_attachments env now msg outdir) as [[r|] ev];
    reflexivity.
Qed.

(** A record comes from a message whose receipt time is in the window. *)
Lemma process_item_saved env now since until outdir msg rec :
  fst (process_item env now since until outdir msg) = Saved rec ->
  exists raw,
    to_naive_local env (ReceivedTime msg) = Some raw /\
    raw_received rec = Some raw /\
    leb since raw = true /\ leb raw until = true.
Proof.
  unfold process_item.
  destruct (ReceivedTime msg) as [rt|] eqn:Ert; cbn [to_naive_local];
    [|discriminate].
  destruct (ltb _ since || gtb _ until) eqn:Ew; [discriminate|].
  apply orb_false_iff in Ew. destruct Ew as [E1 E2].
  destruct (save_mail_and_attachments env now msg outdir) as [[r|] ev] eqn:Es;
    [|discriminate].
  cbn [fst]. intros [= <-].
  destruct (save_mail_and_attachments_result _ _ _ _ _ _ Es) as (Hrec & _).
  exists (to_naive_local_dt env rt). split; [reflexivity|]. split.
  - cbn [record_of raw_received]. rewrite Hrec. unfold received_of.
    rewrite Ert. reflexivity.
  - unfold leb, gtb in *. rewrite E1, E2. auto.
Qed.

(** C2. Whatever collection the resolver hands over, the records of the
    run are the ones its items contribute one by one; an item whose
    receipt time lies before [since] or after [until] contributes none,
    an item whose receipt time lies in the closed window is passed to
    the normaliser, and every record of the run has its receipt time in
    the window. *)
Theorem C2_window_filter_is_applied_to_every_item :
  forall (env : Env) (clock : Z -> naive) (since until : naive)
         (outdir : string) (f : folder) (recs : list saved_email)
         (ev : list event),
    fetch env clock since until outdir f = (Some recs, ev) ->
    (forall rec, In rec recs ->
       exists raw, raw_received rec = Some raw /\
                   leb since raw = true /\ leb raw until = true) /\
    (forall its, fst (restrict_items_range f since until) = Some its ->
       exists count,
         item_count (Some its) = Some count /\
         recs = flat_map (item_records env clock since until outdir its)
                  (range1 count) /\
         forall i msg raw,
           Item its i = Some msg ->
           to_naive_local env (ReceivedTime msg) = Some raw ->
           (ltb raw since = true \/ gtb raw until = true ->
              process_item env (clock i) since until outdir msg
                = (OutOfWindow raw, [LogOutOfWindow raw]) /\
              item_records env clock since until outdir its i = []) /\
           (leb since raw = true -> leb raw until = true ->
              fst (process_item env (clock i) since until outdir msg)
                = match fst (save_mail_and_attachments env (clock i) msg outdir)
                  with
                  | Some r => Saved (record_of r)
                  | None => Failed
                  end)).
Proof.
  intros env clock since until outdir f recs ev Hfetch.
  unfold fetch, collect in Hfetch.
  destruct (fst (restrict_items_range f since until)) as [its|] eqn:Eits.
  - destruct (item_count (Some its)) as [count|] eqn:Ec; [|discriminate].
    cbn [fst snd] in Hfetch. injection Hfetch as Hrecs _.
    rewrite collect_loop_records in Hrecs. split.
    + intros rec Hin. rewrite <- Hrecs in Hin.
      apply in_flat_map in Hin. destruct Hin as (i & _ & Hin).
      unfold item_records in Hin. destruct (Item its i) as [msg|]; [|destruct Hin].
      destruct (fst (process_item env (clock i) since until outdir msg))
        as [| | |rec'] eqn:Ep; simpl in Hin; try contradiction.
      destruct Hin as [<-|[]].
      destruct (process_item_saved _ _ _ _ _ _ _ Ep) as (raw & _ & H). eauto.
    + intros its' [= <-]. exists count. split; [exact Ec|].
      split; [auto|]. intros i msg raw Hi Hraw. split.
      * intros Hout. split; [apply process_item_outside; auto|].
        unfold item_records. rewrite Hi.
        rewrite (process_item_outside _ _ _ _ _ _ _ Hraw Hout). reflexivity.
      * intros H1 H2. apply (process_item_inside _ _ _ _ _ _ raw); auto.
  - cbn in Hfetch. injection Hfetch as <- _. split; [intros rec []|].
    intros its [=].
Qed.

Lemma C2_witness :
  exists recs,
    fst (fetch Scenario.env (fun _ => Scenario.clock) Scenario.since
           Scenario.until Scenario.outdir Scenario.leaky_dasl_inbox)
      = Some recs /\
    forall rec, In rec recs ->
      exists raw, raw_received rec = Some raw /\
                  leb Scenario.since raw = true /\
                  leb raw Scenario.until = true.
Proof.
  destruct (fetch Scenario.env (fun _ => Scenario.clock) Scenario.since
              Scenario.until Scenario.outdir Scenario.leaky_dasl_inbox)
    as [[recs|] ev] eqn:E.
  2: { vm_compute in E. discriminate. }
  exists recs. split; [reflexivity|].
  apply (proj1 (C2_window_filter_is_applied_to_every_item _ _ _ _ _ _ _ _ E)).
Defined.

(** The three ways through the resolver: both filters rejected, an empty
    DASL answer followed by the MAPI filter, and a DASL answer that lets a
    stale message through.  The stale message never becomes a record. *)
Example window_filter_on_every_path :
  let run f :=
    option_map (map txt)
      (fst (fetch Scenario.env (fun _ => Scenario.clock) Scenario.since
              Scenario.until Scenario.outdir f)) in
  run Scenario.unfiltered_inbox
    = Some ["C:\out\20250807_policy\20250805_103000_Rate change.txt";
            "C:\out\20250807_policy\20250803_140000_Fee schedule.txt"] /\
  run Scenario.empty_dasl_inbox
    = Some ["C:\out\20250807_policy\20250805_103000_Rate change.txt"] /\
  run Scenario.leaky_dasl_inbox
    = Some ["C:\out\20250807_policy\20250803_140000_Fee schedule.txt"].
Proof. vm_compute. repeat split; reflexivity. Qed.

(** ** The fallback identity *)

Lemma identity_of_fallback msg subj received body :
  lacks_provider_ids msg = true ->
  identity_of msg subj received body
  = Sha256.hexdigest
      (PyStr.encode (fingerprint_key subj (sender_of msg) received body)).
Proof.
  unfold lacks_provider_ids, identity_of. rewrite andb_true_iff.
  intros [H1 H2]. apply negb_true_iff in H1, H2. rewrite H1, H2. reflexivity.
Qed.

(** C3 as amended. The fallback identity is the SHA-256 of
    [subject|sender|receipt time|first 500 characters of the body], with
    the receipt time on the local clock; two messages that agree on these
    four get the same identity; and a message that has a receipt time
    gets the same identity again whatever the clock and the output
    directory. *)
Theorem C3_fallback_identity_hashes_receipt_time :
  forall (env : Env) (now1 now2 : naive) (m1 m2 : mail_item)
         (out1 out2 : string) (r1 r2 : Norm.t) (ev1 ev2 : list event),
    lacks_provider_ids m1 = true ->
    lacks_provider_ids m2 = true ->
    save_mail_and_attachments env now1 m1 out1 = (Some r1, ev1) ->
    save_mail_and_attachments env now2 m2 out2 = (Some r2, ev2) ->
    Norm.message_id r1
      = Sha256.hexdigest
          (PyStr.encode
             (subject_of m1 +:+ "|" +:+ sender_of m1 +:+ "|" +:+
              DateTime.str (Norm.received r1) +:+ "|" +:+
              PyStr.take 500 (body_of m1))) /\
    (subject_of m1 = subject_of m2 ->
     sender_of m1 = sender_of m2 ->
     Norm.received r1 = Norm.received r2 ->
     PyStr.take 500 (body_of m1) = PyStr.take 500 (body_of m2) ->
     Norm.message_id r1 = Norm.message_id r2) /\
    (m1 = m2 -> ReceivedTime m1 <> None ->
     Norm.message_id r1 = Norm.message_id r2).
Proof.
  intros env now1 now2 m1 m2 out1 out2 r1 r2 ev1 ev2 L1 L2 S1 S2.
  destruct (save_mail_and_attachments_result _ _ _ _ _ _ S1) as (R1 & I1 & _).
  destruct (save_mail_and_attachments_result _ _ _ _ _ _ S2) as (R2 & I2 & _).
  rewrite identity_of_fallback in I1, I2 by assumption.
  rewrite <- R1 in I1. rewrite <- R2 in I2.
  unfold fingerprint_key in I1, I2.
  split; [exact I1|]. split.
  - intros Hs Hf Hr Hb. rewrite I1, I2, Hs, Hf, Hr, Hb. reflexivity.
  - intros <- Hrt. rewrite I1, I2, R1, R2. unfold received_of.
    destruct (ReceivedTime m1); [reflexivity|congruence].
Qed.

Lemma C3_witness :
  exists r,
    fst (save_mail_and_attachments Scenario.env Scenario.clock
           Scenario.misdated Scenario.outdir) = Some r /\
    Norm.message_id r
      = "bdbfb9b51c88f0bde4f6c503ab76fe5473a36dc9dc43f7f4b978bc37f8f78afd".
Proof.
  destruct (save_mail_and_attachments Scenario.env Scenario.clock
              Scenario.misdated Scenario.outdir) as [[r|] ev] eqn:E.
  2: { vm_compute in E. discriminate. }
  exists r. split; [reflexivity|].
  assert (L : lacks_provider_ids Scenario.misdated = true) by reflexivity.
  rewrite (proj1 (C3_fallback_identity_hashes_receipt_time
                    _ _ _ _ _ _ _ _ _ _ _ L L E E)).
  vm_compute in E. injection E as <- _. vm_compute. reflexivity.
Defined.

(** C3 as stated fails: the two messages below agree on subject, sender,
    canonical timestamp (their common header date) and body, neither has
    an identifier from the store, and their identities differ, because
    the key holds the receipt time. *)
Lemma C3_counterexample :
  exists r1 r2,
    fst (save_mail_and_attachments Scenario.env Scenario.clock
           Scenario.misdated Scenario.outdir) = Some r1 /\
    fst (save_mail_and_attachments Scenario.env Scenario.clock
           Scenario.misdated_again Scenario.outdir) = Some r2 /\
    lacks_provider_ids Scenario.misdated = true /\
    lacks_provider_ids Scenario.misdated_again = true /\
    subject_of Scenario.misdated = subject_of Scenario.misdated_again /\
    sender_of Scenario.misdated = sender_of Scenario.misdated_again /\
    Norm.chosen_date r1 = Norm.chosen_date r2 /\
    PyStr.take 500 (body_of Scenario.misdated)
      = PyStr.take 500 (body_of Scenario.misdated_again) /\
    Norm.message_id r1 <> Norm.message_id r2.
Proof.
  eexists _, _. split; [vm_compute; reflexivity|].
  split; [vm_compute; reflexivity|].
  repeat split; try reflexivity. vm_compute. discriminate.
Qed.

(** ** The range resolver *)

Lemma dasl_is_not_mapi since1 until1 since2 until2 :
  dasl_query since1 until1 <> mapi_query since2 until2.
Proof. unfold dasl_query, mapi_query. cbn. discriminate. Qed.

Lemma restrict_mapi_attempted its since until :
  legacy_attempted since until (snd (restrict_mapi its since until)) /\
  fst (restrict_mapi its since until) = legacy_result its since until.
Proof.
  unfold restrict_mapi, legacy_attempted, legacy_result.
  destruct (Restrict its (mapi_query since until)); cbn; auto.
Qed.

Lemma legacy_attempted_app since until t1 t2 :
  legacy_attempted since until t2 -> legacy_attempted since until (t1 ++ t2).
Proof. unfold legacy_attempted. intros H. apply in_or_app. auto. Qed.

Lemma dasl_only_not_legacy since until log :
  (forall q, log <> EvRestrict q) ->
  ~ legacy_attempted since until
      ([EvSetIncludeRecurrences; EvSort] ++
       [EvRestrict (dasl_query since until); log]).
Proof.
  unfold legacy_attempted. intros Hlog [H|[H|[H|[H|[]]]]].
  - discriminate.
  - discriminate.
  - apply (dasl_is_not_mapi since until since until).
    exact (f_equal (fun e => match e with EvRestrict q => q | _ => EmptyString end) H).
  - exact (Hlog _ H).
Qed.

(** C4 as amended. The MAPI filter is attempted when the DASL restriction
    raises, and also when it succeeds with a [Count] that is not positive
    (or with no [Count] at all); its outcome is then the result.  When the
    DASL restriction succeeds with a positive [Count], or with a [Count]
    that cannot be read, its result is returned and the MAPI filter is not
    attempted. *)
Theorem C4_legacy_filter_runs_on_error_or_empty_result :
  forall (f : folder) (since until : naive) (its : items),
    FolderItems f = Some its ->
    let r := restrict_items_range f since until in
    match Restrict its (dasl_query since until) with
    | None =>
        legacy_attempted since until (snd r) /\
        fst r = Some (legacy_result its since until)
    | Some filtered =>
        match Count filtered with
        | CountIs n =>
            if 0 <? n
            then ~ legacy_attempted since until (snd r) /\ fst r = Some filtered
            else legacy_attempted since until (snd r) /\
                 fst r = Some (legacy_result its since until)
        | CountMissing =>
            legacy_attempted since until (snd r) /\
            fst r = Some (legacy_result its since until)
        | CountRaises =>
            ~ legacy_attempted since until (snd r) /\ fst r = Some filtered
        end
    end.
Proof.
  intros f since until its Hits r. subst r. unfold restrict_items_range.
  rewrite Hits.
  destruct (restrict_mapi_attempted its since until) as [Hatt Hres].
  destruct (Restrict its (dasl_query since until)) as [filtered|].
  - destruct (Count filtered) as [n| |].
    + destruct (0 <? n); cbn [fst snd].
      * split; [|reflexivity]. apply dasl_only_not_legacy. discriminate.
      * split; [apply legacy_attempted_app, Hatt|congruence].
    + cbn [fst snd]. split; [apply legacy_attempted_app, Hatt|congruence].
    + cbn [fst snd]. split; [|reflexivity].
      apply dasl_only_not_legacy. discriminate.
  - cbn [fst snd]. split; [|congruence].
    apply legacy_attempted_app, (legacy_attempted_app _ _ [_; _]), Hatt.
Qed.

Lemma C4_witness :
  legacy_attempted Scenario.since Scenario.until
    (snd (restrict_items_range Scenario.unfiltered_inbox Scenario.since
            Scenario.until)) /\
  option_map Count
    (fst (restrict_items_range Scenario.unfiltered_inbox Scenario.since
            Scenario.until)) = Some (CountIs 3).
Proof.
  pose proof (C4_legacy_filter_runs_on_error_or_empty_result
                Scenario.unfiltered_inbox Scenario.since Scenario.until _
                eq_refl) as H.
  cbv zeta in H. change (Restrict _ _) with (@None items) in H.
  destruct H as [H1 H2]. split; [exact H1|]. rewrite H2. reflexivity.
Defined.

(** C4 as stated fails: the store below answers the DASL restriction
    without an error, with an empty collection; the resolver goes on to
    the MAPI filter and returns what that filter finds. *)
Lemma C4_counterexample :
  exists its filtered,
    FolderItems Scenario.empty_dasl_inbox = Some its /\
    Restrict its (dasl_query Scenario.since Scenario.until) = Some filtered /\
    Count filtered = CountIs 0 /\
    legacy_attempted Scenario.since Scenario.until
      (snd (restrict_items_range Scenario.empty_dasl_inbox Scenario.since
              Scenario.until)) /\
    option_map Count
      (fst (restrict_items_range Scenario.empty_dasl_inbox Scenario.since
              Scenario.until)) = Some (CountIs 2).
Proof.
  eexists _, _. split; [reflexivity|]. split; [vm_compute; reflexivity|].
  split; [reflexivity|]. split; [|vm_compute; reflexivity].
  unfold legacy_attempted. vm_compute. tauto.
Qed.

(** ** Recovery of the extractor's JSON *)

Lemma find_bounds c s : -1 <= PyStr.find c s.
Proof.
  induction s as [|d r IH]; simpl; [lia|].
  destruct (Ascii.eqb d c); [lia|]. destruct (PyStr.find c r <? 0); lia.
Qed.

Lemma rfind_bounds c s : -1 <= PyStr.rfind c s.
Proof.
  induction s as [|d r IH]; simpl; [lia|].
  destruct (0 <=? PyStr.rfind c r); [lia|]. destruct (Ascii.eqb d c); lia.
Qed.

Lemma slice_cons a b c r :
  0 <= a -> PyStr.slice (a + 1) (b + 1) (String c r) = PyStr.slice a b r.
Proof.
  intros Ha. unfold PyStr.slice.
  replace (Z.to_nat (a + 1)) with (S (Z.to_nat a)) by lia.
  replace (b + 1 - (a + 1)) with (b - a) by lia. reflexivity.
Qed.

Lemma slice_head b c r :
  0 <= b -> PyStr.slice 0 (b + 1) (String c r) = String c (PyStr.slice 0 b r).
Proof.
  intros Hb. unfold PyStr.slice.
  replace (Z.to_nat (b + 1 - 0)) with (S (Z.to_nat (b - 0))) by lia.
  reflexivity.
Qed.

(** The regular expression finds the block from the first opening brace
    to the last closing brace, when the former comes first, and nothing
    otherwise. *)
Lemma re_search_brace_block_spec text :
  re_search_brace_block text
  = if has_brace_block text then Some (brace_block text) else None.
Proof.
  unfold has_brace_block, brace_block.
  induction text as [|c r IH]; [reflexivity|].
  cbn [re_search_brace_block PyStr.find PyStr.rfind].
  pose proof (find_bounds "{" r) as Hf. pose proof (rfind_bounds "}" r) as Hr.
  destruct (Ascii.eqb c "{") eqn:Ec.
  - destruct (0 <=? PyStr.rfind "}" r) eqn:E0; cbn [andb].
    + apply Z.leb_le in E0.
      replace (0 <=? 0) with true by reflexivity.
      replace (0 <? PyStr.rfind "}" r + 1) with true by (symmetry; apply Z.ltb_lt; lia).
      cbn [andb]. rewrite slice_head by lia. reflexivity.
    + rewrite IH. apply Z.leb_gt in E0.
      assert (Ece : Ascii.eqb c "}" = false).
      { apply Ascii.eqb_eq in Ec. subst c. reflexivity. }
      rewrite Ece.
      replace (PyStr.find "{" r <? PyStr.rfind "}" r) with false
        by (symmetry; apply Z.ltb_ge; lia).
      rewrite andb_false_r. reflexivity.
  - cbn [andb]. rewrite IH.
    destruct (PyStr.find "{" r <? 0) eqn:Ef.
    + apply Z.ltb_lt in Ef.
      replace (0 <=? PyStr.find "{" r) with false by (symmetry; apply Z.leb_gt; lia).
      cbn [andb]. reflexivity.
    + apply Z.ltb_ge in Ef.
      replace (0 <=? PyStr.find "{" r) with true by (symmetry; apply Z.leb_le; lia).
      replace (0 <=? PyStr.find "{" r + 1) with true by (symmetry; apply Z.leb_le; lia).
      cbn [andb].
      destruct (0 <=? PyStr.rfind "}" r) eqn:E0.
      * apply Z.leb_le in E0.
        replace (PyStr.find "{" r + 1 <? PyStr.rfind "}" r + 1)
          with (PyStr.find "{" r <? PyStr.rfind "}" r).
        2: { destruct (Z.ltb_spec (PyStr.find "{" r) (PyStr.rfind "}" r));
             symmetry; [apply Z.ltb_lt|apply Z.ltb_ge]; lia. }
        destruct (PyStr.find "{" r <? PyStr.rfind "}" r); [|reflexivity].
        rewrite slice_cons by lia. reflexivity.
      * apply Z.leb_gt in E0.
        replace (PyStr.find "{" r <? PyStr.rfind "}" r) with false
          by (symmetry; apply Z.ltb_ge; lia).
        destruct (Ascii.eqb c "}");
          match goal with
          | |- None = (if ?b then _ else _) =>
              replace b with false by (symmetry; apply Z.ltb_ge; lia)
          end; reflexivity.
Qed.

Lemma _extract_first_json_block_spec json_loads_ok text :
  _extract_first_json_block json_loads_ok text
  = if has_brace_block text then brace_block text else text.
Proof.
  unfold _extract_first_json_block. rewrite re_search_brace_block_spec.
  fold (brace_block text).
  destruct (has_brace_block text) eqn:Eb.
  - destruct (_ && json_loads_ok (brace_block text));
      [reflexivity|]. destruct (json_loads_ok (brace_block text)); reflexivity.
  - unfold has_brace_block in Eb.
    pose proof (find_bounds "{" text). pose proof (rfind_bounds "}" text).
    destruct (PyStr.find "{" text =? -1) eqn:E1; [reflexivity|].
    destruct (PyStr.rfind "}" text =? -1) eqn:E2; [reflexivity|].
    apply Z.eqb_neq in E1, E2.
    replace (0 <=? PyStr.find "{" text) with true in Eb
      by (symmetry; apply Z.leb_le; lia).
    cbn [andb negb] in *. rewrite Eb. reflexivity.
Qed.

(** C8 as amended. The response is stripped of surrounding white space
    first.  If the stripped text parses as JSON it is returned; if it does
    not and has an opening brace before its last closing brace, the text
    from the first opening brace to the last closing brace is returned,
    whether it parses as JSON or not; if it has no such block, the
    stripped text is returned.  The function is total: it never raises. *)
Theorem C8_extractor_json_recovery :
  forall (json_loads_ok : string -> bool) (content : string),
    let text := PyStr.strip content in
    extractor_json_text json_loads_ok content
    = if json_loads_ok text then text
      else if has_brace_block text then brace_block text
      else text.
Proof.
  intros json_loads_ok content text. subst text. unfold extractor_json_text.
  destruct (json_loads_ok (PyStr.strip content)); [reflexivity|].
  apply _extract_first_json_block_spec.
Qed.

Lemma C8_witness :
  extractor_json_text Json.loads_ok
    ("Here is the result:" +:+ nl +:+ "{" +:+ dq +:+ "updates" +:+ dq +:+
     ":[]," +:+ dq +:+ "meta" +:+ dq +:+ ":{}}" +:+ nl +:+ "Thanks")
  = "{" +:+ dq +:+ "updates" +:+ dq +:+ ":[]," +:+ dq +:+ "meta" +:+ dq +:+ ":{}}"
  /\
  extractor_json_text Json.loads_ok "  no braces here  " = "no braces here".
Proof.
  split.
  - rewrite C8_extractor_json_recovery. vm_compute. reflexivity.
  - rewrite C8_extractor_json_recovery. vm_compute. reflexivity.
Defined.

(** C8 as stated fails: the response below is not JSON, the text between
    its first opening and last closing brace is not JSON either, so no
    JSON is recovered; yet what comes back is that brace block, not the
    raw text. *)
Lemma C8_counterexample :
  let content := "abc {not json} def" in
  Json.loads_ok content = false /\
  Json.loads_ok (brace_block content) = false /\
  re_search_brace_block content = Some "{not json}" /\
  Json.loads_ok "{not json}" = false /\
  extractor_json_text Json.loads_ok content = "{not json}" /\
  extractor_json_text Json.loads_ok content <> content.
Proof. vm_compute. repeat split; try reflexivity. discriminate. Qed.

(** A response that is valid JSON between blanks comes back stripped. *)
Example extractor_strips_valid_json :
  Json.loads_ok " {} " = true /\
  extractor_json_text Json.loads_ok " {} " = "{}".
Proof. vm_compute. split; reflexivity. Qed.

(** ** The attachment whitelist *)

Lemma str_in_In x l : str_in x l = true <-> In x l.
Proof.
  unfold str_in. rewrite existsb_exists. split.
  - intros (y & Hy & E). apply String.eqb_eq in E. subst. exact Hy.
  - intros H. exists x. split; [exact H|apply String.eqb_refl].
Qed.

Lemma lower_char_idem c : PyStr.lower_char (PyStr.lower_char c) = PyStr.lower_char c.
Proof. destruct c as [[] [] [] [] [] [] [] []]; reflexivity. Qed.

Lemma lower_char_dot c : Ascii.eqb (PyStr.lower_char c) "." = Ascii.eqb c ".".
Proof. destruct c as [[] [] [] [] [] [] [] []]; reflexivity. Qed.

Lemma lower_char_slash c : Ascii.eqb (PyStr.lower_char c) "/" = Ascii.eqb c "/".
Proof. destruct c as [[] [] [] [] [] [] [] []]; reflexivity. Qed.

Lemma lower_char_backslash c : Ascii.eqb (PyStr.lower_char c) "\" = Ascii.eqb c "\".
Proof. destruct c as [[] [] [] [] [] [] [] []]; reflexivity. Qed.

Lemma lower_idem s : PyStr.lower (PyStr.lower s) = PyStr.lower s.
Proof.
  induction s as [|c r IH]; simpl; [reflexivity|].
  rewrite lower_char_idem, IH. reflexivity.
Qed.

Lemma rfind_lower d s :
  (forall c, Ascii.eqb (PyStr.lower_char c) d = Ascii.eqb c d) ->
  PyStr.rfind d (PyStr.lower s) = PyStr.rfind d s.
Proof.
  intros Hd. induction s as [|c r IH]; simpl; [reflexivity|].
  rewrite IH, Hd. reflexivity.
Qed.

Lemma substring_lower s : forall n m,
  substring n m (PyStr.lower s) = PyStr.lower (substring n m s).
Proof.
  induction s as [|c r IH]; intros [|n] [|m]; simpl; try reflexivity.
  - rewrite IH. reflexivity.
  - apply IH.
  - apply IH.
Qed.

Lemma length_lower s : String.length (PyStr.lower s) = String.length s.
Proof. induction s as [|c r IH]; simpl; congruence. Qed.

Lemma has_non_dot_lower s : has_non_dot (PyStr.lower s) = has_non_dot s.
Proof.
  induction s as [|c r IH]; simpl; [reflexivity|].
  rewrite lower_char_dot, IH. reflexivity.
Qed.

(** Lower-casing a name lower-cases its extension, and nothing else. *)
Lemma splitext_lower p :
  snd (splitext (PyStr.lower p)) = PyStr.lower (snd (splitext p)).
Proof.
  unfold splitext, PyStr.slice.
  rewrite !rfind_lower by auto using lower_char_dot, lower_char_slash,
    lower_char_backslash.
  rewrite substring_lower, has_non_dot_lower, length_lower.
  destruct (_ && _); cbn [snd]; [|reflexivity].
  apply substring_lower.
Qed.

Lemma ext_allowed_lower name : ext_allowed (PyStr.lower name) = ext_allowed name.
Proof. unfold ext_allowed. rewrite splitext_lower, lower_idem. reflexivity. Qed.

(** The three outcomes of one turn of the attachment loop. *)
Lemma save_one_attachment_cases env outdir base_name att att_name :
  FileName att = Some att_name -> att_name <> EmptyString ->
  save_one_attachment env outdir base_name att
  = if ext_allowed att_name
    then if SaveAsFile att (att_path_of env outdir base_name att_name)
         then ([att_path_of env outdir base_name att_name],
               [EvSaveAsFile att_name (att_path_of env outdir base_name att_name)])
         else ([], [LogSaveFailed att_name])
    else ([], [LogSkipAttachment att_name (snd (splitext att_name))]).
Proof.
  intros Hn Hne. unfold save_one_attachment, att_path_of. rewrite Hn.
  apply truthy_true in Hne. rewrite Hne. cbn [negb].
  destruct (ext_allowed att_name); reflexivity.
Qed.

(** The loop returns when every [Item(i)] does, and then it has gathered
    the paths index by index. *)
Lemma save_attachments_paths env outdir base_name atts idxs :
  match fst (save_attachments env outdir base_name atts idxs) with
  | Some saved =>
      saved = flat_map (persisted_paths env outdir base_name atts) idxs /\
      forall i, In i idxs -> AttItem atts i <> None
  | None => exists i, In i idxs /\ AttItem atts i = None
  end.
Proof.
  induction idxs as [|i idxs IH]; cbn [save_attachments fst flat_map].
  - split; [reflexivity|]. intros i Hi. destruct Hi.
  - unfold persisted_paths at 1.
    destruct (AttItem atts i) as [att|] eqn:Ei; cbn [fst].
    + destruct (fst (save_attachments env outdir base_name atts idxs))
        as [saved|]; cbn [option_map].
      * destruct IH as [-> IH]. split; [reflexivity|].
        intros j [<-|Hj]; [congruence|auto].
      * destruct IH as (j & Hj & Ej). exists j. split; [right|]; auto.
    + exists i. split; [left|]; auto.
Qed.

(** C9 as amended. For a message that is normalised, the saved paths are
    gathered attachment by attachment.  An attachment with a name is
    saved exactly when the lower-cased extension of its name is one of the
    nine whitelisted ones and its [SaveAsFile] does not raise; the test
    ignores case; a name outside the whitelist is logged and skipped.
    [report.PDF] and [report.pdf] pass the test, [report.exe] does not. *)
Theorem C9_attachment_saved_iff_whitelisted_and_save_succeeds :
  forall (env : Env) (now : naive) (msg : mail_item) (outdir : string)
         (r : Norm.t) (ev : list event) (atts : attachment_collection),
    save_mail_and_attachments env now msg outdir = (Some r, ev) ->
    Attachments msg = Some atts ->
    let base_name := base_name_of env now msg in
    Norm.saved_att r
      = flat_map (persisted_paths env outdir base_name atts)
          (range1 (attachment_count atts)) /\
    (forall i att att_name,
       AttItem atts i = Some att ->
       FileName att = Some att_name -> att_name <> EmptyString ->
       let ext := snd (splitext att_name) in
       let att_path := att_path_of env outdir base_name att_name in
       (ext_allowed att_name = true <-> In (PyStr.lower ext) allowed_exts) /\
       ext_allowed (PyStr.lower att_name) = ext_allowed att_name /\
       (persisted_paths env outdir base_name atts i = [att_path] <->
          ext_allowed att_name = true /\ SaveAsFile att att_path = true) /\
       (persisted_paths env outdir base_name atts i = [att_path] \/
        persisted_paths env outdir base_name atts i = []) /\
       (ext_allowed att_name = false ->
          save_one_attachment env outdir base_name att
          = ([], [LogSkipAttachment att_name ext]))) /\
    ext_allowed "report.PDF" = true /\
    ext_allowed "report.pdf" = true /\
    ext_allowed "report.exe" = false.
Proof.
  intros env now msg outdir r ev atts Hsave Hatts base_name.
  split; [|split; [|repeat split; reflexivity]].
  - unfold save_mail_and_attachments in Hsave.
    destruct (write_text_ok env _); cbn [negb] in Hsave; [|discriminate].
    rewrite Hatts in Hsave.
    pose proof (save_attachments_paths env outdir base_name atts
                  (range1 (attachment_count atts))) as Hloop.
    unfold base_name, base_name_of, subject_of in Hloop.
    destruct (fst (save_attachments _ _ _ _ _)) as [saved|]; [|discriminate].
    injection Hsave as <- _. cbn [Norm.saved_att]. apply Hloop.
  - intros i att att_name Hi Hn Hne ext att_path.
    pose proof (save_one_attachment_cases env outdir base_name att att_name
                  Hn Hne) as Hc.
    fold att_path in Hc. fold ext in Hc.
    unfold persisted_paths. rewrite Hi, Hc.
    split; [apply str_in_In|]. split; [apply ext_allowed_lower|].
    destruct (ext_allowed att_name), (SaveAsFile att att_path); cbn [fst];
      repeat split; auto; try discriminate; try tauto;
      try (intros [? ?]; discriminate).
Qed.

Lemma C9_witness :
  exists r,
    fst (save_mail_and_attachments Scenario.env Scenario.clock
           Scenario.misdated Scenario.outdir) = Some r /\
    Norm.saved_att r
      = ["C:\out\20250807_policy\20250805_103000_Rate change_report.PDF";
         "C:\out\20250807_policy\20250805_103000_Rate change_report.pdf"].
Proof.
  destruct (save_mail_and_attachments Scenario.env Scenario.clock
              Scenario.misdated Scenario.outdir) as [[r|] ev] eqn:E.
  2: { vm_compute in E. discriminate. }
  exists r. split; [reflexivity|].
  rewrite (proj1 (C9_attachment_saved_iff_whitelisted_and_save_succeeds
                    _ _ _ _ _ _ Scenario.three_attachments E eq_refl)).
  vm_compute. reflexivity.
Defined.

(** C9 as stated fails: the attachment [report.pdf] below has a
    whitelisted extension, its [SaveAsFile] raises, the message is
    normalised all the same and the attachment is not saved. *)
Lemma C9_counterexample :
  exists r ev att,
    save_mail_and_attachments Scenario.env Scenario.clock Scenario.plain
      Scenario.outdir = (Some r, ev) /\
    Attachments Scenario.plain = Some Scenario.one_failing_attachment /\
    AttItem Scenario.one_failing_attachment 1 = Some att /\
    FileName att = Some "report.pdf" /\
    In (PyStr.lower (snd (splitext "report.pdf"))) allowed_exts /\
    Norm.saved_att r = [] /\
    nothing_saved ev /\
    In (LogSaveFailed "report.pdf") ev.
Proof.
  eexists _, _, _. split; [vm_compute; reflexivity|].
  split; [reflexivity|]. split; [reflexivity|]. split; [reflexivity|].
  split; [vm_compute; tauto|]. split; [reflexivity|]. split.
  - intros name path H. simpl in H. intuition discriminate.
  - right. left. reflexivity.
Qed.

(** Skipping an attachment does not end the message: when the body can
    be written and every [Item(i)] returns, the message is normalised,
    whatever the names of its attachments. *)
Lemma skipping_is_not_fatal env now msg outdir :
  write_text_ok env
    (joinpath env outdir (base_name_of env now msg +:+ ".txt")) = true ->
  (forall atts i, Attachments msg = Some atts ->
     In i (range1 (attachment_count atts)) -> AttItem atts i <> None) ->
  exists r ev, save_mail_and_attachments env now msg outdir = (Some r, ev).
Proof.
  intros Hw Hitems. unfold save_mail_and_attachments.
  unfold base_name_of, subject_of in Hw. rewrite Hw. cbn [negb].
  destruct (Attachments msg) as [atts|] eqn:Ea.
  - pose proof (save_attachments_paths env outdir
                  (base_name_of env now msg) atts
                  (range1 (attachment_count atts))) as Hloop.
    unfold base_name_of, subject_of in Hloop.
    destruct (fst (save_attachments _ _ _ _ _)) as [saved|]; [eauto|].
    destruct Hloop as (i & Hi & Ei). destruct (Hitems atts i eq_refl Hi Ei).
  - cbn [fst]. eauto.
Qed.

(** ** Runs on the concrete store *)

Lemma C5_witness :
  dedupe [Scenario.record (Some "A") 10; Scenario.timeless None;
          Scenario.record (Some "B") 11; Scenario.record (Some "A") 12;
          Scenario.timeless None]
  = [Scenario.record (Some "A") 10; Scenario.timeless None;
     Scenario.record (Some "B") 11; Scenario.timeless None] /\
  List.filter (has_identity "A")
    (dedupe [Scenario.record (Some "A") 10; Scenario.record (Some "A") 12])
  = [Scenario.record (Some "A") 10].
Proof.
  split; [vm_compute; reflexivity|].
  rewrite (proj1 (proj2 (proj2 (C5_dedupe_keeps_first_seen
    [Scenario.record (Some "A") 10; Scenario.record (Some "A") 12]))) "A").
  reflexivity.
Defined.

Lemma C6_witness :
  StronglySorted (effective_le Scenario.since)
    (sort_by_received Scenario.since
       [Scenario.record (Some "C") 12; Scenario.timeless (Some "D");
        Scenario.record (Some "A") 10; Scenario.record (Some "B") 10]) /\
  map message_id
    (sort_by_received Scenario.since
       [Scenario.record (Some "C") 12; Scenario.timeless (Some "D");
        Scenario.record (Some "A") 10; Scenario.record (Some "B") 10])
  = [Some "D"; Some "A"; Some "B"; Some "C"].
Proof.
  split; [|vm_compute; reflexivity].
  apply (C6_sort_by_received_ordered_and_stable Scenario.since).
Defined.

Lemma C7_witness :
  period_bounds Scenario.since Scenario.until
    [Scenario.record (Some "A") 15]
  = (Naive 2025 8 15 12 0 0 0, Scenario.until) /\
  period_bounds Scenario.since Scenario.until [] = (Scenario.since, Scenario.until).
Proof.
  split.
  - pose proof (C7_period_bounds_clamped Scenario.since Scenario.until
                  [Scenario.record (Some "A") 15]) as H.
    cbv zeta in H.
    change (dates_of [Scenario.record (Some "A") 15])
      with [Naive 2025 8 15 12 0 0 0] in H.
    destruct H as (lo & hi & Hlo & Hhi & _ & Hb & _).
    destruct Hlo as [<-|[]]. destruct Hhi as [<-|[]].
    rewrite Hb. vm_compute. reflexivity.
  - exact (C7_period_bounds_clamped Scenario.since Scenario.until []).
Defined.

(** The second scenario on its own: one message, received on 5 August,
    header date 15 August, window 1 to 7 August.  The message is kept, its
    canonical timestamp is the header date, and the end label is the
    window's end. *)
Example scenario_single_misdated_message :
  let its := Scenario.listing [Scenario.misdated] Scenario.no_restrict in
  let recs :=
    fst (collect_loop Scenario.env (fun _ => Scenario.clock) Scenario.since
           Scenario.until Scenario.outdir its (range1 1)) in
  map received recs = [Some (Naive 2025 8 15 9 30 0 0)] /\
  map raw_received recs = [Some (Naive 2025 8 5 10 30 0 0)] /\
  snd (period_bounds Scenario.since Scenario.until recs) = Scenario.until /\
  period_labels Scenario.since Scenario.until recs = ("250815", "250807").
Proof. vm_compute. repeat split; reflexivity. Qed.

(** The digest agrees with the published test vectors. *)
Example sha256_test_vectors :
  Sha256.hexdigest (PyStr.encode "abc")
    = "ba7816bf8f01cfea414140de5dae2223b00361a396177a9cb410ff61f20015ad" /\
  Sha256.hexdigest (PyStr.encode "")
    = "e3b0c44298fc1c149afbf4c8996fb92427ae41e4649b934ca495991b7852b855" /\
  Sha256.hexdigest
    (PyStr.encode "abcdbcdecdefdefgefghfghighijhijkijkljklmklmnlmnomnopnopq")
    = "248d6a61d20638b8e5c026930c3e6039a33ce45964ff2167f6ecedd419db06c1".
Proof. vm_compute. repeat split; reflexivity. Qed.

(** The grammar on a few texts. *)
Example json_grammar_samples :
  map Json.loads_ok
    ["{}"; " [1, 2.5e-3, true, null] "; "{not json}"; "[1,]"; "01"; ""; "-Infinity"]
  = [true; true; false; false; false; false; true].
Proof. vm_compute. reflexivity. Qed.

(** Names and their extensions. *)
Example splitext_samples :
  map splitext ["report.PDF"; ".bashrc"; "a.tar.gz"; "x/..pdf"; "a."; "dir.d\name"]
  = [("report", ".PDF"); (".bashrc", ""); ("a.tar", ".gz"); ("x/..pdf", "");
     ("a", "."); ("dir.d\name", "")].
Proof. vm_compute. reflexivity. Qed.


(* ===================================================================== *)
(** * Further properties *)
(* ===================================================================== *)

(** ** Deduplication, again *)

Lemma record_identity_none r :
  record_identity r = None <-> no_identity r = true.
Proof.
  unfold record_identity, no_identity.
  destruct (PyStr.otruthy (message_id r)); split; simpl; congruence.
Qed.

Lemma record_identity_some r m :
  record_identity r = Some m ->
  no_identity r = false /\ PyStr.getattr_or (message_id r) EmptyString = m.
Proof.
  unfold record_identity, no_identity.
  destruct (PyStr.otruthy (message_id r)); simpl; [|discriminate].
  intros [= <-]. auto.
Qed.

Lemma identities_cons r l :
  identities (r :: l)
  = match record_identity r with
    | Some m => m :: identities l
    | None => identities l
    end.
Proof. unfold identities. simpl. destruct (record_identity r); reflexivity. Qed.

(** The loop started with the dictionary [unique] keeps only identities
    that are not in [unique], each of them once. *)
Lemma dedupe_from_identities l : forall unique,
  NoDup (identities (dedupe_from unique l)) /\
  forall m, In m (identities (dedupe_from unique l)) ->
            unique !! m = None /\ In m (identities l).
Proof.
  induction l as [|r l IH]; intros unique.
  - split; [constructor|]. intros m [].
  - cbn [dedupe_from]. rewrite (identities_cons r l).
    destruct (record_identity r) as [mid|] eqn:Er.
    + destruct (record_identity_some _ _ Er) as [Hn Hm]. rewrite Hn, Hm.
      destruct (unique !! mid) eqn:Eu.
      * destruct (IH unique) as [Hnd Hin]. split; [exact Hnd|].
        intros m Hm'. destruct (Hin m Hm'). split; [auto|right; auto].
      * destruct (IH (<[mid := true]> unique)) as [Hnd Hin].
        rewrite identities_cons, Er. split.
        -- constructor; [|exact Hnd].
           intros Hmid. apply list_elem_of_In in Hmid.
           destruct (Hin mid Hmid) as [Hl _].
           rewrite lookup_insert_eq in Hl. discriminate.
        -- intros m [<-|Hm']; [split; [exact Eu|left; reflexivity]|].
           destruct (Hin m Hm') as [Hl Hi]. split; [|right; exact Hi].
           destruct (decide (mid = m)) as [->|Hne].
           ++ rewrite lookup_insert_eq in Hl. discriminate.
           ++ rewrite lookup_insert_ne in Hl; auto.
    + apply record_identity_none in Er. rewrite Er.
      destruct (IH unique) as [Hnd Hin].
      rewrite identities_cons.
      apply record_identity_none in Er. rewrite Er. auto.
Qed.

(** A list whose identities are pairwise distinct and unknown to the
    dictionary goes through the loop unchanged. *)
Lemma dedupe_from_fixed l : forall unique,
  NoDup (identities l) ->
  (forall m, In m (identities l) -> unique !! m = None) ->
  dedupe_from unique l = l.
Proof.
  induction l as [|r l IH]; intros unique Hnd Hnew; [reflexivity|].
  cbn [dedupe_from]. rewrite identities_cons in Hnd, Hnew.
  destruct (record_identity r) as [mid|] eqn:Er.
  - destruct (record_identity_some _ _ Er) as [Hn Hm]. rewrite Hn, Hm.
    rewrite (Hnew mid) by (left; reflexivity).
    inversion Hnd as [|? ? Hnotin Hnd']; subst.
    f_equal. apply IH; [exact Hnd'|].
    intros m Hm'. rewrite lookup_insert_ne.
    + apply Hnew. right. exact Hm'.
    + intros <-. apply Hnotin. apply list_elem_of_In. exact Hm'.
  - apply record_identity_none in Er. rewrite Er. f_equal. apply IH; auto.
Qed.

(** X1. No two records of a deduplicated list share an identity. *)
Theorem dedupe_identities_distinct :
  forall (saved_emails : list saved_email),
    NoDup (identities (dedupe saved_emails)).
Proof.
  intros l. rewrite dedupe_unfold. apply dedupe_from_identities.
Qed.

(** X2. Deduplicating a list whose identities are already pairwise
    distinct changes nothing; in particular deduplicating twice is the
    same as deduplicating once. *)
Theorem dedupe_idempotent :
  forall (saved_emails : list saved_email),
    (NoDup (identities saved_emails) -> dedupe saved_emails = saved_emails) /\
    dedupe (dedupe saved_emails) = dedupe saved_emails.
Proof.
  intros l. split.
  - intros Hnd. rewrite dedupe_unfold. apply dedupe_from_fixed; auto.
  - rewrite (dedupe_unfold (dedupe l)). apply dedupe_from_fixed.
    + rewrite dedupe_unfold. apply dedupe_from_identities.
    + intros m _. apply lookup_empty.
Qed.

Lemma dedupe_from_snoc_no_identity r l : forall unique,
  no_identity r = true ->
  dedupe_from unique (l ++ [r]) = dedupe_from unique l ++ [r].
Proof.
  intros unique Hr. revert unique.
  induction l as [|x l IH]; intros unique; cbn [app dedupe_from].
  - rewrite Hr. reflexivity.
  - destruct (no_identity x); [rewrite IH; reflexivity|].
    destruct (unique !! _); rewrite IH; reflexivity.
Qed.

Lemma dedupe_from_snoc_seen r m l : forall unique,
  record_identity r = Some m ->
  is_Some (unique !! m) \/ In m (identities l) ->
  dedupe_from unique (l ++ [r]) = dedupe_from unique l.
Proof.
  intros unique Hr. destruct (record_identity_some _ _ Hr) as [Hn Hm].
  revert unique. induction l as [|x l IH]; intros unique Hseen;
    cbn [app dedupe_from].
  - rewrite Hn, Hm. destruct Hseen as [[v Hv]|[]]. rewrite Hv. reflexivity.
  - rewrite identities_cons in Hseen.
    destruct (record_identity x) as [mx|] eqn:Ex.
    + destruct (record_identity_some _ _ Ex) as [Hnx Hmx]. rewrite Hnx, Hmx.
      destruct (unique !! mx) eqn:Eu.
      * apply IH. destruct Hseen as [H|[<-|H]]; eauto.
      * f_equal. apply IH. destruct Hseen as [H|[<-|H]]; auto.
        -- left. destruct (decide (mx = m)) as [->|Hne].
           ++ rewrite lookup_insert_eq. eauto.
           ++ rewrite lookup_insert_ne; auto.
        -- left. rewrite lookup_insert_eq. eauto.
    + apply record_identity_none in Ex. rewrite Ex. f_equal. apply IH, Hseen.
Qed.

Lemma dedupe_from_snoc_new r m l : forall unique,
  record_identity r = Some m ->
  unique !! m = None -> ~ In m (identities l) ->
  dedupe_from unique (l ++ [r]) = dedupe_from unique l ++ [r].
Proof.
  intros unique Hr. destruct (record_identity_some _ _ Hr) as [Hn Hm].
  revert unique. induction l as [|x l IH]; intros unique Hu Hnew;
    cbn [app dedupe_from].
  - rewrite Hn, Hm, Hu. reflexivity.
  - rewrite identities_cons in Hnew.
    destruct (record_identity x) as [mx|] eqn:Ex.
    + destruct (record_identity_some _ _ Ex) as [Hnx Hmx]. rewrite Hnx, Hmx.
      assert (Hne : mx <> m) by (intros ->; apply Hnew; left; reflexivity).
      assert (Hnew' : ~ In m (identities l)) by (intros H; apply Hnew; right; exact H).
      destruct (unique !! mx) eqn:Eu.
      * apply IH; auto.
      * cbn [app]. f_equal. apply IH; auto. rewrite lookup_insert_ne; auto.
    + apply record_identity_none in Ex. rewrite Ex. cbn [app]. f_equal.
      apply IH; auto.
Qed.

(** X3. What one more record at the end of the input does to the
    deduplicated list: a record without identity, or with an identity not
    seen before, is added at the end; a record whose identity was seen
    before changes nothing. *)
Theorem dedupe_appended_record :
  forall (saved_emails : list saved_email) (r : saved_email),
    match record_identity r with
    | None => dedupe (saved_emails ++ [r]) = dedupe saved_emails ++ [r]
    | Some m =>
        (In m (identities saved_emails) ->
           dedupe (saved_emails ++ [r]) = dedupe saved_emails) /\
        (~ In m (identities saved_emails) ->
           dedupe (saved_emails ++ [r]) = dedupe saved_emails ++ [r])
    end.
Proof.
  intros l r. rewrite !dedupe_unfold.
  destruct (record_identity r) as [m|] eqn:Er.
  - split; intros H.
    + apply (dedupe_from_snoc_seen r m); auto.
    + apply (dedupe_from_snoc_new r m); [exact Er|apply lookup_empty|exact H].
  - apply dedupe_from_snoc_no_identity. apply record_identity_none, Er.
Qed.

(** ** Ordering, again *)

Lemma list_sort_fixed {A K : Type} (lt : K -> K -> bool) (key : A -> K)
    (l : list A) :
  StronglySorted (key_le lt key) l -> list_sort lt key l = l.
Proof.
  induction 1 as [|x l Hl IH Hx]; [reflexivity|].
  cbn [list_sort]. rewrite IH.
  destruct l as [|y l']; [reflexivity|]. cbn [sort_insert].
  inversion Hx as [|? ? Hxy _]; subst. unfold key_le in Hxy. rewrite Hxy.
  reflexivity.
Qed.

Lemma sort_by_received_sorted since l :
  StronglySorted (key_le ltb (sort_key since)) (sort_by_received since l).
Proof.
  apply list_sort_sorted.
  - apply ltb_asym.
  - intros a b c Hab Hbc.
    assert (H : leb a c = true).
    { apply (leb_trans a b c); unfold leb; [rewrite Hab|rewrite Hbc]; reflexivity. }
    unfold leb in H. apply negb_true_iff in H. exact H.
Qed.

(** X4. A list that is already in order of effective timestamp is left
    exactly as it is, so sorting twice is the same as sorting once. *)
Theorem sort_by_received_fixes_sorted_lists :
  forall (since : naive) (saved_emails : list saved_email),
    (StronglySorted (effective_le since) saved_emails ->
       sort_by_received since saved_emails = saved_emails) /\
    sort_by_received since (sort_by_received since saved_emails)
      = sort_by_received since saved_emails.
Proof.
  intros since l. split.
  - intros Hs. apply list_sort_fixed.
    eapply StronglySorted_weaken; [|exact Hs].
    intros a b. apply key_le_effective.
  - apply list_sort_fixed, sort_by_received_sorted.
Qed.

(** ** The aggregator as a whole *)

Lemma sorted_of_deduped_is_fixed since l :
  dedupe (sort_by_received since (dedupe l)) = sort_by_received since (dedupe l).
Proof.
  rewrite (dedupe_unfold (sort_by_received _ _)). apply dedupe_from_fixed.
  - assert (Hp : Permutation (sort_by_received since (dedupe l)) (dedupe l))
      by apply list_sort_perm.
    unfold identities. rewrite Hp.
    rewrite dedupe_unfold. apply dedupe_from_identities.
  - intros m _. apply lookup_empty.
Qed.

(** X5. Running the aggregator on its own output gives that output
    again, with the same bounds; and a record appended to the input whose
    identity is already present does not change the result. *)
Theorem aggregate_idempotent :
  forall (since until : naive) (saved_emails : list saved_email),
    aggregate since until (fst (aggregate since until saved_emails))
      = aggregate since until saved_emails /\
    (forall r m, record_identity r = Some m ->
       In m (identities saved_emails) ->
       aggregate since until (saved_emails ++ [r])
         = aggregate since until saved_emails).
Proof.
  intros since until l. split.
  - unfold aggregate. cbn [fst].
    rewrite sorted_of_deduped_is_fixed.
    assert (E : sort_by_received since (sort_by_received since (dedupe l))
                = sort_by_received since (dedupe l))
      by apply list_sort_fixed, sort_by_received_sorted.
    rewrite E. reflexivity.
  - intros r m Hr Hin. unfold aggregate.
    rewrite !dedupe_unfold.
    rewrite (dedupe_from_snoc_seen r m l ∅ Hr) by auto.
    reflexivity.
Qed.

(** ** Period bounds, again *)

Lemma leb_antisym a b : leb a b = true -> leb b a = true -> a = b.
Proof.
  unfold leb. rewrite !negb_true_iff. intros H1 H2. apply ltb_total; auto.
Qed.

Lemma min_list_perm d ds d' ds' :
  Permutation (d :: ds) (d' :: ds') -> min_list d ds = min_list d' ds'.
Proof.
  intros Hp.
  destruct (min_list_spec ds d) as [Hin Hall].
  destruct (min_list_spec ds' d') as [Hin' Hall'].
  rewrite Forall_forall in Hall, Hall'.
  apply leb_antisym.
  - apply Hall. rewrite Hp. apply list_elem_of_In, Hin'.
  - apply Hall'. rewrite <- Hp. apply list_elem_of_In, Hin.
Qed.

Lemma max_list_perm d ds d' ds' :
  Permutation (d :: ds) (d' :: ds') -> max_list d ds = max_list d' ds'.
Proof.
  intros Hp.
  destruct (max_list_spec ds d) as [Hin Hall].
  destruct (max_list_spec ds' d') as [Hin' Hall'].
  rewrite Forall_forall in Hall, Hall'.
  apply leb_antisym.
  - apply Hall'. rewrite <- Hp. apply list_elem_of_In, Hin.
  - apply Hall. rewrite Hp. apply list_elem_of_In, Hin'.
Qed.

(** X6. The period bounds do not depend on the order of the records:
    they are the same before and after sorting. *)
Theorem period_bounds_ignore_order :
  forall (since until : naive) (l l' : list saved_email),
    Permutation l l' ->
    period_bounds since until l = period_bounds since until l'.
Proof.
  intros since until l l' Hp. unfold period_bounds.
  assert (Hd : Permutation (dates_of l) (dates_of l')).
  { unfold dates_of. rewrite Hp. reflexivity. }
  destruct (dates_of l) as [|d ds], (dates_of l') as [|d' ds'].
  - reflexivity.
  - apply Permutation_nil_l in Hd. discriminate.
  - apply Permutation_nil_r in Hd. discriminate.
  - rewrite (min_list_perm _ _ _ _ Hd), (max_list_perm _ _ _ _ Hd). reflexivity.
Qed.

Lemma period_bounds_ignore_order_witness :
  period_bounds Scenario.since Scenario.until
    [Scenario.record (Some "A") 3; Scenario.record (Some "B") 5]
  = period_bounds Scenario.since Scenario.until
    [Scenario.record (Some "B") 5; Scenario.record (Some "A") 3].
Proof.
  apply period_bounds_ignore_order. apply perm_swap.
Defined.

(** X7. When every canonical timestamp lies in the window, the bounds
    are the least and the greatest of them, and the start is not after
    the end. *)
Theorem period_bounds_inside_window :
  forall (since until : naive) (saved_emails : list saved_email)
         (d : naive) (ds : list naive),
    dates_of saved_emails = d :: ds ->
    Forall (fun x => leb since x = true /\ leb x until = true) (d :: ds) ->
    period_bounds since until saved_emails = (min_list d ds, max_list d ds) /\
    leb (fst (period_bounds since until saved_emails))
        (snd (period_bounds since until saved_emails)) = true.
Proof.
  intros since until l d ds Hd Hall. unfold period_bounds. rewrite Hd.
  destruct (min_list_spec ds d) as [Hlo_in Hlo].
  destruct (max_list_spec ds d) as [Hhi_in Hhi].
  rewrite Forall_forall in Hall, Hlo, Hhi.
  apply list_elem_of_In in Hlo_in, Hhi_in.
  destruct (Hall _ Hlo_in) as [Hlo_since _].
  destruct (Hall _ Hhi_in) as [_ Hhi_until].
  assert (E1 : max2 (min_list d ds) since = min_list d ds).
  { unfold max2, gtb. unfold leb in Hlo_since.
    apply negb_true_iff in Hlo_since. rewrite Hlo_since. reflexivity. }
  assert (E2 : min2 (max_list d ds) until = max_list d ds).
  { unfold min2. unfold leb in Hhi_until.
    apply negb_true_iff in Hhi_until. rewrite Hhi_until. reflexivity. }
  rewrite E1, E2. split; [reflexivity|]. cbn [fst snd].
  apply Hhi. exact Hlo_in.
Qed.

Lemma period_bounds_inside_window_witness :
  period_bounds Scenario.since Scenario.until
    [Scenario.record (Some "A") 5; Scenario.record (Some "B") 3]
  = (Naive 2025 8 3 12 0 0 0, Naive 2025 8 5 12 0 0 0).
Proof.
  apply (period_bounds_inside_window Scenario.since Scenario.until _
           (Naive 2025 8 5 12 0 0 0) [Naive 2025 8 3 12 0 0 0]).
  - reflexivity.
  - repeat constructor.
Defined.

(** ** The identity of a normalised message *)

Lemma length_append s t :
  String.length (s +:+ t) = (String.length s + String.length t)%nat.
Proof.
  induction s as [|c s IH]; simpl; [reflexivity|]. rewrite IH. reflexivity.
Qed.

Lemma all_chars_append p s t :
  all_chars p (s +:+ t) = all_chars p s && all_chars p t.
Proof.
  induction s as [|c s IH]; simpl; [reflexivity|].
  rewrite IH, andb_assoc. reflexivity.
Qed.

Lemma hex_digit_lower n : 0 <= n < 16 -> is_lower_hex (PyStr.hex_digit n) = true.
Proof.
  intros H. rewrite <- (Z2Nat.id n) by lia.
  assert (Hk : (Z.to_nat n < 16)%nat) by lia.
  revert Hk. generalize (Z.to_nat n). intros k Hk.
  do 16 (destruct k as [|k]; [reflexivity|]). lia.
Qed.

Lemma hex_byte_lower b :
  0 <= b < 256 -> all_chars is_lower_hex (PyStr.hex_byte b) = true.
Proof.
  intros H. unfold PyStr.hex_byte. cbn [all_chars].
  rewrite !hex_digit_lower; [reflexivity| |].
  - apply Z.mod_pos_bound. lia.
  - split; [apply Z.div_pos; lia|apply Z.div_lt_upper_bound; lia].
Qed.

Lemma be_bytes_spec n : forall x,
  length (Sha256.be_bytes n x) = n /\
  Forall (fun b => 0 <= b < 256) (Sha256.be_bytes n x).
Proof.
  induction n as [|n IH]; intros x; cbn [Sha256.be_bytes].
  - split; [reflexivity|constructor].
  - destruct (IH (Z.shiftr x 8)) as [Hl Hb]. split.
    + rewrite length_app, Hl. simpl. lia.
    + apply Forall_app. split; [exact Hb|]. constructor; [|constructor].
      change 255 with (Z.ones 8). rewrite Z.land_ones by lia.
      apply Z.mod_pos_bound. reflexivity.
Qed.

Lemma fold_compress_length blocks : forall h,
  length h = 8%nat -> length (fold_left Sha256.compress blocks h) = 8%nat.
Proof.
  induction blocks as [|b bs IH]; intros h Hh; [exact Hh|].
  cbn [fold_left]. apply IH. reflexivity.
Qed.

Lemma flat_map_be_bytes h :
  length (flat_map (Sha256.be_bytes 4) h) = (4 * length h)%nat /\
  Forall (fun b => 0 <= b < 256) (flat_map (Sha256.be_bytes 4) h).
Proof.
  induction h as [|x h [IHl IHb]]; [split; [reflexivity|constructor]|].
  cbn [flat_map]. destruct (be_bytes_spec 4 x) as [Hl Hb]. split.
  - rewrite length_app, Hl, IHl. simpl. lia.
  - apply Forall_app. auto.
Qed.

Lemma hex_of_bytes bs :
  Forall (fun b => 0 <= b < 256) bs ->
  let s := fold_right (fun b acc => PyStr.hex_byte b +:+ acc) EmptyString bs in
  String.length s = (2 * length bs)%nat /\ all_chars is_lower_hex s = true.
Proof.
  induction 1 as [|b bs Hb Hbs [IHl IHc]]; [split; reflexivity|].
  cbn [fold_right]. split.
  - rewrite length_append, IHl. simpl. lia.
  - rewrite all_chars_append, IHc, hex_byte_lower by exact Hb. reflexivity.
Qed.

(** The digest is always sixty-four lower-case hexadecimal digits. *)
Lemma hexdigest_shape msg :
  String.length (Sha256.hexdigest msg) = 64%nat /\
  all_chars is_lower_hex (Sha256.hexdigest msg) = true.
Proof.
  unfold Sha256.hexdigest, Sha256.digest.
  set (h := fold_left Sha256.compress _ Sha256.H_init).
  assert (Hh : length h = 8%nat) by (apply fold_compress_length; reflexivity).
  destruct (flat_map_be_bytes h) as [Hl Hb].
  destruct (hex_of_bytes _ Hb) as [Hlen Hchars].
  rewrite Hl, Hh in Hlen. split; [exact Hlen|exact Hchars].
Qed.

Lemma otruthy_some o :
  PyStr.otruthy o = true ->
  exists s, o = Some s /\ s <> EmptyString /\ PyStr.getattr_or o EmptyString = s.
Proof.
  destruct o as [s|]; [|discriminate]. cbn [PyStr.otruthy]. intros H.
  exists s. split; [reflexivity|]. split; [apply truthy_true, H|].
  cbn [PyStr.getattr_or]. unfold PyStr.or_else. rewrite H. reflexivity.
Qed.

Lemma identity_of_nonempty msg subj received body :
  identity_of msg subj received body <> EmptyString.
Proof.
  unfold identity_of.
  destruct (PyStr.otruthy (InternetMessageID msg)) eqn:E1.
  - destruct (otruthy_some _ E1) as (s & _ & Hne & ->). exact Hne.
  - destruct (PyStr.otruthy (EntryID msg)) eqn:E2.
    + destruct (otruthy_some _ E2) as (s & _ & Hne & ->). exact Hne.
    + intros H. pose proof (proj1 (hexdigest_shape
        (PyStr.encode (fingerprint_key subj
           (PyStr.or_else (PyStr.getattr_or (SenderEmailAddress msg) EmptyString)
              (PyStr.getattr_or (SenderName msg) EmptyString)) received body))))
        as Hl.
      rewrite H in Hl. discriminate.
Qed.

(** X8. The identity of a normalised message is never empty.  It is the
    internet message id when that is a non-empty string; failing that the
    entry id when that is a non-empty string; failing both, sixty-four
    lower-case hexadecimal digits. *)
Theorem message_id_is_never_empty :
  forall (env : Env) (now : naive) (msg : mail_item) (outdir : string)
         (r : Norm.t) (ev : list event),
    save_mail_and_attachments env now msg outdir = (Some r, ev) ->
    Norm.message_id r <> EmptyString /\
    (forall i, InternetMessageID msg = Some i -> i <> EmptyString ->
       Norm.message_id r = i) /\
    (forall e, PyStr.otruthy (InternetMessageID msg) = false ->
       EntryID msg = Some e -> e <> EmptyString ->
       Norm.message_id r = e) /\
    (lacks_provider_ids msg = true ->
       String.length (Norm.message_id r) = 64%nat /\
       all_chars is_lower_hex (Norm.message_id r) = true).
Proof.
  intros env now msg outdir r ev Hsave.
  destruct (save_mail_and_attachments_result _ _ _ _ _ _ Hsave)
    as (_ & Hid & _).
  rewrite Hid. split; [apply identity_of_nonempty|]. split; [|split].
  - intros i Hi Hne. unfold identity_of. rewrite Hi. cbn [PyStr.otruthy].
    apply truthy_true in Hne. rewrite Hne. cbn [PyStr.getattr_or].
    unfold PyStr.or_else. rewrite Hne. reflexivity.
  - intros e Hno He Hne. unfold identity_of. rewrite Hno, He.
    cbn [PyStr.otruthy]. apply truthy_true in Hne. rewrite Hne.
    cbn [PyStr.getattr_or]. unfold PyStr.or_else. rewrite Hne. reflexivity.
  - intros Hl. rewrite identity_of_fallback by exact Hl. apply hexdigest_shape.
Qed.

Lemma message_id_is_never_empty_witness :
  exists r,
    fst (save_mail_and_attachments Scenario.env Scenario.clock Scenario.plain
           Scenario.outdir) = Some r /\
    Norm.message_id r = "00000000A1B2".
Proof.
  destruct (save_mail_and_attachments Scenario.env Scenario.clock
              Scenario.plain Scenario.outdir) as [[r|] ev] eqn:E.
  2: { vm_compute in E. discriminate. }
  exists r. split; [reflexivity|].
  destruct (message_id_is_never_empty _ _ _ _ _ _ E) as (_ & _ & H & _).
  apply H; [reflexivity|reflexivity|discriminate].
Defined.

(** ** The records of a run *)

Lemma process_item_saved_origin env now since until outdir msg rec :
  fst (process_item env now since until outdir msg) = Saved rec ->
  exists r ev,
    save_mail_and_attachments env now msg outdir = (Some r, ev) /\
    rec = record_of r.
Proof.
  unfold process_item.
  destruct (to_naive_local env (ReceivedTime msg)) as [raw|]; [|discriminate].
  destruct (ltb raw since || gtb raw until); [discriminate|].
  destruct (save_mail_and_attachments env now msg outdir) as [[r|] ev];
    [|discriminate].
  cbn [fst]. intros [= <-]. eauto.
Qed.

(** Where a record of the run comes from. *)
Lemma fetch_record_origin env clock since until outdir f recs ev rec :
  fetch env clock since until outdir f = (Some recs, ev) ->
  In rec recs ->
  exists its i msg,
    fst (restrict_items_range f since until) = Some its /\
    Item its i = Some msg /\
    fst (process_item env (clock i) since until outdir msg) = Saved rec.
Proof.
  intros Hfetch Hin. unfold fetch, collect in Hfetch.
  destruct (fst (restrict_items_range f since until)) as [its|] eqn:Eits.
  - destruct (item_count (Some its)) as [count|]; [|discriminate].
    cbn [fst snd] in Hfetch. injection Hfetch as Hrecs _.
    rewrite collect_loop_records in Hrecs. rewrite <- Hrecs in Hin.
    apply in_flat_map in Hin. destruct Hin as (i & _ & Hin).
    unfold item_records in Hin.
    destruct (Item its i) as [msg|] eqn:Ei; [|destruct Hin].
    destruct (fst (process_item env (clock i) since until outdir msg))
      as [| | |rec'] eqn:Ep; simpl in Hin; try contradiction.
    destruct Hin as [<-|[]]. exists its, i, msg. auto.
  - cbn in Hfetch. injection Hfetch as <- _. destruct Hin.
Qed.

Lemma fetched_record_shape env clock since until outdir f recs ev rec :
  fetch env clock since until outdir f = (Some recs, ev) ->
  In rec recs ->
  exists mid d raw,
    message_id rec = Some mid /\ mid <> EmptyString /\
    received rec = Some d /\ chosen_date rec = Some d /\
    raw_received rec = Some raw /\
    (date_source rec = "header_date" \/
     (date_source rec = "received_time" /\ d = raw)).
Proof.
  intros Hfetch Hin.
  destruct (fetch_record_origin _ _ _ _ _ _ _ _ _ Hfetch Hin)
    as (its & i & msg & _ & _ & Hp).
  destruct (process_item_saved_origin _ _ _ _ _ _ _ Hp) as (r & ev' & Hs & ->).
  destruct (save_mail_and_attachments_result _ _ _ _ _ _ Hs)
    as (Hrec & Hid & Hchosen & Hsrc).
  exists (Norm.message_id r), (Norm.chosen_date r), (Norm.received r).
  cbn [record_of message_id received chosen_date raw_received date_source].
  repeat split; auto.
  - rewrite Hid. apply identity_of_nonempty.
  - rewrite Hsrc, Hchosen, Hrec.
    destruct (parsed_header_date env msg); auto.
Qed.

(** X9. Every record of a run carries a non-empty identity, a canonical
    timestamp (stored under both [received] and [chosen_date]) and a
    receipt time; its source is [header_date], or it is [received_time]
    and then the canonical timestamp is the receipt time. *)
Theorem fetched_records_are_complete :
  forall (env : Env) (clock : Z -> naive) (since until : naive)
         (outdir : string) (f : folder) (recs : list saved_email)
         (ev : list event),
    fetch env clock since until outdir f = (Some recs, ev) ->
    forall rec, In rec recs ->
      exists mid d raw,
        message_id rec = Some mid /\ mid <> EmptyString /\
        received rec = Some d /\ chosen_date rec = Some d /\
        raw_received rec = Some raw /\
        (date_source rec = "header_date" \/
         (date_source rec = "received_time" /\ d = raw)).
Proof.
  intros env clock since until outdir f recs ev Hfetch rec Hin.
  exact (fetched_record_shape _ _ _ _ _ _ _ _ _ Hfetch Hin).
Qed.

Lemma fetched_records_are_complete_witness :
  exists recs,
    fst Scenario.fetch_unfiltered = Some recs /\
    forall rec, In rec recs ->
      exists mid, message_id rec = Some mid /\ mid <> EmptyString.
Proof.
  destruct Scenario.fetch_unfiltered as [[recs|] ev] eqn:E.
  2: { vm_compute in E. discriminate. }
  exists recs. split; [reflexivity|]. intros rec Hin.
  destruct (fetched_records_are_complete _ _ _ _ _ _ _ _ E rec Hin)
    as (mid & _ & _ & H1 & H2 & _).
  eauto.
Defined.

Lemma identities_of_complete l :
  (forall rec, In rec l ->
     exists mid, message_id rec = Some mid /\ mid <> EmptyString) ->
  map message_id l = map Some (identities l).
Proof.
  induction l as [|r l IH]; intros H; [reflexivity|].
  rewrite identities_cons. destruct (H r (or_introl eq_refl)) as (mid & Hm & Hne).
  unfold record_identity. rewrite Hm. cbn [PyStr.otruthy].
  apply truthy_true in Hne. rewrite Hne. cbn [map PyStr.getattr_or].
  unfold PyStr.or_else. rewrite Hne, Hm. f_equal.
  apply IH. intros rec Hin. apply H. right. exact Hin.
Qed.

(** X10. After deduplication no two records of a run have the same
    [message_id], and none was dropped for lack of one. *)
Theorem deduplicated_run_has_distinct_message_ids :
  forall (env : Env) (clock : Z -> naive) (since until : naive)
         (outdir : string) (f : folder) (recs : list saved_email)
         (ev : list event),
    fetch env clock since until outdir f = (Some recs, ev) ->
    NoDup (map message_id (dedupe recs)) /\
    forall rec, In rec recs ->
      exists kept, In kept (dedupe recs) /\ message_id kept = message_id rec.
Proof.
  intros env clock since until outdir f recs ev Hfetch.
  assert (Hall : forall rec, In rec recs ->
            exists mid, message_id rec = Some mid /\ mid <> EmptyString).
  { intros rec Hin.
    destruct (fetched_record_shape _ _ _ _ _ _ _ _ _ Hfetch Hin)
      as (mid & _ & _ & H1 & H2 & _).
    eauto. }
  split.
  - rewrite identities_of_complete.
    + apply NoDup_fmap_2; [intros a b [=]; auto|].
      rewrite dedupe_unfold. apply dedupe_from_identities.
    + intros rec Hin. apply Hall.
      pose proof (dedupe_from_sublist recs ∅) as Hsub.
      rewrite <- dedupe_unfold in Hsub.
      apply list_elem_of_In. eapply elem_of_sublist; [|exact Hsub].
      apply list_elem_of_In, Hin.
  - intros rec Hin. destruct (Hall rec Hin) as (mid & Hm & Hne).
    assert (Hid : has_identity mid rec = true).
    { apply has_identity_spec. unfold no_identity. rewrite Hm.
      cbn [PyStr.otruthy PyStr.getattr_or]. unfold PyStr.or_else.
      apply truthy_true in Hne. rewrite Hne. auto. }
    pose proof (dedupe_from_first mid recs ∅ (lookup_empty _)) as Hfirst.
    rewrite <- dedupe_unfold in Hfirst.
    assert (Hf : In rec (List.filter (has_identity mid) recs))
      by (apply filter_In; auto).
    destruct (List.filter (has_identity mid) recs) as [|k ks] eqn:Ek;
      [destruct Hf|].
    cbn [firstn] in Hfirst.
    assert (Hk : In k (List.filter (has_identity mid) (dedupe recs)))
      by (rewrite Hfirst; left; reflexivity).
    apply filter_In in Hk. destruct Hk as [Hk1 Hk2].
    exists k. split; [exact Hk1|].
    assert (Hk3 : In k (List.filter (has_identity mid) recs))
      by (rewrite Ek; left; reflexivity).
    apply filter_In in Hk3. destruct Hk3 as [Hk3 _].
    destruct (Hall k Hk3) as (mk & Hmk & Hnek).
    apply has_identity_spec in Hk2. destruct Hk2 as [_ Hk2].
    rewrite Hmk in Hk2. cbn [PyStr.getattr_or] in Hk2.
    unfold PyStr.or_else in Hk2. apply truthy_true in Hnek.
    rewrite Hnek in Hk2. congruence.
Qed.

Lemma deduplicated_run_has_distinct_message_ids_witness :
  exists recs,
    fst Scenario.fetch_unfiltered = Some recs /\
    NoDup (map message_id (dedupe recs)).
Proof.
  destruct Scenario.fetch_unfiltered as [[recs|] ev] eqn:E.
  2: { vm_compute in E. discriminate. }
  exists recs. split; [reflexivity|].
  apply (deduplicated_run_has_distinct_message_ids _ _ _ _ _ _ _ _ E).
Defined.

(** ** The name of the body file *)

Lemma code_chr z : 0 <= z < 256 -> PyStr.code (PyStr.chr z) = z.
Proof.
  intros H. unfold PyStr.code, PyStr.chr.
  rewrite N_ascii_embedding by lia. lia.
Qed.

Lemma zpad_digits w : forall n,
  all_chars PyStr.is_ascii_digit (PyStr.zpad w n) = true /\
  String.length (PyStr.zpad w n) = w.
Proof.
  induction w as [|w IH]; intros n; cbn [PyStr.zpad]; [split; reflexivity|].
  destruct (IH (n / 10)) as [Hc Hl].
  rewrite all_chars_append, length_append, Hc, Hl. cbn [all_chars String.length].
  split; [|lia].
  unfold PyStr.is_ascii_digit, PyStr.in_range.
  pose proof (Z.mod_pos_bound n 10 ltac:(lia)) as Hm.
  rewrite code_chr by lia.
  replace (48 <=? 48 + n mod 10) with true by (symmetry; apply Z.leb_le; lia).
  replace (48 + n mod 10 <=? 57) with true by (symmetry; apply Z.leb_le; lia).
  reflexivity.
Qed.

Lemma all_chars_weaken (p q : ascii -> bool) s :
  (forall c, p c = true -> q c = true) ->
  all_chars p s = true -> all_chars q s = true.
Proof.
  intros Hpq. induction s as [|c s IH]; [reflexivity|].
  cbn [all_chars]. rewrite !andb_true_iff. intros [H1 H2]. auto.
Qed.

Lemma digit_kept c : PyStr.is_ascii_digit c = true -> keep_in_name c = true.
Proof.
  intros H. unfold keep_in_name, PyStr.isalnum. rewrite H. reflexivity.
Qed.

Lemma filter_chars_all keep s : all_chars keep (PyStr.filter_chars keep s) = true.
Proof.
  induction s as [|c s IH]; [reflexivity|]. cbn [PyStr.filter_chars].
  destruct (keep c) eqn:E; [|exact IH]. cbn [all_chars]. rewrite E, IH. reflexivity.
Qed.

Lemma lstrip_all p s : all_chars p s = true -> all_chars p (PyStr.lstrip s) = true.
Proof.
  induction s as [|c s IH]; [reflexivity|]. cbn [PyStr.lstrip all_chars].
  intros H. destruct (PyStr.isspace c); [|exact H].
  apply andb_true_iff in H. apply IH, H.
Qed.

Lemma rstrip_all p s : all_chars p s = true -> all_chars p (PyStr.rstrip s) = true.
Proof.
  induction s as [|c s IH]; [reflexivity|]. cbn [PyStr.rstrip all_chars].
  intros H. apply andb_true_iff in H. destruct H as [Hc Hs].
  specialize (IH Hs). destruct (PyStr.rstrip s) as [|d r].
  - destruct (PyStr.isspace c); [reflexivity|]. cbn [all_chars]. rewrite Hc. reflexivity.
  - cbn [all_chars] in *. rewrite Hc, IH. reflexivity.
Qed.

Lemma substring_all p s : forall n m,
  all_chars p s = true -> all_chars p (substring n m s) = true.
Proof.
  induction s as [|c s IH]; intros [|n] [|m] H; cbn [substring]; auto;
    cbn [all_chars] in *; apply andb_true_iff in H; destruct H as [Hc Hs].
  - rewrite Hc. apply IH, Hs.
  - apply IH, Hs.
  - apply IH, Hs.
Qed.

Lemma substring_length_le s : forall n m,
  (String.length (substring n m s) <= m)%nat.
Proof.
  induction s as [|c s IH]; intros [|n] [|m]; cbn [substring String.length];
    try lia.
  - specialize (IH 0%nat m). lia.
  - apply IH.
  - apply IH.
Qed.

Lemma lstrip_no_leading_space s :
  match PyStr.lstrip s with
  | String c _ => PyStr.isspace c = false
  | EmptyString => True
  end.
Proof.
  induction s as [|c s IH]; [exact I|]. cbn [PyStr.lstrip].
  destruct (PyStr.isspace c) eqn:E; [exact IH|exact E].
Qed.

(** X11. The body file of a normalised message is named after the
    receipt time and the cleaned subject: the base name is made of letters,
    digits, blanks, underscores and hyphens only (so it holds no path
    separator, colon or dot), it is at most 116 characters long, and the
    cleaned subject does not start with a blank. *)
Theorem body_file_name_is_clean :
  forall (env : Env) (now : naive) (msg : mail_item) (outdir : string)
         (r : Norm.t) (ev : list event),
    save_mail_and_attachments env now msg outdir = (Some r, ev) ->
    let base_name := base_name_of env now msg in
    Norm.txt_path r = joinpath env outdir (base_name +:+ ".txt") /\
    In (EvWriteText (Norm.txt_path r)
          ("Subject: " +:+ subject_of msg +:+ nl +:+
           "From: " +:+ match SenderName msg with
                        | Some s => s | None => EmptyString end +:+ nl +:+
           "Received: " +:+ DateTime.str (Norm.received r) +:+ nl +:+ nl +:+
           body_of msg)) ev /\
    all_chars keep_in_name base_name = true /\
    (String.length base_name <= 116)%nat /\
    match safe_subject (subject_of msg) with
    | String c _ => PyStr.isspace c = false
    | EmptyString => True
    end.
Proof.
  intros env now msg outdir r ev Hsave base_name.
  split; [|split; [|split; [|split]]].
  - unfold save_mail_and_attachments in Hsave.
    destruct (write_text_ok env _); cbn [negb] in Hsave; [|discriminate].
    destruct (fst _) as [saved|]; [|discriminate].
    injection Hsave as <- _. reflexivity.
  - destruct (save_mail_and_attachments_result _ _ _ _ _ _ Hsave) as (Hrec & _).
    unfold save_mail_and_attachments in Hsave.
    destruct (write_text_ok env _); cbn [negb] in Hsave; [|discriminate].
    destruct (fst _) as [saved|]; [|discriminate].
    injection Hsave as <- <-. cbn [Norm.txt_path Norm.received].
    left. reflexivity.
  - unfold base_name, base_name_of, fmt_compact, d4, d2.
    rewrite !all_chars_append.
    repeat (rewrite (all_chars_weaken _ _ _ digit_kept (proj1 (zpad_digits _ _)))).
    cbn [all_chars andb].
    unfold safe_subject, PyStr.take, PyStr.strip.
    rewrite substring_all; [reflexivity|].
    apply lstrip_all, rstrip_all, filter_chars_all.
  - unfold base_name, base_name_of, fmt_compact, d4, d2.
    rewrite !length_append.
    rewrite !(proj2 (zpad_digits _ _)). cbn [String.length].
    unfold safe_subject, PyStr.take.
    pose proof (substring_length_le
      (PyStr.strip (PyStr.filter_chars keep_in_name (subject_of msg))) 0 100).
    lia.
  - unfold safe_subject, PyStr.take, PyStr.strip.
    pose proof (lstrip_no_leading_space
      (PyStr.rstrip (PyStr.filter_chars keep_in_name (subject_of msg)))) as H.
    destruct (PyStr.lstrip _) as [|c s]; [exact I|exact H].
Qed.

Lemma body_file_name_is_clean_witness :
  exists r,
    fst (save_mail_and_attachments Scenario.env Scenario.clock
           Scenario.misdated Scenario.outdir) = Some r /\
    Norm.txt_path r = "C:\out\20250807_policy\20250805_103000_Rate change.txt".
Proof.
  destruct (save_mail_and_attachments Scenario.env Scenario.clock
              Scenario.misdated Scenario.outdir) as [[r|] ev] eqn:E.
  2: { vm_compute in E. discriminate. }
  exists r. split; [reflexivity|].
  rewrite (proj1 (body_file_name_is_clean _ _ _ _ _ _ E)).
  vm_compute. reflexivity.
Defined.

(** ** Failures in the middle of a message *)

Lemma save_attachments_app env outdir base_name atts pre : forall post,
  (forall j, In j pre -> AttItem atts j <> None) ->
  save_attachments env outdir base_name atts (pre ++ post)
  = (option_map (app (flat_map (persisted_paths env outdir base_name atts) pre))
       (fst (save_attachments env outdir base_name atts post)),
     snd (save_attachments env outdir base_name atts pre)
     ++ snd (save_attachments env outdir base_name atts post)).
Proof.
  induction pre as [|j pre IH]; intros post Hpre.
  - cbn [app flat_map save_attachments snd].
    destruct (save_attachments env outdir base_name atts post) as [[s|] e];
      reflexivity.
  - cbn [app save_attachments flat_map]. unfold persisted_paths at 1.
    destruct (AttItem atts j) as [att|] eqn:Ej.
    + rewrite IH by (intros k Hk; apply Hpre; right; exact Hk).
      cbn [fst snd].
      destruct (fst (save_attachments env outdir base_name atts post));
        cbn [option_map]; rewrite <- ?app_assoc; reflexivity.
    + destruct (Hpre j (or_introl eq_refl) Ej).
Qed.

(** X12. Normalisation is not all-or-nothing.  When reading the
    attachment at some index raises, the message gives no result, yet the
    body file has been written and every earlier attachment has been
    handled as usual: what was saved stays saved. *)
Theorem attachment_failure_leaves_earlier_files :
  forall (env : Env) (now : naive) (msg : mail_item) (outdir : string)
         (atts : attachment_collection) (pre post : list Z) (i : Z),
    write_text_ok env
      (joinpath env outdir (base_name_of env now msg +:+ ".txt")) = true ->
    Attachments msg = Some atts ->
    range1 (attachment_count atts) = pre ++ i :: post ->
    (forall j, In j pre -> AttItem atts j <> None) ->
    AttItem atts i = None ->
    exists content,
      save_mail_and_attachments env now msg outdir
      = (None,
         EvWriteText
           (joinpath env outdir (base_name_of env now msg +:+ ".txt")) content
         :: snd (save_attachments env outdir (base_name_of env now msg) atts pre)).
Proof.
  intros env now msg outdir atts pre post i Hw Ha Hr Hpre Hi.
  unfold save_mail_and_attachments.
  unfold base_name_of, subject_of in *. rewrite Hw, Ha, Hr. cbn [negb].
  rewrite save_attachments_app by exact Hpre.
  cbn [save_attachments]. rewrite Hi. cbn [fst snd option_map].
  rewrite app_nil_r. eexists. reflexivity.
Qed.

Lemma attachment_failure_leaves_earlier_files_witness :
  fst (save_mail_and_attachments Scenario.env Scenario.clock half_read
         Scenario.outdir) = None /\
  In (EvSaveAsFile "rates.pdf"
        "C:\out\20250807_policy\20250804_110000_Rates update_rates.pdf")
     (snd (save_mail_and_attachments Scenario.env Scenario.clock half_read
             Scenario.outdir)).
Proof.
  destruct (attachment_failure_leaves_earlier_files Scenario.env Scenario.clock
              half_read Scenario.outdir broken_attachments [1] [3] 2)
    as (content & E).
  - reflexivity.
  - reflexivity.
  - reflexivity.
  - intros j [<-|[]]. discriminate.
  - reflexivity.
  - rewrite E. split; [reflexivity|]. right. vm_compute. left. reflexivity.
Defined.

(** ** The loop over the collection *)









(** ** The extractor's answer, again *)

Lemma lstrip_idem s : PyStr.lstrip (PyStr.lstrip s) = PyStr.lstrip s.
Proof.
  induction s as [|c s IH]; [reflexivity|]. cbn [PyStr.lstrip].
  destruct (PyStr.isspace c) eqn:E; [exact IH|].
  cbn [PyStr.lstrip]. rewrite E. reflexivity.
Qed.

Lemma rstrip_idem s : PyStr.rstrip (PyStr.rstrip s) = PyStr.rstrip s.
Proof.
  induction s as [|c s IH]; [reflexivity|]. cbn [PyStr.rstrip].
  destruct (PyStr.rstrip s) as [|d r] eqn:E.
  - destruct (PyStr.isspace c) eqn:Ec; [reflexivity|].
    cbn [PyStr.rstrip]. rewrite Ec. reflexivity.
  - cbn [PyStr.rstrip] in *. rewrite IH. reflexivity.
Qed.

Lemma rstrip_fixed_tail c r :
  PyStr.rstrip (String c r) = String c r -> PyStr.rstrip r = r.
Proof.
  cbn [PyStr.rstrip]. destruct (PyStr.rstrip r) as [|d r'] eqn:E.
  - destruct (PyStr.isspace c); [discriminate|]. intros [= <-]. reflexivity.
  - intros [= <-]. reflexivity.
Qed.

Lemma rstrip_fixed_lstrip s :
  PyStr.rstrip s = s -> PyStr.rstrip (PyStr.lstrip s) = PyStr.lstrip s.
Proof.
  induction s as [|c s IH]; [reflexivity|]. intros H. cbn [PyStr.lstrip].
  destruct (PyStr.isspace c); [|exact H].
  apply IH. apply (rstrip_fixed_tail c), H.
Qed.

Lemma strip_idem s : PyStr.strip (PyStr.strip s) = PyStr.strip s.
Proof.
  unfold PyStr.strip.
  rewrite (rstrip_fixed_lstrip (PyStr.rstrip s)) by apply rstrip_idem.
  apply lstrip_idem.
Qed.

Lemma rstrip_snoc c m :
  PyStr.isspace c = false ->
  PyStr.rstrip (m +:+ String c EmptyString) = m +:+ String c EmptyString.
Proof.
  intros Hc. induction m as [|d m IH].
  - simpl. rewrite Hc. reflexivity.
  - change (String d m +:+ String c EmptyString)
      with (String d (m +:+ String c EmptyString)).
    cbn [PyStr.rstrip]. rewrite IH. destruct m; reflexivity.
Qed.

Lemma rfind_snoc c m :
  PyStr.rfind c (m +:+ String c EmptyString) = Z.of_nat (String.length m).
Proof.
  induction m as [|d m IH].
  - simpl. rewrite Ascii.eqb_refl. reflexivity.
  - change (String d m +:+ String c EmptyString)
      with (String d (m +:+ String c EmptyString)).
    cbn [PyStr.rfind String.length]. rewrite IH.
    replace (0 <=? Z.of_nat (String.length m)) with true
      by (symmetry; apply Z.leb_le; lia).
    lia.
Qed.

Lemma substring_full s : substring 0 (String.length s) s = s.
Proof. induction s as [|c s IH]; simpl; [reflexivity|]. rewrite IH. reflexivity. Qed.

(** What the regular expression finds starts with an opening brace and
    ends with a closing brace. *)
Lemma re_search_brace_block_shape text m :
  re_search_brace_block text = Some m ->
  exists mid, m = String "{" (mid +:+ "}").
Proof.
  induction text as [|c r IH]; [discriminate|]. cbn [re_search_brace_block].
  destruct (Ascii.eqb c "{" && (0 <=? PyStr.rfind "}" r)) eqn:E; [|exact IH].
  apply andb_true_iff in E. destruct E as [Ec Er].
  apply Ascii.eqb_eq in Ec. subst c. apply Z.leb_le in Er.
  intros [= <-]. clear IH.
  assert (H : forall s, 0 <= PyStr.rfind "}" s ->
            exists mid, PyStr.slice 0 (PyStr.rfind "}" s + 1) s = mid +:+ "}").
  { clear. induction s as [|d s IH]; cbn [PyStr.rfind]; [lia|].
    pose proof (rfind_bounds "}" s) as Hb.
    destruct (0 <=? PyStr.rfind "}" s) eqn:E.
    - apply Z.leb_le in E. intros _. destruct (IH E) as (mid & Hmid).
      exists (String d mid). rewrite slice_head by lia. rewrite Hmid. reflexivity.
    - destruct (Ascii.eqb d "}") eqn:Ed; [|lia]. intros _.
      apply Ascii.eqb_eq in Ed. subst d. exists EmptyString.
      unfold PyStr.slice. simpl. destruct s; reflexivity. }
  destruct (H r Er) as (mid & Hmid). exists mid. rewrite Hmid. reflexivity.
Qed.

(** A text between braces is its own brace block, and stripping leaves it
    alone. *)
Lemma braced_text_is_fixed mid :
  let s := String "{" (mid +:+ "}") in
  has_brace_block s = true /\ brace_block s = s /\ PyStr.strip s = s.
Proof.
  intros s. subst s. unfold has_brace_block, brace_block.
  cbn [PyStr.find PyStr.rfind]. rewrite rfind_snoc.
  replace (0 <=? Z.of_nat (String.length mid)) with true
    by (symmetry; apply Z.leb_le; lia).
  change (Ascii.eqb "{" "{") with true. cbn iota.
  split; [|split].
  - apply andb_true_iff. split; [reflexivity|apply Z.ltb_lt; lia].
  - unfold PyStr.slice.
    replace (Z.to_nat (Z.of_nat (String.length mid) + 1 + 1 - 0))
      with (String.length (String "{" (mid +:+ "}"))).
    + replace (Z.to_nat 0) with 0%nat by reflexivity. apply substring_full.
    + cbn [String.length]. rewrite length_append. simpl. lia.
  - unfold PyStr.strip.
    change (String "{" (mid +:+ "}")) with (String "{" mid +:+ "}").
    rewrite rstrip_snoc by reflexivity. reflexivity.
Qed.

(** X14. The text handed on is valid JSON exactly when the stripped
    response is, or when the stripped response has a brace block that
    is. *)
Theorem extractor_output_is_json_iff :
  forall (json_loads_ok : string -> bool) (content : string),
    let text := PyStr.strip content in
    json_loads_ok (extractor_json_text json_loads_ok content)
    = json_loads_ok text
      || (has_brace_block text && json_loads_ok (brace_block text)).
Proof.
  intros ok content text. subst text. unfold extractor_json_text.
  destruct (ok (PyStr.strip content)) eqn:E; [rewrite E; reflexivity|].
  rewrite _extract_first_json_block_spec.
  destruct (has_brace_block (PyStr.strip content)); cbn [orb andb];
    [reflexivity|exact E].
Qed.

(** X15. The text handed on has no white space around it, and handing it
    to the same step again changes nothing. *)
Theorem extractor_json_text_idempotent :
  forall (json_loads_ok : string -> bool) (content : string),
    let out := extractor_json_text json_loads_ok content in
    PyStr.strip out = out /\
    extractor_json_text json_loads_ok out = out.
Proof.
  intros ok content out.
  assert (Hcases : out = PyStr.strip content /\
                   (ok out = true \/ has_brace_block out = false) \/
                   exists mid, out = String "{" (mid +:+ "}")).
  { subst out. unfold extractor_json_text.
    destruct (ok (PyStr.strip content)) eqn:E; [left; auto|].
    rewrite _extract_first_json_block_spec.
    destruct (has_brace_block (PyStr.strip content)) eqn:Eb; [|left; auto].
    right.
    pose proof (re_search_brace_block_spec (PyStr.strip content)) as Hre.
    rewrite Eb in Hre. exact (re_search_brace_block_shape _ _ Hre). }
  clearbody out.
  assert (Hstrip : PyStr.strip out = out).
  { destruct Hcases as [[-> _]|(mid & ->)]; [apply strip_idem|].
    apply (braced_text_is_fixed mid). }
  split; [exact Hstrip|].
  unfold extractor_json_text. rewrite Hstrip.
  destruct (ok out) eqn:E; [reflexivity|].
  rewrite _extract_first_json_block_spec.
  destruct Hcases as [[_ [H|H]]|(mid & ->)].
  - congruence.
  - rewrite H. reflexivity.
  - destruct (braced_text_is_fixed mid) as (-> & -> & _). reflexivity.
Qed.

(** ** Folder paths *)

Lemma sub_separators_chars s : forall in_run,
  all_chars (fun c => negb (is_path_sep c) || Ascii.eqb c "/")
    (sub_separators in_run s) = true.
Proof.
  induction s as [|c s IH]; intros in_run; [reflexivity|].
  cbn [sub_separators]. destruct (is_path_sep c) eqn:E.
  - destruct in_run; [apply IH|]. cbn [all_chars]. rewrite IH. reflexivity.
  - cbn [all_chars]. rewrite E, IH. reflexivity.
Qed.

Lemma split_on_pieces p c s : forall piece,
  all_chars p s = true ->
  In piece (split_on c s) ->
  all_chars p piece = true /\
  all_chars (fun d => negb (Ascii.eqb d c)) piece = true.
Proof.
  induction s as [|d s IH]; intros piece Hs Hin.
  - destruct Hin as [<-|[]]. split; reflexivity.
  - cbn [all_chars] in Hs. apply andb_true_iff in Hs. destruct Hs as [Hd Hs].
    cbn [split_on] in Hin. destruct (Ascii.eqb d c) eqn:E.
    + destruct Hin as [<-|Hin]; [split; reflexivity|]. apply IH; auto.
    + destruct (split_on c s) as [|h t] eqn:Es.
      * destruct Hin as [<-|[]]. cbn [all_chars]. rewrite Hd, E. split; reflexivity.
      * destruct Hin as [<-|Hin].
        -- destruct (IH h Hs (or_introl eq_refl)) as [H1 H2].
           cbn [all_chars]. rewrite Hd, E, H1, H2. split; reflexivity.
        -- apply IH; [exact Hs|right; exact Hin].
Qed.

Lemma all_chars_and p q s :
  all_chars p s = true -> all_chars q s = true ->
  all_chars (fun c => p c && q c) s = true.
Proof.
  induction s as [|c s IH]; [reflexivity|]. cbn [all_chars].
  rewrite !andb_true_iff. intros [H1 H2] [H3 H4]. auto.
Qed.

(** X16. Every part the splitter returns is a clean folder name: not
    empty, without white space at either end, and free of the four
    separators.  The empty string gives no part at all. *)
Theorem split_folder_path_parts_are_clean :
  forall (s : string),
    _split_folder_path EmptyString = [] /\
    forall p, In p (_split_folder_path s) -> clean_part p.
Proof.
  intros s. split; [reflexivity|]. intros p Hin.
  unfold _split_folder_path in Hin.
  destruct (negb (PyStr.truthy s)); [destruct Hin|].
  unfold stripped_parts in Hin. apply in_flat_map in Hin.
  destruct Hin as (piece & Hpiece & Hp).
  destruct (PyStr.truthy (PyStr.strip piece)) eqn:Et; [|destruct Hp].
  destruct Hp as [<-|[]].
  split; [apply truthy_true, Et|]. split; [apply strip_idem|].
  destruct (split_on_pieces _ "/" _ piece (sub_separators_chars s false) Hpiece)
    as [H1 H2].
  unfold PyStr.strip. apply lstrip_all, rstrip_all.
  eapply all_chars_weaken; [|exact (all_chars_and _ _ _ H1 H2)].
  intros c Hc. cbn beta in Hc.
  destruct (Ascii.eqb c "/"); [rewrite andb_false_r in Hc; discriminate|].
  rewrite orb_false_r, andb_true_r in Hc. exact Hc.
Qed.

Lemma sub_separators_slashes s : forall in_run,
  sub_separators in_run (slashes_only s) = sub_separators in_run s.
Proof.
  induction s as [|c s IH]; intros in_run; [reflexivity|].
  cbn [slashes_only sub_separators]. destruct (is_path_sep c) eqn:E.
  - change (is_path_sep "/") with true. cbn iota. rewrite !IH. reflexivity.
  - rewrite E, IH. reflexivity.
Qed.

(** X17. The four separators are interchangeable: writing a slash for
    every backslash, greater-than sign and vertical bar gives the same
    parts. *)
Theorem split_folder_path_separators_interchangeable :
  forall (s : string),
    _split_folder_path (slashes_only s) = _split_folder_path s.
Proof.
  intros s. unfold _split_folder_path. rewrite sub_separators_slashes.
  destruct s; reflexivity.
Qed.

Lemma sub_separators_clean_prefix p : forall in_run rest,
  p <> EmptyString ->
  all_chars (fun c => negb (is_path_sep c)) p = true ->
  sub_separators in_run (p +:+ rest) = p +:+ sub_separators false rest.
Proof.
  induction p as [|c p IH]; intros in_run rest Hne Hp; [congruence|].
  cbn [all_chars] in Hp. apply andb_true_iff in Hp. destruct Hp as [Hc Hp].
  apply negb_true_iff in Hc.
  change (String c p +:+ rest) with (String c (p +:+ rest)).
  cbn [sub_separators]. rewrite Hc. destruct p as [|d p'].
  - reflexivity.
  - rewrite IH by (auto; discriminate). reflexivity.
Qed.

Lemma append_nil_r s : s +:+ EmptyString = s.
Proof.
  induction s as [|c s IH]; [reflexivity|].
  change (String c s +:+ EmptyString) with (String c (s +:+ EmptyString)).
  rewrite IH. reflexivity.
Qed.

Lemma join_with_cons c p q rest :
  join_with c (p :: q :: rest) = p +:+ String c (join_with c (q :: rest)).
Proof. reflexivity. Qed.

Lemma sub_separators_join c ps : forall in_run,
  is_path_sep c = true ->
  Forall clean_part ps ->
  sub_separators in_run (join_with c ps) = join_with "/" ps.
Proof.
  intros in_run Hc Hps. revert in_run.
  induction Hps as [|p ps (Hne & _ & Hp) Hps IH]; intros in_run; [reflexivity|].
  destruct ps as [|q rest].
  - cbn [join_with].
    transitivity (sub_separators in_run (p +:+ EmptyString));
      [rewrite append_nil_r; reflexivity|].
    rewrite sub_separators_clean_prefix by assumption.
    apply append_nil_r.
  - rewrite !join_with_cons.
    rewrite sub_separators_clean_prefix by assumption.
    cbn [sub_separators]. rewrite Hc. rewrite IH. reflexivity.
Qed.

Lemma split_on_clean_prefix c p : forall rest,
  all_chars (fun d => negb (Ascii.eqb d c)) p = true ->
  split_on c (p +:+ String c rest) = p :: split_on c rest.
Proof.
  induction p as [|d p IH]; intros rest Hp.
  - change (EmptyString +:+ String c rest) with (String c rest).
    cbn [split_on]. rewrite Ascii.eqb_refl. reflexivity.
  - cbn [all_chars] in Hp. apply andb_true_iff in Hp. destruct Hp as [Hd Hp].
    apply negb_true_iff in Hd.
    change (String d p +:+ String c rest) with (String d (p +:+ String c rest)).
    cbn [split_on]. rewrite Hd, IH by exact Hp. reflexivity.
Qed.

Lemma split_on_clean c p :
  all_chars (fun d => negb (Ascii.eqb d c)) p = true ->
  split_on c p = [p].
Proof.
  induction p as [|d p IH]; intros Hp; [reflexivity|].
  cbn [all_chars] in Hp. apply andb_true_iff in Hp. destruct Hp as [Hd Hp].
  apply negb_true_iff in Hd. cbn [split_on]. rewrite Hd, IH by exact Hp.
  reflexivity.
Qed.

Lemma clean_part_no_slash p :
  clean_part p -> all_chars (fun d => negb (Ascii.eqb d "/")) p = true.
Proof.
  intros (_ & _ & H). eapply all_chars_weaken; [|exact H].
  intros c Hc. cbn beta in *. unfold is_path_sep in Hc.
  destruct (Ascii.eqb c "/"); [|reflexivity].
  rewrite orb_true_r in Hc. discriminate.
Qed.

Lemma split_on_join ps :
  ps <> [] -> Forall clean_part ps -> split_on "/" (join_with "/" ps) = ps.
Proof.
  intros Hne Hps. induction Hps as [|p ps Hp Hps IH]; [congruence|].
  destruct ps as [|q rest].
  - cbn [join_with]. apply split_on_clean, clean_part_no_slash, Hp.
  - rewrite join_with_cons.
    rewrite split_on_clean_prefix by apply clean_part_no_slash, Hp.
    rewrite IH by discriminate. reflexivity.
Qed.

Lemma stripped_parts_clean ps :
  Forall clean_part ps -> stripped_parts ps = ps.
Proof.
  induction 1 as [|p ps (Hne & Hs & _) Hps IH]; [reflexivity|].
  unfold stripped_parts in *. cbn [flat_map]. rewrite Hs.
  apply truthy_true in Hne. rewrite Hne, IH. reflexivity.
Qed.

(** X18. Round trip: clean folder names joined by any one of the four
    separators are split into the same names again. *)
Theorem split_folder_path_of_joined_parts :
  forall (c : ascii) (parts : list string),
    is_path_sep c = true ->
    Forall clean_part parts ->
    _split_folder_path (join_with c parts) = parts.
Proof.
  intros c ps Hc Hps. unfold _split_folder_path.
  destruct ps as [|p rest]; [reflexivity|].
  assert (Ht : PyStr.truthy (join_with c (p :: rest)) = true).
  { inversion Hps as [|? ? (Hne & _) _]; subst.
    destruct p as [|d p']; [congruence|]. destruct rest; reflexivity. }
  rewrite Ht. cbn [negb].
  rewrite sub_separators_join by assumption.
  rewrite split_on_join by (auto; discriminate).
  apply stripped_parts_clean, Hps.
Qed.

Lemma split_folder_path_of_joined_parts_witness :
  _split_folder_path "Inbox>2. Policy Update>Archive"
  = ["Inbox"; "2. Policy Update"; "Archive"].
Proof.
  apply (split_folder_path_of_joined_parts ">"
           ["Inbox"; "2. Policy Update"; "Archive"]).
  - reflexivity.
  - repeat constructor; try discriminate; reflexivity.
Defined.

Lemma split_folder_path_parts_are_clean_witness :
  clean_part "c".
Proof.
  apply (proj2 (split_folder_path_parts_are_clean "a\\ b |c|| ")).
  vm_compute. tauto.
Defined.

(** ** The requested window *)

(** A date that [parse_ymd] returns was read by [strptime] under one of
    the three formats. *)
Lemma parse_ymd_format cal s d :
  parse_ymd cal s = Some d ->
  exists fmt, In fmt ymd_formats /\ strptime cal s fmt = Some d.
Proof.
  unfold parse_ymd. generalize ymd_formats.
  induction l as [|fmt rest IH]; cbn [parse_ymd_with]; [discriminate|].
  destruct (strptime cal s fmt) as [d'|] eqn:E.
  - intros [= <-]. exists fmt. split; [left; reflexivity|exact E].
  - intros H. destruct (IH H) as (fmt' & Hin & Hp).
    exists fmt'. split; [right; exact Hin|exact Hp].
Qed.

(** X19. Whatever the arguments, the window [main] works with is in
    order: [since] is not after [until].  It is the pair computed from
    the arguments, exchanged when that pair is the wrong way round.  In
    that pair the end is the last microsecond of the day given with
    [--until], or the current time without [--until]; the start is the
    midnight that begins the day given with [--since], or the end less
    [--days] days without [--since]; a day is read under one of the three
    formats. *)
Theorem resolved_window_is_ordered :
  forall (env : Env) (cal : Calendar) (now : naive)
         (until_arg since_arg : option string) (days : Z)
         (since until : naive),
    resolve_window env cal now until_arg since_arg days = Window since until ->
    leb since until = true /\
    exists since0 until0,
      (if PyStr.otruthy until_arg
       then exists d fmt,
              In fmt ["%Y-%m-%d"; "%Y/%m/%d"; "%Y.%m.%d"] /\
              strptime cal (PyStr.getattr_or until_arg EmptyString) fmt
                = Some d /\
              until0 = Naive (year d) (month d) (day d) 23 59 59 999999
       else until0 = now) /\
      (if PyStr.otruthy since_arg
       then exists d fmt,
              In fmt ["%Y-%m-%d"; "%Y/%m/%d"; "%Y.%m.%d"] /\
              strptime cal (PyStr.getattr_or since_arg EmptyString) fmt
                = Some d /\
              since0 = Naive (year d) (month d) (day d) 0 0 0 0
       else sub_days cal until0 days = Some since0) /\
      ((since = since0 /\ until = until0 /\ gtb since0 until0 = false) \/
       (since = until0 /\ until = since0 /\ gtb since0 until0 = true)).
Proof.
  intros env cal now until_arg since_arg days since until.
  unfold resolve_window.
  set (until_opt := if PyStr.otruthy until_arg then _ else _).
  assert (Hu : forall u, until_opt = Some u ->
                 if PyStr.otruthy until_arg
                 then exists d fmt,
                        In fmt ymd_formats /\
                        strptime cal (PyStr.getattr_or until_arg EmptyString) fmt
                          = Some d /\
                        u = end_of_day d
                 else u = now).
  { subst until_opt. intros u. destruct (PyStr.otruthy until_arg).
    - destruct (parse_ymd cal _) as [d|] eqn:Ep; [|discriminate].
      intros [= <-]. destruct (parse_ymd_format _ _ _ Ep) as (fmt & Hin & Hp).
      exists d, fmt. auto.
    - intros [= <-]. reflexivity. }
  destruct until_opt as [until0|]; [|discriminate].
  specialize (Hu until0 eq_refl).
  set (since_res := if PyStr.otruthy since_arg then _ else _).
  assert (Hs : forall s u, since_res = Window s u ->
                 if PyStr.otruthy since_arg
                 then exists d fmt,
                        In fmt ymd_formats /\
                        strptime cal (PyStr.getattr_or since_arg EmptyString) fmt
                          = Some d /\
                        s = start_of_day d
                 else sub_days cal until0 days = Some s).
  { subst since_res. intros s u. destruct (PyStr.otruthy since_arg).
    - destruct (parse_ymd cal _) as [d|] eqn:Ep; [|discriminate].
      intros [= <- _]. destruct (parse_ymd_format _ _ _ Ep) as (fmt & Hin & Hp).
      exists d, fmt. auto.
    - destruct (sub_days cal until0 days) as [d|]; [|discriminate].
      intros [= <- _]. reflexivity. }
  destruct since_res as [code| |since0 u'] eqn:Es; try discriminate.
  specialize (Hs since0 u' eq_refl).
  cbn [to_naive_local_dt tzinfo fields]. unfold ordered_window.
  destruct (gtb since0 until0) eqn:Eg; cbn [fst snd]; intros [= <- <-].
  - split; [apply ltb_leb; exact Eg|].
    exists since0, until0. split; [exact Hu|]. split; [exact Hs|]. right. auto.
  - split; [unfold leb; unfold gtb in Eg; rewrite Eg; reflexivity|].
    exists since0, until0. split; [exact Hu|]. split; [exact Hs|]. left. auto.
Qed.

Lemma resolved_window_is_ordered_witness :
  resolve_window Scenario.env table_calendar Scenario.clock
    (Some "2025-08-01") (Some "2025/08/07") 7
  = Window (Naive 2025 8 1 23 59 59 999999) (Naive 2025 8 7 0 0 0 0) /\
  leb (Naive 2025 8 1 23 59 59 999999) (Naive 2025 8 7 0 0 0 0) = true.
Proof.
  assert (E : resolve_window Scenario.env table_calendar Scenario.clock
                (Some "2025-08-01") (Some "2025/08/07") 7
              = Window (Naive 2025 8 1 23 59 59 999999) (Naive 2025 8 7 0 0 0 0))
    by (vm_compute; reflexivity).
  split; [exact E|].
  apply (resolved_window_is_ordered _ _ _ _ _ _ _ _ E).
Defined.

(** ** Looking a folder up *)

Lemma walk_path_app mb p : forall f q,
  walk_path mb f (p ++ q)
  = match walk_path mb f p with
    | inl g => walk_path mb g q
    | inr e => inr e
    end.
Proof.
  induction p as [|part p IH]; intros f q; [reflexivity|].
  cbn [app walk_path]. destruct (Sub f part); [apply IH|reflexivity].
Qed.

Lemma walk_path_error mb path : forall f part mb',
  walk_path mb f path = inr (FolderPartNotFound part mb') ->
  mb' = mb /\
  exists pre post g,
    path = pre ++ part :: post /\
    walk_path mb f pre = inl g /\ Sub g part = None.
Proof.
  induction path as [|x path IH]; intros f part mb'; [discriminate|].
  cbn [walk_path]. destruct (Sub f x) as [sub|] eqn:Ex.
  - intros H. destruct (IH _ _ _ H) as (-> & pre & post & g & -> & Hw & Hg).
    split; [reflexivity|]. exists (x :: pre), post, g.
    split; [reflexivity|]. cbn [walk_path]. rewrite Ex. auto.
  - intros [= <- <-]. split; [reflexivity|].
    exists [], path, f. auto.
Qed.

Lemma walk_path_never_other mb path : forall f e,
  walk_path mb f path = inr e -> exists part, e = FolderPartNotFound part mb.
Proof.
  induction path as [|x path IH]; intros f e; [discriminate|].
  cbn [walk_path]. destruct (Sub f x); [apply IH|]. intros [= <-]. eauto.
Qed.

(** X20. Looking up a path in two steps is looking it up in one: the
    folder for [p ++ q] is found by walking [q] from the folder for [p],
    and an error for [p] is the error for [p ++ q].  When a part is
    reported missing, it is the first part that is missing under the
    folder reached so far. *)
Theorem get_outlook_folder_composes :
  forall (ns : option namespace) (mailbox_name : string)
         (p q : list string),
    get_outlook_folder ns mailbox_name (p ++ q)
    = match get_outlook_folder ns mailbox_name p with
      | inl f => walk_path mailbox_name f q
      | inr e => inr e
      end /\
    (forall part mb,
       get_outlook_folder ns mailbox_name p = inr (FolderPartNotFound part mb) ->
       mb = mailbox_name /\
       exists pre post g,
         p = pre ++ part :: post /\
         get_outlook_folder ns mailbox_name pre = inl g /\
         Sub g part = None).
Proof.
  intros ns mb p q. unfold get_outlook_folder.
  destruct ns as [n|]; [|split; [reflexivity|discriminate]].
  destruct (match scan_roots n mb with
            | Some root => Some root
            | None => RootByName n mb
            end) as [root|]; [|split; [reflexivity|discriminate]].
  split; [apply walk_path_app|].
  intros part mb' H. apply walk_path_error in H. exact H.
Qed.

Lemma scan_roots_lower n mb mb' :
  PyStr.lower mb = PyStr.lower mb' -> scan_roots n mb = scan_roots n mb'.
Proof.
  intros H. unfold scan_roots.
  assert (E : forall r, names_mailbox mb r = names_mailbox mb' r).
  { intros r. unfold names_mailbox. rewrite H. reflexivity. }
  induction (Roots n) as [|r rs IH]; [reflexivity|].
  cbn [List.find]. rewrite E, IH. reflexivity.
Qed.

(** X21. A mailbox that is found among the top-level folders is found
    under any spelling of its name that differs in case only, and the
    same folder comes back. *)
Theorem mailbox_name_ignores_case :
  forall (n : namespace) (mailbox_name other_spelling : string)
         (folder_path : list string) (f : store_folder),
    PyStr.lower mailbox_name = PyStr.lower other_spelling ->
    scan_roots n mailbox_name <> None ->
    get_outlook_folder (Some n) mailbox_name folder_path = inl f ->
    get_outlook_folder (Some n) other_spelling folder_path = inl f.
Proof.
  intros n mb mb' path f Hl Hscan. unfold get_outlook_folder.
  rewrite <- (scan_roots_lower n mb mb' Hl).
  destruct (scan_roots n mb) as [root|]; [|congruence].
  clear Hscan. revert root.
  induction path as [|part path IH]; intros root; [auto|].
  cbn [walk_path]. destruct (Sub root part); [apply IH|discriminate].
Qed.

(** ** Listing the folders *)

Lemma append_assoc a b c : (a +:+ b) +:+ c = a +:+ (b +:+ c).
Proof.
  induction a as [|x a IH]; [reflexivity|].
  change ((String x a +:+ b) +:+ c) with (String x ((a +:+ b) +:+ c)).
  rewrite IH. reflexivity.
Qed.

(** The lines of a tree are the folders within reach, each under its
    indentation. *)
Lemma tree_lines_spec remaining : forall f prefix line,
  In line (tree_lines remaining f prefix) <->
  exists k g,
    below k f g /\ (k <= remaining)%nat /\
    line = prefix +:+ indent k +:+ display_name g.
Proof.
  induction remaining as [|n IH]; intros f prefix line; cbn [tree_lines].
  - split.
    + intros [<-|[]]. exists 0%nat, f.
      split; [constructor|]. split; [lia|reflexivity].
    + intros (k & g & Hb & Hk & ->). left.
      inversion Hb; subst; [reflexivity|lia].
  - split.
    + intros [<-|Hin].
      * exists 0%nat, f. split; [constructor|]. split; [lia|reflexivity].
      * destruct (Children f) as [cs|] eqn:Ec; [|destruct Hin].
        apply in_flat_map in Hin. destruct Hin as (c & Hc & Hin).
        apply IH in Hin. destruct Hin as (k & g & Hb & Hk & ->).
        exists (S k), g. split; [exact (below_child k f c g cs Ec Hc Hb)|].
        split; [lia|]. cbn [indent]. rewrite !append_assoc. reflexivity.
    + intros (k & g & Hb & Hk & ->).
      inversion Hb as [f'|k' f' c g' cs Ec Hc Hb']; subst.
      * left. reflexivity.
      * right. rewrite Ec. apply in_flat_map. exists c. split; [exact Hc|].
        apply IH. exists k', g. split; [exact Hb'|]. split; [lia|].
        cbn [indent]. rewrite !append_assoc. reflexivity.
Qed.

(** X22. The listing goes as deep as asked and no deeper: its lines are
    the folders that lie at most [max_depth - level] levels below the
    folder, each as the prefix, one indentation of two blanks per level,
    and its name; the first line is the folder itself; and at or beyond
    the depth limit that line is the only one. *)
Theorem print_folder_tree_respects_depth :
  forall (f : store_folder) (prefix : string) (level max_depth : Z),
    (forall line,
       In line (_print_folder_tree f prefix level max_depth) <->
       exists k g,
         below k f g /\
         Z.of_nat k <= Z.max 0 (max_depth - level) /\
         line = prefix +:+ indent k +:+ display_name g) /\
    hd_error (_print_folder_tree f prefix level max_depth)
      = Some (prefix +:+ match Name f with
                         | Some n => n | None => "(unknown)" end) /\
    (max_depth <= level ->
       length (_print_folder_tree f prefix level max_depth) = 1%nat).
Proof.
  intros f prefix level max_depth. unfold _print_folder_tree.
  split; [|split].
  - intros line. rewrite tree_lines_spec. split.
    + intros (k & g & Hb & Hk & ->). exists k, g.
      split; [exact Hb|]. split; [lia|reflexivity].
    + intros (k & g & Hb & Hk & ->). exists k, g.
      split; [exact Hb|]. split; [lia|reflexivity].
  - destruct (Z.to_nat (max_depth - level)); reflexivity.
  - intros H. replace (Z.to_nat (max_depth - level)) with 0%nat by lia.
    reflexivity.
Qed.

(** X23. The second scan of the top-level folders in
    [list_outlook_folders] never finds a mailbox that the lookup has
    missed: when the lookup of the mailbox fails, the listing is the
    single line saying that the mailbox was not found; when it succeeds,
    the listing is the header followed by the tree of the folder the
    lookup returned. *)
Theorem list_outlook_folders_follows_lookup :
  forall (n : namespace) (mailbox_name : string) (max_depth : Z),
    match get_outlook_folder (Some n) mailbox_name [] with
    | inr _ =>
        list_outlook_folders (Some n) mailbox_name max_depth
        = ["Mailbox not found: " +:+ mailbox_name]
    | inl f =>
        list_outlook_folders (Some n) mailbox_name max_depth
        = ("Folders under mailbox: " +:+ mailbox_name)
          :: _print_folder_tree f EmptyString 0 max_depth
    end.
Proof.
  intros n mb d. unfold list_outlook_folders.
  destruct (get_outlook_folder (Some n) mb []) as [f|e] eqn:E; [reflexivity|].
  unfold get_outlook_folder in E. cbn [walk_path] in E.
  destruct (scan_roots n mb) as [root|]; [discriminate|]. reflexivity.
Qed.

Lemma mailbox_name_ignores_case_witness :
  get_outlook_folder (Some one_mailbox) "HENRY.WEN@EXAMPLE.COM"
    ["Inbox"; "2. Policy Update"] = inl policy_folder.
Proof.
  apply (mailbox_name_ignores_case one_mailbox "henry.wen@example.com").
  - reflexivity.
  - vm_compute. discriminate.
  - vm_compute. reflexivity.
Defined.

(** ** The merged payload *)

Lemma fold_sections rd l : forall part,
  fold_left (fun part a => part +:+ pdf_section rd a) l part
  = part +:+ join_str EmptyString (map (pdf_section rd) l).
Proof.
  induction l as [|a l IH]; intros part.
  - cbn. symmetry. apply append_nil_r.
  - cbn [fold_left map]. rewrite IH, append_assoc. f_equal.
    destruct l as [|b l']; [cbn; rewrite append_nil_r; reflexivity|].
    reflexivity.
Qed.

Lemma sections_of_contributing rd l :
  join_str EmptyString (map (pdf_section rd) (List.filter (contributes rd) l))
  = join_str EmptyString (map (pdf_section rd) l).
Proof.
  assert (Hcons : forall x xs,
            join_str EmptyString (x :: xs) = x +:+ join_str EmptyString xs).
  { intros x [|y ys]; [cbn; rewrite append_nil_r; reflexivity|reflexivity]. }
  induction l as [|a l IH]; [reflexivity|].
  cbn [List.filter map]. rewrite Hcons.
  destruct (contributes rd a) eqn:E.
  - cbn [map]. rewrite Hcons, IH. reflexivity.
  - rewrite IH. unfold contributes, PyStr.truthy in E.
    apply negb_false_iff, String.eqb_eq in E. rewrite E. reflexivity.
Qed.

Lemma email_block_without_silent rd total idx rec :
  email_block rd total idx (without_silent_attachments rd rec)
  = email_block rd total idx rec.
Proof.
  unfold email_block. cbn [txt attachments without_silent_attachments].
  rewrite !fold_sections, sections_of_contributing. reflexivity.
Qed.

(** X24. Only PDF attachments with text reach the payload.  An
    attachment adds a section exactly when its name ends in [.pdf] (in any
    case) and the text extracted from it is not blank; taking all other
    attachments out of the records leaves the payload as it is. *)
Theorem payload_ignores_silent_attachments :
  forall (rd : Reader) (saved_emails : list saved_email),
    build_package_from_saved_emails rd
      (map (without_silent_attachments rd) saved_emails)
    = build_package_from_saved_emails rd saved_emails /\
    forall a,
      contributes rd a
      = PyStr.endswith ".pdf" (PyStr.lower a)
        && PyStr.truthy (PyStr.strip (extract_text_from_pdf rd a)).
Proof.
  intros rd l. split.
  - unfold build_package_from_saved_emails. rewrite length_map. f_equal.
    generalize (length l). intros total.
    change (map (without_silent_attachments rd) l)
      with (without_silent_attachments rd <$> l).
    rewrite imap_fmap. apply imap_ext. intros i rec _. cbn.
    apply email_block_without_silent.
  - intros a. unfold contributes, pdf_section.
    destruct (PyStr.endswith ".pdf" (PyStr.lower a)); [|reflexivity].
    destruct (PyStr.truthy (PyStr.strip (extract_text_from_pdf rd a)));
      reflexivity.
Qed.

Lemma join_str_nonempty sep p rest :
  p <> EmptyString -> join_str sep (p :: rest) <> EmptyString.
Proof.
  intros Hp. destruct p as [|c p]; [congruence|].
  destruct rest; cbn; discriminate.
Qed.

Lemma pages_text_empty pages :
  pages_text pages = EmptyString <->
  Forall (fun p => page_text p = EmptyString) pages.
Proof.
  unfold pages_text. induction pages as [|p pages IH].
  - split; [constructor|reflexivity].
  - cbn [map List.filter]. destruct (PyStr.truthy (page_text p)) eqn:E.
    + apply truthy_true in E. split.
      * intros H. destruct (join_str_nonempty _ _ _ E H).
      * intros H. inversion H; subst. congruence.
    + unfold PyStr.truthy in E. apply negb_false_iff, String.eqb_eq in E.
      rewrite IH. split; [constructor; auto|]. intros H. inversion H; auto.
Qed.

(** X25. Extraction from a PDF never fails, and it yields the empty
    text in exactly three situations: the PDF library is missing, the
    file cannot be opened, or no page gives any text (a page that raises
    counts as giving none). *)
Theorem extract_text_from_pdf_empty_iff :
  forall (rd : Reader) (path : string),
    extract_text_from_pdf rd path = EmptyString <->
    pdfplumber rd = false \/
    pdf_pages rd path = None \/
    exists pages,
      pdf_pages rd path = Some pages /\
      Forall (fun p => page_text p = EmptyString) pages.
Proof.
  intros rd path. unfold extract_text_from_pdf.
  destruct (pdfplumber rd); cbn [negb].
  - destruct (pdf_pages rd path) as [pages|].
    + rewrite pages_text_empty. split.
      * intros H. right. right. eauto.
      * intros [H|[H|(ps & [= <-] & H)]]; [discriminate|discriminate|exact H].
    + split; auto.
  - split; auto.
Qed.

(** ** From the payload to the report *)

Ltac open_run :=
  unfold run_stages, write_then, generate_report;
  repeat match goal with
         | |- context [negb true] => cbn [negb]
         | |- context [negb false] => cbn [negb]
         | |- context [PyStr.otruthy (openai_api_key ?s)] =>
             let E := fresh "Ek" in
             destruct (PyStr.otruthy (openai_api_key s)) eqn:E
         | |- context [PyStr.otruthy (json_input ?s)] =>
             let E := fresh "Ej" in
             destruct (PyStr.otruthy (json_input s)) eqn:E
         | |- context [if ?b then _ else _] =>
             let E := fresh "Eb" in destruct b eqn:E
         | |- context [match ?o with Some _ => _ | None => _ end] =>
             let E := fresh "Eo" in destruct o eqn:E
         end;
  cbn [fst snd negb].

(** X26. A run writes the merged payload before anything else,
    whatever the switches (when it cannot be written the run stops
    there, with nothing written and no service called), and it writes no
    file but its own four: the payload and the dump, both with the merged
    text, the extraction file and the report. *)
Theorem run_writes_only_its_files :
  forall (env : Env) (st : Stages) (sw : Switches)
         (read_json : string -> option string)
         (outdir start end_ full_text period_label : string),
    let payload_default := payload_path env outdir start end_ in
    let run := run_stages env st sw read_json outdir start end_ full_text
                 period_label in
    (if write_text_ok env payload_default
     then exists rest, snd run = WroteFile payload_default full_text :: rest
     else run = (Uncaught, [])) /\
    (forall path content,
       In (WroteFile path content) (snd run) ->
       (path = payload_default /\ content = full_text) \/
       (dump_path_of sw = Some path /\ content = full_text) \/
       path = extract_path_of env outdir start end_ \/
       path = report_path_of env outdir start end_).
Proof.
  intros env st sw read_json outdir start end_ full_text period_label
    payload_default run.
  subst run payload_default. split.
  - unfold run_stages.
    match goal with
    | |- context [write_then env (payload_path env outdir start end_)
                    full_text ?r] => generalize r
    end.
    intros rest. unfold write_then.
    destruct (write_text_ok env (payload_path env outdir start end_));
      [|reflexivity].
    cbn [snd]. eexists. reflexivity.
  - intros path content.
    open_run; cbn [In]; intros H;
      repeat (destruct H as [H|H]; try discriminate H);
      try contradiction;
      injection H as <- <-; auto 6.
Qed.

(** X27. [--only-dump] counts only together with a dump path.  Without
    one the switch changes nothing and the run goes on to the stages.
    With one, and the two files written, the run ends after the dump
    without calling any service. *)
Theorem only_dump_needs_a_dump_path :
  forall (env : Env) (st : Stages) (sw : Switches)
         (read_json : string -> option string)
         (outdir start end_ full_text period_label : string),
    (dump_path_of sw = None ->
       forall b,
         run_stages env st (with_only_dump b sw) read_json outdir start end_
           full_text period_label
         = run_stages env st sw read_json outdir start end_ full_text
             period_label) /\
    (forall dump_path,
       dump_path_of sw = Some dump_path ->
       only_dump sw = true ->
       let payload_default := payload_path env outdir start end_ in
       write_text_ok env payload_default = true ->
       write_text_ok env dump_path = true ->
       run_stages env st sw read_json outdir start end_ full_text period_label
       = (Returned, [WroteFile payload_default full_text;
                     WroteFile dump_path full_text])).
Proof.
  intros env st sw read_json outdir start end_ full_text period_label. split.
  - intros Hnone b. unfold run_stages.
    change (dump_path_of (with_only_dump b sw)) with (dump_path_of sw).
    rewrite Hnone. reflexivity.
  - intros dump_path Hd Ho payload_default Hw1 Hw2. subst payload_default.
    unfold run_stages. rewrite Hd, Ho. unfold write_then.
    rewrite Hw1, Hw2. reflexivity.
Qed.

(** X28. Each exit code of the stages has one cause.  The run exits
    with 4 only when the key is missing and the service was not switched
    off; with 5 only when a key is there and the file given with
    [--json-input] cannot be read; with 6 only when a key is there, no
    such file was given and the extraction call raises.  These are the
    only exits of [run_stages]: the exit with 7 of the source guards the
    wait for the report stage, which catches its own exceptions and is
    followed here by its outcome. *)
Theorem exit_codes_name_their_cause :
  forall (env : Env) (st : Stages) (sw : Switches)
         (read_json : string -> option string)
         (outdir start end_ full_text period_label : string) (code : Z),
    fst (run_stages env st sw read_json outdir start end_ full_text
           period_label) = Exit code ->
    (code = 4 /\ skip_openai sw = false /\
     PyStr.otruthy (openai_api_key sw) = false) \/
    (code = 5 /\ PyStr.otruthy (openai_api_key sw) = true /\
     PyStr.otruthy (json_input sw) = true /\
     read_json (PyStr.getattr_or (json_input sw) EmptyString) = None) \/
    (code = 6 /\ PyStr.otruthy (openai_api_key sw) = true /\
     PyStr.otruthy (json_input sw) = false /\
     call_openai_extract_updates (json_loads_ok st) (extractor_reply st)
       full_text (payload_name start end_) = None).
Proof.
  intros env st sw read_json outdir start end_ full_text period_label code.
  open_run; intros H; try discriminate H; injection H as <-; auto 10.
Qed.

(** X29. With [SKIP_OPENAI] set, or without a key, no text-generation
    service is ever called. *)
Theorem no_service_call_without_key :
  forall (env : Env) (st : Stages) (sw : Switches)
         (read_json : string -> option string)
         (outdir start end_ full_text period_label : string),
    skip_openai sw = true \/ PyStr.otruthy (openai_api_key sw) = false ->
    List.filter is_service_call
      (snd (run_stages env st sw read_json outdir start end_ full_text
              period_label)) = [].
Proof.
  intros env st sw read_json outdir start end_ full_text period_label.
  open_run; intros [H|H]; try discriminate H; reflexivity.
Qed.

(** Without carriage returns a text is read back as it was written,
    whatever the line separator of the platform. *)
Lemma read_back_plain (crlf_sep : bool) (s : string) :
  no_carriage_return s = true -> read_back crlf_sep s = s.
Proof.
  unfold read_back, no_carriage_return.
  induction s as [|c r IH]; [reflexivity|].
  cbn [all_chars written_text]. intros H.
  apply andb_true_iff in H as [Hc Hr]. apply negb_true_iff in Hc.
  specialize (IH Hr).
  destruct (Ascii.eqb c "010") eqn:Elf.
  - apply Ascii.eqb_eq in Elf. subst c.
    destruct crlf_sep; cbn [andb].
    + cbn. f_equal. exact IH.
    + cbn. f_equal. exact IH.
  - cbn [andb]. cbn [universal_newlines]. rewrite Hc. f_equal. exact IH.
Qed.

(** X30. The report stage is given what was persisted.  A call to the
    generator in the run carries the period label of the run and either
    the content of the file given with [--json-input], or the extraction
    file read back.  That file holds the text the run has written to it
    just before: the extractor's answer re-printed when the answer is
    valid JSON and the re-printed text can be written, the answer as it
    is otherwise.  It is read back with its line ends as a text-mode
    file returns them, and so as that very text when it holds no
    carriage return.  The run calls the extractor and the generator once
    each at most. *)
Theorem generator_reads_what_was_persisted :
  forall (env : Env) (st : Stages) (sw : Switches)
         (read_json : string -> option string)
         (outdir start end_ full_text period_label : string),
    let run := run_stages env st sw read_json outdir start end_ full_text
                 period_label in
    (forall json period,
       In (CalledGenerator json period) (snd run) ->
       period = period_label /\
       ((PyStr.otruthy (json_input sw) = true /\
         read_json (PyStr.getattr_or (json_input sw) EmptyString) = Some json) \/
        (PyStr.otruthy (json_input sw) = false /\
         exists structured text,
           call_openai_extract_updates (json_loads_ok st) (extractor_reply st)
             full_text (payload_name start end_) = Some structured /\
           text = (if json_loads_ok st structured
                      && pretty_encodable st structured
                   then json_pretty st structured
                   else structured) /\
           In (WroteFile (extract_path_of env outdir start end_) text)
              (snd run) /\
           json = read_back (linesep_crlf st) text /\
           (no_carriage_return text = true -> json = text)))) /\
    (length (List.filter is_extractor_call (snd run)) <= 1)%nat /\
    (length (List.filter is_generator_call (snd run)) <= 1)%nat.
Proof.
  intros env st sw read_json outdir start end_ full_text period_label run.
  subst run. split; [|split].
  - intros json period.
    open_run; cbn [In]; intros H;
      repeat (destruct H as [H|H]; try discriminate H);
      try contradiction;
      injection H as <- <-; split; try reflexivity;
      first [ left; split; [reflexivity|first [reflexivity|assumption]]
            | right; split; [reflexivity|];
              eexists; eexists; split; [reflexivity|];
              split; [reflexivity|];
              split; [cbn [In]; auto 10|];
              split; [reflexivity|]; intros Hn; apply read_back_plain; exact Hn ].
  - open_run; cbn; lia.
  - open_run; cbn; lia.
Qed.

(** ** Runs of the further properties on the concrete store *)

Lemma dedupe_idempotent_witness :
  dedupe [Scenario.record (Some "A") 10; Scenario.record (Some "B") 11]
  = [Scenario.record (Some "A") 10; Scenario.record (Some "B") 11].
Proof.
  apply (proj1 (dedupe_idempotent _)).
  repeat constructor; rewrite ?list_elem_of_In; simpl; intuition discriminate.
Defined.

Lemma dedupe_appended_record_witness :
  dedupe ([Scenario.record (Some "A") 10; Scenario.record (Some "B") 11]
          ++ [Scenario.record (Some "A") 12])
  = dedupe [Scenario.record (Some "A") 10; Scenario.record (Some "B") 11].
Proof.
  apply (dedupe_appended_record
           [Scenario.record (Some "A") 10; Scenario.record (Some "B") 11]
           (Scenario.record (Some "A") 12)).
  left. reflexivity.
Defined.

Lemma sort_by_received_fixes_sorted_lists_witness :
  sort_by_received Scenario.since
    [Scenario.timeless (Some "D"); Scenario.record (Some "A") 10;
     Scenario.record (Some "B") 10; Scenario.record (Some "C") 12]
  = [Scenario.timeless (Some "D"); Scenario.record (Some "A") 10;
     Scenario.record (Some "B") 10; Scenario.record (Some "C") 12].
Proof.
  apply (proj1 (sort_by_received_fixes_sorted_lists Scenario.since _)).
  repeat constructor.
Defined.

Lemma aggregate_idempotent_witness :
  aggregate Scenario.since Scenario.until
    ([Scenario.record (Some "A") 10; Scenario.record (Some "B") 11]
     ++ [Scenario.record (Some "A") 12])
  = aggregate Scenario.since Scenario.until
      [Scenario.record (Some "A") 10; Scenario.record (Some "B") 11].
Proof.
  apply (proj2 (aggregate_idempotent Scenario.since Scenario.until
                  [Scenario.record (Some "A") 10; Scenario.record (Some "B") 11])
           (Scenario.record (Some "A") 12) "A").
  - reflexivity.
  - left. reflexivity.
Defined.

Lemma get_outlook_folder_composes_witness :
  exists g,
    get_outlook_folder (Some one_mailbox) "henry.wen@example.com" ["Inbox"]
      = inl g /\
    Sub g "Archive" = None.
Proof.
  destruct (proj2 (get_outlook_folder_composes (Some one_mailbox)
                     "henry.wen@example.com" ["Inbox"; "Archive"; "2024"] [])
              "Archive" "henry.wen@example.com")
    as (_ & pre & post & g & Hp & Hg & Hs).
  - vm_compute. reflexivity.
  - destruct pre as [|a [|b pre]]; simpl in Hp.
    + exfalso. apply (f_equal (fun l => hd EmptyString l)) in Hp.
      simpl in Hp. discriminate Hp.
    + apply (f_equal (fun l => hd EmptyString l)) in Hp. simpl in Hp.
      subst a. exists g. split; [exact Hg|exact Hs].
    + exfalso. apply (f_equal (fun l => tl (tl l))) in Hp. simpl in Hp.
      destruct pre as [|c [|d pre]]; simpl in Hp.
      * apply (f_equal (fun l => hd EmptyString l)) in Hp.
        simpl in Hp. discriminate Hp.
      * apply (f_equal (fun l => length l)) in Hp. simpl in Hp. lia.
      * apply (f_equal (fun l => length l)) in Hp. simpl in Hp. lia.
Defined.

Lemma print_folder_tree_respects_depth_witness :
  length (_print_folder_tree mailbox_folder EmptyString 2 2) = 1%nat /\
  In "    2. Policy Update"
     (_print_folder_tree mailbox_folder EmptyString 0 2) /\
  _print_folder_tree mailbox_folder EmptyString 0 1
  = ["Henry.Wen@Example.com"; "  Inbox"; "  Sent"].
Proof.
  split; [|split; [|vm_compute; reflexivity]].
  - apply (print_folder_tree_respects_depth mailbox_folder EmptyString 2 2). lia.
  - apply (proj1 (print_folder_tree_respects_depth mailbox_folder EmptyString
                    0 2)).
    exists 2%nat, policy_folder. split; [|split; [lia|reflexivity]].
    apply (below_child 1 mailbox_folder inbox_folder policy_folder
             [Some inbox_folder; Some (leaf_folder "Sent" None)]);
      [reflexivity|left; reflexivity|].
    apply (below_child 0 inbox_folder policy_folder policy_folder
             [Some policy_folder; None; Some (leaf_folder "Drafts" None)]);
      [reflexivity|left; reflexivity|constructor].
Defined.

Lemma only_dump_needs_a_dump_path_witness :
  run_stages Scenario.env table_stages (with_only_dump true plain_switches)
    (fun _ => None) Scenario.outdir "250803" "250807" "payload" "period"
  = run_stages Scenario.env table_stages plain_switches
      (fun _ => None) Scenario.outdir "250803" "250807" "payload" "period".
Proof.
  apply (proj1 (only_dump_needs_a_dump_path Scenario.env table_stages
                  plain_switches (fun _ => None) Scenario.outdir
                  "250803" "250807" "payload" "period")).
  reflexivity.
Defined.

Lemma exit_codes_name_their_cause_witness :
  fst (run_stages Scenario.env table_stages keyless_switches (fun _ => None)
         Scenario.outdir "250803" "250807" "payload" "period") = Exit 4 /\
  PyStr.otruthy (openai_api_key keyless_switches) = false.
Proof.
  assert (E : fst (run_stages Scenario.env table_stages keyless_switches
                     (fun _ => None) Scenario.outdir "250803" "250807"
                     "payload" "period") = Exit 4) by (vm_compute; reflexivity).
  split; [exact E|].
  destruct (exit_codes_name_their_cause _ _ _ _ _ _ _ _ _ _ E)
    as [(_ & _ & H)|[(H & _)|(H & _)]]; [exact H|discriminate H|discriminate H].
Defined.

Lemma no_service_call_without_key_witness :
  List.filter is_service_call
    (snd (run_stages Scenario.env table_stages keyless_switches (fun _ => None)
            Scenario.outdir "250803" "250807" "payload" "period")) = [].
Proof.
  apply no_service_call_without_key. right. reflexivity.
Defined.

Lemma generator_reads_what_was_persisted_witness :
  In (WroteFile
        (extract_path_of Scenario.env Scenario.outdir "250803" "250807") "{}")
     (snd (run_stages Scenario.env table_stages plain_switches (fun _ => None)
             Scenario.outdir "250803" "250807" "payload" "period")).
Proof.
  destruct (proj1 (generator_reads_what_was_persisted Scenario.env table_stages
                     plain_switches (fun _ => None) Scenario.outdir
                     "250803" "250807" "payload" "period") "{}" "period")
    as (_ & [(H & _)|(_ & s & text & Hc & Ht & Hin & _)]).
  - vm_compute. tauto.
  - discriminate H.
  - assert (Es : s = "{}") by (vm_compute in Hc; congruence).
    subst s text. exact Hin.
Defined.

(** A run whose extractor answers valid JSON that cannot be written
    re-printed: the answer is written as it is, and the generator gets
    that. *)
Example stages_of_a_run_with_a_lone_surrogate :
  run_stages Scenario.env surrogate_stages plain_switches (fun _ => None)
    Scenario.outdir "250803" "250807" "payload" "period"
  = (Returned,
     [WroteFile "C:\out\20250807_policy\ALL_250803-250807.txt" "payload";
      CalledExtractor "payload" "ALL_250803-250807.txt";
      WroteFile "C:\out\20250807_policy\EXTRACT_250803-250807.json"
        surrogate_answer;
      CalledGenerator surrogate_answer "period";
      WroteFile "C:\out\20250807_policy\Weekly_report_250803-250807.md"
        "# Weekly report"]).
Proof. vm_compute. reflexivity. Qed.

(** A whole run with a key and no other switch: payload, extraction,
    extraction file, generation, report. *)
Example stages_of_a_plain_run :
  run_stages Scenario.env table_stages plain_switches (fun _ => None)
    Scenario.outdir "250803" "250807" "payload" "period"
  = (Returned,
     [WroteFile "C:\out\20250807_policy\ALL_250803-250807.txt" "payload";
      CalledExtractor "payload" "ALL_250803-250807.txt";
      WroteFile "C:\out\20250807_policy\EXTRACT_250803-250807.json" "{}";
      CalledGenerator "{}" "period";
      WroteFile "C:\out\20250807_policy\Weekly_report_250803-250807.md"
        "# Weekly report"]).
Proof. vm_compute. reflexivity. Qed.

(** The payload of a record with four attachments, two of them PDFs
    with text or without. *)
Example payload_of_one_record :
  build_package_from_saved_emails table_reader
    [{| txt := "mail.txt";
        attachments := ["a\RATES.PDF"; "a\note.txt"; "a\blank.pdf"; "a\gone.pdf"];
        received := None; message_id := None; date_source := "mock";
        raw_received := None; chosen_date := None |}]
  = "---EMAIL 1/1---" +:+ nl +:+ "Subject: x" +:+ nl +:+ nl +:+
    "[PDF: RATES.PDF]" +:+ nl +:+ "page one" +:+ nl +:+ "page four" +:+ nl.
Proof. vm_compute. reflexivity. Qed.

Lemma run_writes_only_its_files_witness :
  (extract_path_of Scenario.env Scenario.outdir "250803" "250807"
   = payload_path Scenario.env Scenario.outdir "250803" "250807" /\
   "{}" = "payload") \/
  (dump_path_of plain_switches
   = Some (extract_path_of Scenario.env Scenario.outdir "250803" "250807") /\
   "{}" = "payload") \/
  extract_path_of Scenario.env Scenario.outdir "250803" "250807"
  = extract_path_of Scenario.env Scenario.outdir "250803" "250807" \/
  extract_path_of Scenario.env Scenario.outdir "250803" "250807"
  = report_path_of Scenario.env Scenario.outdir "250803" "250807".
Proof.
  apply (proj2 (run_writes_only_its_files Scenario.env table_stages
                  plain_switches (fun _ => None) Scenario.outdir
                  "250803" "250807" "payload" "period")
           (extract_path_of Scenario.env Scenario.outdir "250803" "250807")
           "{}").
  vm_compute. tauto.
Defined.
